(** * TimeTracker backend: storage adapters, tenant guard, approval lifecycle

    A shallow embedding of the storage and security layer of the
    TimeTracker backend: the two query adapters ([config/database.js] for
    the server store, [config/database-sqlite.js] for the embedded store),
    the tenant guard ([middleware/multiTenancy.js]), the time-log and
    timesheet routes, the encryption-key configuration and the pending-sync
    reader of the embedded store. *)

From Stdlib Require Import ZArith QArith List String Ascii Bool Lia Sorted.
From stdpp Require Import base option list gmap strings pretty.
Import ListNotations.
Close Scope Q_scope.
Local Open Scope string_scope.

(** ** JavaScript values that travel as query parameters and row fields *)

(** [JTime t] stands for an ISO-8601 timestamp string denoting the instant
    [t] (milliseconds since the epoch); [JInt] is an integer-valued number,
    [JNum] any other number. *)
Inductive jsval : Type :=
| JNull
| JStr (s : string)
| JInt (z : Z)
| JNum (q : Q)
| JBool (b : bool)
| JTime (t : Z).

(** JavaScript truthiness of an optional string ([undefined] and the empty
    string are falsy), as used by [if (process.env.X)] and [a || b]. *)
Definition truthy (o : option string) : bool :=
  match o with
  | Some s => negb (String.eqb s "")
  | None => false
  end.

(** [a || b] on optional strings. *)
Definition js_or (a b : option string) : option string :=
  if truthy a then a else b.

(** The character class [[0-9a-fA-F]]. *)
Definition is_hex_digit (c : ascii) : bool :=
  let n := nat_of_ascii c in
  ((48 <=? n) && (n <=? 57) || (65 <=? n) && (n <=? 70) || (97 <=? n) && (n <=? 102))%nat.

(** What follows [n] hexadecimal digits at the head of [s], if [s] starts
    with that many. *)
Fixpoint hex_run (n : nat) (s : string) : option string :=
  match n, s with
  | O, _ => Some s
  | S n', String c tl => if is_hex_digit c then hex_run n' tl else None
  | S _, EmptyString => None
  end.

(** [array.join(sep)] on strings. *)
Fixpoint join (sep : string) (l : list string) : string :=
  match l with
  | [] => ""
  | [x] => x
  | x :: tl => x ++ sep ++ join sep tl
  end.

(** A stable insertion sort; [leb x y] says that [x] may stand before [y]. *)
Fixpoint insert_sorted {A} (leb : A -> A -> bool) (x : A) (l : list A) : list A :=
  match l with
  | [] => [x]
  | y :: l' => if leb x y then x :: l else y :: insert_sorted leb x l'
  end.

Definition isort {A} (leb : A -> A -> bool) (l : list A) : list A :=
  foldr (insert_sorted leb) [] l.

Definition before {A} (leb : A -> A -> bool) (x y : A) : Prop := leb x y = true.

(** ** The store selector ([config/database-factory.js]) *)

Inductive backend : Type := ServerStore | EmbeddedStore.

#[global] Instance backend_eq_dec : EqDecision backend.
Proof. solve_decision. Defined.

(** [process.env.DB_TYPE || (process.env.EMBEDDED_MODE === 'true' ? 'sqlite' : 'postgresql')] *)
Definition DB_TYPE (env_DB_TYPE env_EMBEDDED_MODE : option string) : string :=
  match js_or env_DB_TYPE None with
  | Some s => s
  | None => if bool_decide (env_EMBEDDED_MODE = Some "true") then "sqlite" else "postgresql"
  end.

Definition select_backend (env_DB_TYPE env_EMBEDDED_MODE : option string) : backend :=
  if String.eqb (DB_TYPE env_DB_TYPE env_EMBEDDED_MODE) "sqlite"
  then EmbeddedStore else ServerStore.

(** ** Placeholder handling of the two adapters *)

Module Adapter.

(** A statement text is cut into plain characters and placeholders
    [$k]: the matches of the regular expression [\$(\d+)], leftmost
    first, digits taken greedily. *)
Inductive tok : Type :=
| Chr (c : ascii)
| Ph (k : nat).

Definition digit_of (c : ascii) : option nat :=
  let n := nat_of_ascii c in
  if (48 <=? n)%nat && (n <=? 57)%nat then Some (n - 48)%nat else None.

Definition starts_with_digit (s : string) : bool :=
  match s with
  | String c _ => bool_decide (is_Some (digit_of c))
  | EmptyString => false
  end.

Definition flush (cur : option nat) : list tok :=
  match cur with
  | Some k => [Ph k]
  | None => []
  end.

(** [cur] is the value of the digits read so far when the scan is inside
    a placeholder. *)
Fixpoint lex (cur : option nat) (s : string) : list tok :=
  match s with
  | EmptyString => flush cur
  | String c tl =>
      match cur, digit_of c with
      | Some k, Some d => lex (Some (10 * k + d)%nat) tl
      | _, _ =>
          flush cur ++
          (if Ascii.eqb c "$" && starts_with_digit tl
           then lex (Some 0%nat) tl
           else Chr c :: lex None tl)
      end
  end.

Definition tokens (text : string) : list tok := lex None text.

Definition ph (t : tok) : option nat :=
  match t with Ph k => Some k | Chr _ => None end.

Definition char_of (t : tok) : ascii :=
  match t with Ph _ => "?"%char | Chr c => c end.

(** The placeholder numbers of a text, in the order they appear. *)
Definition holes_of (text : string) : list nat := omap ph (tokens text).

Fixpoint string_of_chars (l : list ascii) : string :=
  match l with
  | [] => EmptyString
  | c :: l' => String c (string_of_chars l')
  end.

(** [text.replace(/\$(\d+)/g, '?')] of [query], [queryOne] and [execute]
    of the embedded store. *)
Definition sqliteQuery (text : string) : string :=
  string_of_chars (char_of <$> tokens text).

(** What an engine executes: the text with every parameter position
    filled by the value bound to it ([None]: no such parameter). *)
Inductive piece (V : Type) : Type :=
| Lit (c : ascii)
| Val (v : option V).
Arguments Lit {V} c.
Arguments Val {V} v.

Section Binding.
Context {V : Type}.

(** Server store: [pool.query(text, params)]; [$k] denotes
    [params[k-1]] wherever it stands. *)
Definition param_at (params : list V) (k : nat) : option V :=
  match k with
  | O => None
  | S j => params !! j
  end.

Definition piece_of (params : list V) (t : tok) : piece V :=
  match t with Ph k => Val (param_at params k) | Chr c => Lit c end.

Definition server_view (text : string) (params : list V) : list (piece V) :=
  piece_of params <$> tokens text.

(** Embedded engine: [db.all(sql, params)] binds the array to the
    anonymous [?] parameters in the order they appear. *)
Fixpoint qmark_view (next : nat) (sql : string) (params : list V) : list (piece V) :=
  match sql with
  | EmptyString => []
  | String c tl =>
      if Ascii.eqb c "?"
      then Val (params !! next) :: qmark_view (S next) tl params
      else Lit c :: qmark_view next tl params
  end.

Definition embedded_view (text : string) (params : list V) : list (piece V) :=
  qmark_view 0 (sqliteQuery text) params.

(** The same two rules on the list of placeholder numbers alone. *)
Definition bind_server (holes : list nat) (params : list V) : list (option V) :=
  param_at params <$> holes.

Definition bind_embedded (holes : list nat) (params : list V) : list (option V) :=
  imap (fun i _ => params !! i) holes.

Definition bind (b : backend) (holes : list nat) (params : list V) : option (list V) :=
  mapM id (match b with
           | ServerStore => bind_server holes params
           | EmbeddedStore => bind_embedded holes params
           end).

(** The values an engine sees, in the order of the text. *)
Definition vals (l : list (piece V)) : list (option V) :=
  omap (fun p => match p with Val v => Some v | Lit _ => None end) l.
End Binding.

(** The embedded adapter's answer: [{ rows: rows || [], rowCount: rows ? rows.length : 0 }]. *)
Record result (R : Type) : Type := { rows : list R; rowCount : nat }.
Arguments rows {R} r.
Arguments rowCount {R} r.

Definition embedded_result {R} (engine_rows : option (list R)) : result R :=
  {| rows := default [] engine_rows;
     rowCount := match engine_rows with Some r => length r | None => 0%nat end |}.

End Adapter.


(** ** The relational store ([database/schema.sql], [createSchema]) *)

Module Store.

Record Organization : Type := {
  org_id : string;
  org_name : string;
  org_slug : string;
  org_deleted_at : option Z }.

Record User : Type := {
  u_id : string;
  u_organization_id : string;
  u_email : string;
  u_first_name : string;
  u_last_name : string;
  u_role : string;
  u_is_active : bool;
  u_deleted_at : option Z }.

Record Project : Type := {
  p_id : string;
  p_organization_id : string;
  p_name : string;
  p_is_active : bool;
  p_deleted_at : option Z }.

Record Task : Type := {
  t_id : string;
  t_organization_id : string;
  t_project_id : string;
  t_name : string;
  t_is_active : bool;
  t_deleted_at : option Z }.

(** A [time_logs] row.  [tl_id] is nullable: the embedded schema declares
    [id TEXT PRIMARY KEY] with no default, and its engine stores NULL there
    when an INSERT names no id; the server schema fills
    [uuid_generate_v4()]. *)
Record TimeLog : Type := {
  tl_id : option string;
  tl_organization_id : string;
  tl_user_id : string;
  tl_project_id : string;
  tl_task_id : string;
  tl_start_time : Z;
  tl_end_time : Z;
  tl_duration_ms : Z;
  tl_duration_hours : Q;
  tl_paused_duration_ms : Z;
  tl_activity_score : Q;
  tl_description : option string;
  tl_is_billable : bool;
  tl_status : string;
  tl_approved_by : option string;
  tl_approved_at : option Z;
  tl_created_at : Z;
  tl_updated_at : Z;
  tl_deleted_at : option Z }.

Record Screenshot : Type := {
  s_id : string;
  s_organization_id : string;
  s_user_id : string;
  s_time_log_id : option string;
  s_s3_key : string;
  s_s3_url : string;
  s_file_size : option Z;
  s_mime_type : option string;
  s_captured_at : Z;
  s_created_at : Z;
  s_deleted_at : option Z }.

(** [web_logs] carries neither an organization nor a user column. *)
Record WebLog : Type := {
  w_id : string;
  w_domain : string;
  w_url : option string;
  w_activity_type : string;
  w_timestamp : Z;
  w_created_at : Z }.

Record Db : Type := {
  organizations : list Organization;
  users : list User;
  projects : list Project;
  tasks : list Task;
  time_logs : list TimeLog;
  screenshots : list Screenshot;
  web_logs : list WebLog }.

Definition set_time_logs (db : Db) (l : list TimeLog) : Db :=
  {| organizations := organizations db; users := users db;
     projects := projects db; tasks := tasks db; time_logs := l;
     screenshots := screenshots db; web_logs := web_logs db |}.

(** The columns the tenant guard reads, for every table that has them. *)
Record Owned : Type := {
  o_id : option string;
  o_organization_id : string;
  o_deleted_at : option Z }.

Definition owned_of_user (u : User) : Owned :=
  {| o_id := Some (u_id u); o_organization_id := u_organization_id u; o_deleted_at := u_deleted_at u |}.
Definition owned_of_project (p : Project) : Owned :=
  {| o_id := Some (p_id p); o_organization_id := p_organization_id p; o_deleted_at := p_deleted_at p |}.
Definition owned_of_task (t : Task) : Owned :=
  {| o_id := Some (t_id t); o_organization_id := t_organization_id t; o_deleted_at := t_deleted_at t |}.
Definition owned_of_time_log (r : TimeLog) : Owned :=
  {| o_id := tl_id r; o_organization_id := tl_organization_id r; o_deleted_at := tl_deleted_at r |}.
Definition owned_of_screenshot (s : Screenshot) : Owned :=
  {| o_id := Some (s_id s); o_organization_id := s_organization_id s; o_deleted_at := s_deleted_at s |}.

(** The rows of the table called [name], seen through the columns [id],
    [organization_id] and [deleted_at]; [None] when the schema has no such
    table or the table lacks one of the three columns (the statement then
    fails in the engine). *)
Definition tenant_rows (name : string) (db : Db) : option (list Owned) :=
  if String.eqb name "users" then Some (owned_of_user <$> users db)
  else if String.eqb name "projects" then Some (owned_of_project <$> projects db)
  else if String.eqb name "tasks" then Some (owned_of_task <$> tasks db)
  else if String.eqb name "time_logs" then Some (owned_of_time_log <$> time_logs db)
  else if String.eqb name "screenshots" then Some (owned_of_screenshot <$> screenshots db)
  else None.

(** *** Running a statement *)

(** A statement either answers (with the store it leaves) or throws; a
    statement that throws leaves the store as it found it. *)
Inductive outcome (A : Type) : Type :=
| Ok (a : A) (db : Db)
| Raise (e : string) (db : Db).
Arguments Ok {A} a db.
Arguments Raise {A} e db.

(** What the process and the engine supply besides the request:
    the adapter chosen at start-up, whether the store can be reached,
    [process.env.NODE_ENV], the engine's [CURRENT_TIMESTAMP], the
    identifier [uuid_generate_v4()] would hand out next, and the object
    store's URL signer. *)
Record Conn : Type := {
  conn_backend : backend;
  conn_online : bool;
  NODE_ENV : option string;
  CURRENT_TIMESTAMP : Z;
  uuid_generate_v4 : string;
  getSignedUrl : string -> string }.

(** A statement: the placeholder numbers of its text in order of
    appearance, and what it does given one value per placeholder
    occurrence. *)
Record Stmt (A : Type) : Type := {
  holes : list nat;
  run : Conn -> list jsval -> Db -> outcome A }.
Arguments holes {A} s.
Arguments run {A} s c vs db.

(** [query(text, params)] of the active adapter. *)
Definition query {A} (c : Conn) (s : Stmt A) (params : list jsval) (db : Db) : outcome A :=
  if conn_online c then
    match Adapter.bind (conn_backend c) (holes s) params with
    | Some vs => run s c vs db
    | None => Raise "wrong number of bound parameters" db
    end
  else Raise "connection terminated" db.

(** SQL equality of a text column with a bound value: NULL equals nothing.
    Identifiers are held as the text the store prints them in and are
    compared as text.  The embedded store declares them [TEXT].  The server
    store declares them [UUID] and reads a parameter as a uuid before it
    compares: for a parameter in the form it prints itself
    ([Http.canonical_uuid]: the digits of a uuid with no capital letter)
    that is this comparison; other text is refused or read without regard
    to case, which this comparison does not render. *)
Definition col_eq (col : option string) (p : jsval) : bool :=
  match col, p with
  | Some a, JStr b => String.eqb a b
  | _, _ => false
  end.

Definition col_in (col : option string) (ps : list jsval) : bool :=
  existsb (col_eq col) ps.

Definition is_null {A} (o : option A) : bool :=
  match o with None => true | Some _ => false end.

(** *** The statements of the tenant guard and of the routes *)

(** [SELECT organization_id FROM ${resourceTable} WHERE id = $1 AND deleted_at IS NULL] *)
Definition select_organization_of (resourceTable : string) : Stmt (list string) :=
  {| holes := [1%nat];
     run := fun _ vs db =>
       match vs, tenant_rows resourceTable db with
       | [p], Some rs =>
           Ok (o_organization_id <$>
                 List.filter (fun r => col_eq (o_id r) p && is_null (o_deleted_at r)) rs) db
       | _, _ => Raise "relation or column does not exist" db
       end |}.

(** [SELECT id FROM projects WHERE id = $1 AND organization_id = $2 AND deleted_at IS NULL],
    and the same for [tasks], [time_logs] and [screenshots]. *)
Definition select_owned (table : string) : Stmt (list Owned) :=
  {| holes := [1%nat; 2%nat];
     run := fun _ vs db =>
       match vs, tenant_rows table db with
       | [p; o], Some rs =>
           Ok (List.filter (fun r => col_eq (o_id r) p
                                     && col_eq (Some (o_organization_id r)) o
                                     && is_null (o_deleted_at r)) rs) db
       | _, _ => Raise "relation or column does not exist" db
       end |}.

(** [SELECT id, s3_key, s3_url, file_size, mime_type, captured_at, created_at
     FROM screenshots WHERE id = $1 AND organization_id = $2 AND deleted_at IS NULL] *)
Definition select_screenshot : Stmt (list Screenshot) :=
  {| holes := [1%nat; 2%nat];
     run := fun _ vs db =>
       match vs with
       | [p; o] =>
           Ok (List.filter (fun s => col_eq (Some (s_id s)) p
                                     && col_eq (Some (s_organization_id s)) o
                                     && is_null (s_deleted_at s)) (screenshots db)) db
       | _ => Raise "wrong number of bound parameters" db
       end |}.

(** [SELECT id, user_id, status FROM time_logs
     WHERE id = $1 AND organization_id = $2 AND deleted_at IS NULL] *)
Definition select_time_log : Stmt (list TimeLog) :=
  {| holes := [1%nat; 2%nat];
     run := fun _ vs db =>
       match vs with
       | [p; o] =>
           Ok (List.filter (fun r => col_eq (tl_id r) p
                                     && col_eq (Some (tl_organization_id r)) o
                                     && is_null (tl_deleted_at r)) (time_logs db)) db
       | _ => Raise "wrong number of bound parameters" db
       end |}.

(** The effect of [SET status = .., approved_by = .., approved_at =
    CURRENT_TIMESTAMP, updated_at = CURRENT_TIMESTAMP] on one row. *)
Definition set_approval (status : string) (by_ : option string) (now : Z) (r : TimeLog) : TimeLog :=
  {| tl_id := tl_id r; tl_organization_id := tl_organization_id r;
     tl_user_id := tl_user_id r; tl_project_id := tl_project_id r;
     tl_task_id := tl_task_id r; tl_start_time := tl_start_time r;
     tl_end_time := tl_end_time r; tl_duration_ms := tl_duration_ms r;
     tl_duration_hours := tl_duration_hours r;
     tl_paused_duration_ms := tl_paused_duration_ms r;
     tl_activity_score := tl_activity_score r;
     tl_description := tl_description r; tl_is_billable := tl_is_billable r;
     tl_status := status; tl_approved_by := by_; tl_approved_at := Some now;
     tl_created_at := tl_created_at r; tl_updated_at := now;
     tl_deleted_at := tl_deleted_at r |}.

(** The table after such an UPDATE. *)
Definition approval_update (sel : TimeLog -> bool) (st : string) (who : option string)
    (now : Z) (db : Db) : Db :=
  set_time_logs db
    ((fun r => if sel r then set_approval st who now r else r) <$> time_logs db).

(** [approved_by UUID REFERENCES users(id)] of the server schema; the
    embedded schema declares [approved_by TEXT NULL] with no reference. *)
Definition approved_by_ok (c : Conn) (by_ : option string) (db : Db) : bool :=
  match conn_backend c, by_ with
  | ServerStore, Some u => existsb (fun x => String.eqb (u_id x) u) (users db)
  | _, _ => true
  end.

(** An UPDATE of the approval columns of the rows selected by [sel]. *)
Definition update_approval (c : Conn) (sel : TimeLog -> bool)
    (status by_ : jsval) (db : Db) : outcome (list TimeLog) :=
  match status, by_ with
  | JStr st, (JStr _ | JNull) =>
      let who := match by_ with JStr u => Some u | _ => None end in
      let hit := List.filter sel (time_logs db) in
      if bool_decide (hit = []) || approved_by_ok c who db then
        Ok (set_approval st who (CURRENT_TIMESTAMP c) <$> hit)
           (approval_update sel st who (CURRENT_TIMESTAMP c) db)
      else Raise "violates foreign key constraint time_logs_approved_by_fkey" db
  | _, _ => Raise "invalid input value" db
  end.

(** [UPDATE time_logs SET status = $1, approved_by = $2, approved_at = ..,
     updated_at = .. WHERE id = $3 RETURNING id, status, approved_at] *)
Definition update_time_log : Stmt (list TimeLog) :=
  {| holes := [1%nat; 2%nat; 3%nat];
     run := fun c vs db =>
       match vs with
       | [st; by_; p] => update_approval c (fun r => col_eq (tl_id r) p) st by_ db
       | _ => Raise "wrong number of bound parameters" db
       end |}.

(** [SELECT id, status FROM time_logs WHERE id IN ($2, .., $(n+1))
     AND organization_id = $1 AND deleted_at IS NULL] for [n] ids: the
    list comes first in the text, [$1] after it.  The server engine
    rejects the empty list [IN ()], the embedded engine accepts it. *)
Definition select_time_logs_in (n : nat) : Stmt (list TimeLog) :=
  {| holes := seq 2 n ++ [1%nat];
     run := fun c vs db =>
       match reverse vs with
       | o :: rev_ids =>
           if bool_decide (conn_backend c = ServerStore) && bool_decide (rev_ids = [])
           then Raise "syntax error at or near )" db
           else
           Ok (List.filter (fun r => col_in (tl_id r) (reverse rev_ids)
                                     && col_eq (Some (tl_organization_id r)) o
                                     && is_null (tl_deleted_at r)) (time_logs db)) db
       | [] => Raise "wrong number of bound parameters" db
       end |}.

(** [UPDATE time_logs SET status = $1, approved_by = $(n+2), approved_at = ..,
     updated_at = .. WHERE id IN ($2, .., $(n+1)) AND status = 'pending'
     RETURNING id, status] for [n] ids. *)
Definition update_time_logs_in (n : nat) : Stmt (list TimeLog) :=
  {| holes := [1%nat; (n + 2)%nat] ++ seq 2 n;
     run := fun c vs db =>
       match vs with
       | st :: by_ :: ids =>
           update_approval c
             (fun r => col_in (tl_id r) ids && String.eqb (tl_status r) "pending")
             st by_ db
       | _ => Raise "wrong number of bound parameters" db
       end |}.

(** [INSERT INTO time_logs (organization_id, user_id, project_id, task_id,
     start_time, end_time, duration_ms, duration_hours, paused_duration_ms,
     activity_score, description, is_billable) VALUES ($1, .., $12)
     RETURNING id, start_time, end_time, duration_hours, activity_score, created_at].

    Both schemas declare the four references (the embedded store switches
    [PRAGMA foreign_keys = ON]); only the server schema has the primary-key
    default and the constraints [valid_time_range CHECK (end_time >
    start_time)] and [valid_duration CHECK (duration_ms > 0)]. *)
Definition references_ok (org uid pid tid : string) (db : Db) : bool :=
  existsb (fun x => String.eqb (org_id x) org) (organizations db)
  && existsb (fun x => String.eqb (u_id x) uid) (users db)
  && existsb (fun x => String.eqb (p_id x) pid) (projects db)
  && existsb (fun x => String.eqb (t_id x) tid) (tasks db).

Definition server_checks (c : Conn) (start_ end_ duration_ms : Z) (db : Db) : bool :=
  match conn_backend c with
  | ServerStore =>
      (start_ <? end_)%Z && (0 <? duration_ms)%Z
      && negb (existsb (fun r => col_eq (tl_id r) (JStr (uuid_generate_v4 c))) (time_logs db))
  | EmbeddedStore => true
  end.

Definition insert_time_log : Stmt (list TimeLog) :=
  {| holes := seq 1 12;
     run := fun c vs db =>
       match vs with
       | [JStr org; JStr uid; JStr pid; JStr tid; JTime start_; JTime end_;
          JInt duration_ms; JNum duration_hours; JInt paused; JNum score;
          (JStr _ | JNull) as descr; JBool billable] =>
           let row :=
             {| tl_id := match conn_backend c with
                         | ServerStore => Some (uuid_generate_v4 c)
                         | EmbeddedStore => None
                         end;
                tl_organization_id := org; tl_user_id := uid;
                tl_project_id := pid; tl_task_id := tid;
                tl_start_time := start_; tl_end_time := end_;
                tl_duration_ms := duration_ms; tl_duration_hours := duration_hours;
                tl_paused_duration_ms := paused; tl_activity_score := score;
                tl_description := match descr with JStr d => Some d | _ => None end;
                tl_is_billable := billable;
                tl_status := "pending"; tl_approved_by := None; tl_approved_at := None;
                tl_created_at := CURRENT_TIMESTAMP c;
                tl_updated_at := CURRENT_TIMESTAMP c;
                tl_deleted_at := None |} in
           if references_ok org uid pid tid db && server_checks c start_ end_ duration_ms db
           then Ok [row] (set_time_logs db (time_logs db ++ [row]))
           else Raise "violates a constraint of time_logs" db
       | _ => Raise "invalid input value" db
       end |}.

End Store.

(** ** Requests, responses and the handler monad *)

Module Http.
Import Store.

(** [req.user], attached by the authentication collaborator. *)
Record Actor : Type := {
  id : string;
  organizationId : string;
  email : string;
  firstName : string;
  lastName : string;
  role : string }.

Inductive payload : Type :=
| NoData
| ValidationErrors
| CreatedTimeLog (id_ : option string) (startTime endTime : Z)
    (durationHours activityScore : Q) (createdAt : Z)
| ApprovedTimeLog (id_ : option string) (status : string) (approvedAt : option Z)
    (approvedById approvedByName : string)
| BulkSummary (approved total : nat) (skipped : Z)
| ScreenshotData (id_ s3Key s3Url presignedUrl : string) (fileSize : option Z)
    (mimeType : option string) (capturedAt createdAt : Z)
| WebStats (productive unproductive meeting : Z) (total : nat)
    (topSites : list (string * nat * string)) (topDistractions : list (string * nat)).

Record response : Type := {
  code : nat;
  success : bool;
  message : option string;
  data : payload;
  error : option string }.

Definition fail_with (code_ : nat) (msg : string) : response :=
  {| code := code_; success := false; message := Some msg; data := NoData; error := None |}.

(** [res.status(400).json({ success: false, message: 'Validation failed', errors: errors.array() })] *)
Definition validation_failed : response :=
  {| code := 400; success := false; message := Some "Validation failed";
     data := ValidationErrors; error := None |}.

(** [error: process.env.NODE_ENV === 'development' ? error.message : undefined] *)
Definition error_detail (c : Conn) (e : string) : option string :=
  if bool_decide (NODE_ENV c = Some "development") then Some e else None.

Definition server_error (c : Conn) (msg e : string) : response :=
  {| code := 500; success := false; message := Some msg; data := NoData;
     error := error_detail c e |}.

Definition M (A : Type) : Type := Db -> outcome A.

#[global] Instance M_ret : MRet M := fun A a db => Ok a db.
#[global] Instance M_bind : MBind M := fun A B f m db =>
  match m db with
  | Ok a db' => f a db'
  | Raise e db' => Raise e db'
  end.

Definition throw {A} (e : string) : M A := fun db => Raise e db.

(** [try { .. } catch (error) { .. }] around a handler body. *)
Definition try_catch (body : M response) (handler : string -> response) (db : Db) : response * Db :=
  match body db with
  | Ok r db' => (r, db')
  | Raise e db' => (handler e, db')
  end.

(** express-validator's [isUUID()]: eight, four, four, four and twelve
    hexadecimal digits separated by dashes. *)
Definition hex_then_dash (n : nat) (s : string) : option string :=
  match hex_run n s with
  | Some (String c tl) => if Ascii.eqb c "-" then Some tl else None
  | _ => None
  end.

Definition isUUID (s : string) : bool :=
  match (s1 ← hex_then_dash 8 s; s2 ← hex_then_dash 4 s1;
         s3 ← hex_then_dash 4 s2; s4 ← hex_then_dash 4 s3; hex_run 12 s4) with
  | Some EmptyString => true
  | _ => false
  end.

Definition is_uuid_field (o : option string) : bool :=
  match o with Some s => isUUID s | None => false end.


(** The sanitizer [.trim()]: white space is removed at both ends.  The
    white space is that of ASCII; the engine also strips U+00A0 and the
    other blanks of Unicode, so this is [trim()] on texts of ASCII
    characters only. *)
Definition is_space (c : ascii) : bool :=
  let n := nat_of_ascii c in
  ((n =? 32) || (9 <=? n) && (n <=? 13))%nat.

Fixpoint trim_left (s : string) : string :=
  match s with
  | String c tl => if is_space c then trim_left tl else s
  | EmptyString => EmptyString
  end.

Definition trim (s : string) : string :=
  String.rev (trim_left (String.rev (trim_left s))).

End Http.

(** ** The tenant guard ([middleware/multiTenancy.js]) *)

Module Tenant.
Import Store Http.

Record validation : Type := { valid : bool; vmessage : option string }.

Definition invalid (msg : string) : validation :=
  {| valid := false; vmessage := Some msg |}.

(** [validateOrganizationResource(req, resourceId, resourceTable)], with the
    default [idColumn = 'id'] every caller uses. *)
Definition validateOrganizationResource (c : Conn) (user : Actor)
    (resourceId : string) (resourceTable : string) (db : Db) : validation :=
  match query c (select_organization_of resourceTable) [JStr resourceId] db with
  | Ok [] _ => {| valid := false; vmessage := Some "Resource not found" |}
  | Ok (organization_id :: _) _ =>
      if negb (String.eqb organization_id (organizationId user))
      then {| valid := false;
              vmessage := Some "Resource does not belong to your organization" |}
      else {| valid := true; vmessage := None |}
  | Raise _ _ => {| valid := false; vmessage := Some "Validation failed" |}
  end.

(** The three middlewares [validateProject], [validateTask] and
    [validateTimeLog]: [resourceId] is [req.body.x || req.params.x ||
    req.query.x]; the answer is [Some response] when the middleware answers
    itself and [None] when it calls [next()]. *)
Definition validate_reference (c : Conn) (user : Actor) (resourceTable : string)
    (body_ params_ query_ : option string) (db : Db) : option response :=
  match js_or body_ (js_or params_ query_) with
  | Some resourceId =>
      if negb (truthy (Some resourceId)) then None
      else
        let v := validateOrganizationResource c user resourceId resourceTable db in
        if negb (valid v)
        then Some {| code := 403; success := false; message := vmessage v;
                     data := NoData; error := None |}
        else None
  | None => None
  end.

Definition validateProject (c : Conn) (user : Actor) := validate_reference c user "projects".
Definition validateTask (c : Conn) (user : Actor) := validate_reference c user "tasks".
Definition validateTimeLog (c : Conn) (user : Actor) := validate_reference c user "time_logs".

End Tenant.

(** ** [POST /api/log/time] ([routes/timeLogs.js]) *)

Module TimeLogs.
Import Store Http Tenant.

(** The JSON body (a field is [None] when it is missing or not of the
    type its validator asks for; [startTime] and [endTime] are the instants
    of well-formed ISO-8601 strings) and the query string. *)
Record CreateReq : Type := {
  user : Actor;
  projectId : option string;
  taskId : option string;
  startTime : option Z;
  endTime : option Z;
  durationMs : option Z;
  durationHours : option Q;
  pausedDurationMs : option Z;
  activityScore : option Q;
  description : option string;
  isBillable : option bool;
  query_projectId : option string;
  query_taskId : option string }.

(** The validator chain of the route. *)
Definition validators (req : CreateReq) : bool :=
  is_uuid_field (projectId req)
  && is_uuid_field (taskId req)
  && bool_decide (is_Some (startTime req))
  && bool_decide (is_Some (endTime req))
  && match durationMs req with Some d => (1 <=? d)%Z | None => false end
  && match durationHours req with Some h => Qle_bool 0 h | None => false end
  && match activityScore req with
     | Some a => Qle_bool 0 a && Qle_bool a 100
     | None => true
     end.

(** [description || null], after the [trim()] sanitizer. *)
Definition description_param (d : option string) : jsval :=
  match d with
  | Some s => if String.eqb (trim s) "" then JNull else JStr (trim s)
  | None => JNull
  end.

Definition create_handler (c : Conn) (req : CreateReq) : Db -> response * Db :=
  match projectId req, taskId req, startTime req, endTime req,
        durationMs req, durationHours req with
  | Some project, Some task, Some start_, Some end_, Some ms, Some hours =>
      if validators req then
        try_catch
          (projectCheck ← query c (select_owned "projects")
                            [JStr project; JStr (organizationId (user req))];
           match projectCheck with
           | [] => mret (fail_with 403 "Project not found or does not belong to your organization")
           | _ :: _ =>
               taskCheck ← query c (select_owned "tasks")
                             [JStr task; JStr (organizationId (user req))];
               match taskCheck with
               | [] => mret (fail_with 403 "Task not found or does not belong to your organization")
               | _ :: _ =>
                   result ← query c insert_time_log
                     [JStr (organizationId (user req)); JStr (id (user req));
                      JStr project; JStr task; JTime start_; JTime end_;
                      JInt ms; JNum hours;
                      JInt (default 0%Z (pausedDurationMs req));
                      JNum (default 0%Q (activityScore req));
                      description_param (description req);
                      JBool (default false (isBillable req))];
                   match result with
                   | timeLog :: _ =>
                       mret {| code := 201; success := true;
                               message := Some "Time log created successfully";
                               data := CreatedTimeLog (tl_id timeLog)
                                         (tl_start_time timeLog) (tl_end_time timeLog)
                                         (tl_duration_hours timeLog)
                                         (tl_activity_score timeLog)
                                         (tl_created_at timeLog);
                               error := None |}
                   | [] => throw "Cannot read properties of undefined (reading 'id')"
                   end
               end
           end)
          (server_error c "Failed to create time log")
      else fun db => (validation_failed, db)
  | _, _, _, _, _, _ => fun db => (validation_failed, db)
  end.

(** The route: [validateProject], [validateTask], then the handler. *)
Definition post_time (c : Conn) (req : CreateReq) (db : Db) : response * Db :=
  match validateProject c (user req) (projectId req) None (query_projectId req) db with
  | Some r => (r, db)
  | None =>
      match validateTask c (user req) (taskId req) None (query_taskId req) db with
      | Some r => (r, db)
      | None => create_handler c req db
      end
  end.

(** A range that does not end after its start, and a duration that is
    not positive. *)
Definition bad_range (req : CreateReq) : Prop :=
  exists start_ end_, startTime req = Some start_ /\ endTime req = Some end_
                      /\ (end_ <= start_)%Z.

Definition bad_duration (req : CreateReq) : Prop :=
  exists ms, durationMs req = Some ms /\ (ms <= 0)%Z.

End TimeLogs.

(** ** [PUT /api/timesheets/approve] and [/bulk-approve] ([routes/timesheets.js]) *)

Module Timesheets.
Import Store Http.

Record ApproveReq : Type := {
  user : Actor;
  timeLogId : option string;
  action : option string;
  notes : option string }.

Definition is_action (a : string) : bool :=
  String.eqb a "approve" || String.eqb a "reject".

(** [action === 'approve' ? 'approved' : 'rejected'] *)
Definition newStatus (a : string) : string :=
  if String.eqb a "approve" then "approved" else "rejected".

Definition js_of_id (o : option string) : jsval :=
  match o with Some s => JStr s | None => JNull end.

(** The placeholder [$k] as a template literal writes it. *)
Definition dollar (k : nat) : string := "$" ++ pretty k.

(** [ids.map((_, i) => `$${i + 2}`).join(',')] *)
Definition placeholders {A} (ids : list A) : string :=
  join "," (imap (fun i _ => dollar (i + 2)) ids).

(** The text of the verification statement of the bulk route. *)
Definition verifyQuery (timeLogIds : list string) : string :=
  "
        SELECT id, status
        FROM time_logs
        WHERE id IN (" ++ placeholders timeLogIds ++ ")
          AND organization_id = $1
          AND deleted_at IS NULL
      ".

(** The text of the update statement of the bulk route. *)
Definition updateQuery (pendingIds : list jsval) : string :=
  "
        UPDATE time_logs
        SET status = $1,
            approved_by = $" ++ pretty (length pendingIds + 2)%nat ++ ",
            approved_at = CURRENT_TIMESTAMP,
            updated_at = CURRENT_TIMESTAMP
        WHERE id IN (" ++ placeholders pendingIds ++ ")
          AND status = 'pending'
        RETURNING id, status
      ".

Definition not_found : response :=
  fail_with 400 "Some time logs were not found or do not belong to your organization".

Definition no_pending : response :=
  fail_with 400 "No pending time logs found in the selected entries".

Definition approve (c : Conn) (req : ApproveReq) : Db -> response * Db :=
  match timeLogId req, action req with
  | Some log_id, Some act =>
      if isUUID log_id && is_action act then
        try_catch
          (timeLogCheck ← query c select_time_log
                            [JStr log_id; JStr (organizationId (user req))];
           match timeLogCheck with
           | [] => mret (fail_with 404 "Time log not found")
           | timeLog :: _ =>
               if negb (String.eqb (tl_status timeLog) "pending")
               then mret (fail_with 400 ("Time log is already " ++ tl_status timeLog))
               else
                 updateResult ← query c update_time_log
                                  [JStr (newStatus act); JStr (id (user req)); JStr log_id];
                 match updateResult with
                 | r :: _ =>
                     mret {| code := 200; success := true;
                             message := Some ("Time log " ++ act ++ "d successfully");
                             data := ApprovedTimeLog (tl_id r) (tl_status r) (tl_approved_at r)
                                       (id (user req))
                                       (firstName (user req) ++ " " ++ lastName (user req));
                             error := None |}
                 | [] => throw "Cannot read properties of undefined (reading 'id')"
                 end
           end)
          (server_error c "Failed to approve/reject time log")
      else fun db => (validation_failed, db)
  | _, _ => fun db => (validation_failed, db)
  end.

Record BulkReq : Type := {
  b_user : Actor;
  timeLogIds : option (list string);
  b_action : option string;
  b_notes : option string }.

Definition bulk_approve (c : Conn) (req : BulkReq) : Db -> response * Db :=
  match timeLogIds req, b_action req with
  | Some ids, Some act =>
      if forallb isUUID ids && is_action act then
        try_catch
          (verifyResult ← query c (select_time_logs_in (length ids))
                            (JStr (organizationId (b_user req)) :: (JStr <$> ids));
           if negb (length verifyResult =? length ids)%nat
           then mret not_found
           else
             let pendingLogs :=
               List.filter (fun log => String.eqb (tl_status log) "pending") verifyResult in
             if (length pendingLogs =? 0)%nat
             then mret no_pending
             else
               let pendingIds := (fun log => js_of_id (tl_id log)) <$> pendingLogs in
               updateResult ← query c (update_time_logs_in (length pendingIds))
                                ([JStr (newStatus act); JStr (id (b_user req))] ++ pendingIds);
               mret {| code := 200; success := true;
                       message := Some (pretty (length updateResult) ++ " time log(s) "
                                        ++ act ++ "d successfully");
                       data := BulkSummary (length updateResult) (length ids)
                                 (Z.of_nat (length ids) - Z.of_nat (length pendingLogs));
                       error := None |})
          (server_error c "Failed to bulk approve/reject time logs")
      else fun db => (validation_failed, db)
  | _, _ => fun db => (validation_failed, db)
  end.

End Timesheets.

(** ** [GET /api/log/screenshot/:id] ([routes/screenshots.js]) *)

Module Screenshots.
Import Store Http.

Definition get_screenshot (c : Conn) (user : Actor) (id_ : string) : Db -> response * Db :=
  try_catch
    (result ← query c select_screenshot [JStr id_; JStr (organizationId user)];
     match result with
     | [] => mret (fail_with 404 "Screenshot not found")
     | screenshot :: _ =>
         mret {| code := 200; success := true; message := None;
                 data := ScreenshotData (s_id screenshot) (s_s3_key screenshot)
                           (s_s3_url screenshot) (getSignedUrl c (s_s3_key screenshot))
                           (s_file_size screenshot) (s_mime_type screenshot)
                           (s_captured_at screenshot) (s_created_at screenshot);
                 error := None |}
     end)
    (fun _ => fail_with 500 "Failed to get screenshot").

End Screenshots.

(** ** SHA-256, as [crypto.createHash('sha256')] computes it *)

Module Sha256.
Local Open Scope Z_scope.

Definition w32 (x : Z) : Z := x mod 2 ^ 32.
Definition add32 (x y : Z) : Z := w32 (x + y).
Definition rotr (n x : Z) : Z := w32 (Z.lor (Z.shiftr x n) (Z.shiftl x (32 - n))).
Definition not32 (x : Z) : Z := Z.lxor x 0xffffffff.
Definition Ch (x y z : Z) : Z := Z.lxor (Z.land x y) (Z.land (not32 x) z).
Definition Maj (x y z : Z) : Z := Z.lxor (Z.lxor (Z.land x y) (Z.land x z)) (Z.land y z).
Definition Sigma0 (x : Z) : Z := Z.lxor (Z.lxor (rotr 2 x) (rotr 13 x)) (rotr 22 x).
Definition Sigma1 (x : Z) : Z := Z.lxor (Z.lxor (rotr 6 x) (rotr 11 x)) (rotr 25 x).
Definition sigma0 (x : Z) : Z := Z.lxor (Z.lxor (rotr 7 x) (rotr 18 x)) (Z.shiftr x 3).
Definition sigma1 (x : Z) : Z := Z.lxor (Z.lxor (rotr 17 x) (rotr 19 x)) (Z.shiftr x 10).

(** The constants of FIPS 180-4: the first 32 bits of the fractional parts
    of the cube roots ([K]) and of the square roots ([H0]) of the first
    primes. *)
Fixpoint root_between (fuel : nat) (k n lo hi : Z) : Z :=
  match fuel with
  | O => lo
  | S f =>
      if hi - lo <=? 1 then lo
      else let mid := (lo + hi) / 2 in
           if mid ^ k <=? n then root_between f k n mid hi
           else root_between f k n lo mid
  end.

Definition fractional_root (k p : Z) : Z :=
  w32 (root_between 64 k (p * 2 ^ (32 * k)) 0 (2 ^ 40)).

Definition is_prime (n : nat) : bool :=
  forallb (fun d => negb (n mod d =? 0)%nat) (seq 2 (n - 2)).

Definition primes : list Z :=
  Eval vm_compute in Z.of_nat <$> List.filter is_prime (seq 2 310).

Definition K : list Z := Eval vm_compute in fractional_root 3 <$> primes.

Record state : Type := {
  ha : Z; hb : Z; hc : Z; hd : Z; he : Z; hf : Z; hg : Z; hh : Z }.

Definition H0 : state :=
  Eval vm_compute in
    match fractional_root 2 <$> firstn 8 primes with
    | [a; b; c; d; e; f; g; h] =>
        {| ha := a; hb := b; hc := c; hd := d; he := e; hf := f; hg := g; hh := h |}
    | _ => {| ha := 0; hb := 0; hc := 0; hd := 0; he := 0; hf := 0; hg := 0; hh := 0 |}
    end.

Definition word_at (w : list Z) (i : nat) : Z := nth i w 0.

Definition extend (w : list Z) (t : nat) : list Z :=
  w ++ [add32 (add32 (sigma1 (word_at w (t - 2))) (word_at w (t - 7)))
              (add32 (sigma0 (word_at w (t - 15))) (word_at w (t - 16)))].

Definition schedule (block : list Z) : list Z :=
  fold_left extend (seq 16 48) block.

Definition round (s : state) (kw : Z * Z) : state :=
  let T1 := add32 (add32 (add32 (hh s) (Sigma1 (he s))) (Ch (he s) (hf s) (hg s)))
                  (add32 (fst kw) (snd kw)) in
  let T2 := add32 (Sigma0 (ha s)) (Maj (ha s) (hb s) (hc s)) in
  {| ha := add32 T1 T2; hb := ha s; hc := hb s; hd := hc s;
     he := add32 (hd s) T1; hf := he s; hg := hf s; hh := hg s |}.

Definition compress (h : state) (block : list Z) : state :=
  let s := fold_left round (combine K (schedule block)) h in
  {| ha := add32 (ha h) (ha s); hb := add32 (hb h) (hb s);
     hc := add32 (hc h) (hc s); hd := add32 (hd h) (hd s);
     he := add32 (he h) (he s); hf := add32 (hf h) (hf s);
     hg := add32 (hg h) (hg s); hh := add32 (hh h) (hh s) |}.

(** The four bytes of a word, most significant first. *)
Definition word_bytes (x : Z) : list Z :=
  [Z.shiftr x 24 mod 256; Z.shiftr x 16 mod 256; Z.shiftr x 8 mod 256; x mod 256].

Fixpoint words_of (fuel : nat) (bytes : list Z) : list Z :=
  match fuel, bytes with
  | S f, b3 :: b2 :: b1 :: b0 :: tl =>
      (((b3 * 256 + b2) * 256 + b1) * 256 + b0) :: words_of f tl
  | _, _ => []
  end.

Definition pad (msg : list Z) : list Z :=
  let len := Z.of_nat (length msg) in
  msg ++ [0x80] ++ repeat 0 (Z.to_nat ((55 - len) mod 64))
      ++ word_bytes (Z.shiftr (8 * len) 32) ++ word_bytes (w32 (8 * len)).

Fixpoint blocks (fuel : nat) (words : list Z) : list (list Z) :=
  match fuel, words with
  | S f, _ :: _ => firstn 16 words :: blocks f (skipn 16 words)
  | _, _ => []
  end.

Definition digest_state (msg : list Z) : state :=
  let words := words_of (length (pad msg)) (pad msg) in
  fold_left compress (blocks (length words) words) H0.

Definition digest (msg : list Z) : list Z :=
  let s := digest_state msg in
  word_bytes (ha s) ++ word_bytes (hb s) ++ word_bytes (hc s) ++ word_bytes (hd s)
  ++ word_bytes (he s) ++ word_bytes (hf s) ++ word_bytes (hg s) ++ word_bytes (hh s).

End Sha256.

(** ** The encryption key ([config/crypto-config.js]) *)

Module CryptoConfig.
Local Open Scope Z_scope.

(** A [Buffer]: bytes as integers below 256. *)
Definition is_byte (b : Z) : Prop := 0 <= b < 256.

(** The bytes of a string ([update(envKey)] hashes its UTF-8 encoding; a
    string is held here as that sequence of bytes). *)
Definition bytes_of_string (s : string) : list Z :=
  (fun c => Z.of_nat (nat_of_ascii c)) <$> list_ascii_of_string s.

Definition hex_value (c : ascii) : option Z :=
  let n := nat_of_ascii c in
  if ((48 <=? n) && (n <=? 57))%nat then Some (Z.of_nat n - 48)
  else if ((65 <=? n) && (n <=? 70))%nat then Some (Z.of_nat n - 55)
  else if ((97 <=? n) && (n <=? 102))%nat then Some (Z.of_nat n - 87)
  else None.

(** [Buffer.from(s, 'hex')]: one byte for every two digits, up to the
    first pair that is not hexadecimal. *)
Fixpoint from_hex (s : string) : list Z :=
  match s with
  | String c1 (String c2 tl) =>
      match hex_value c1, hex_value c2 with
      | Some h, Some l => (16 * h + l) :: from_hex tl
      | _, _ => []
      end
  | _ => []
  end.

(** [/^[0-9a-fA-F]{64}$/.test(envKey)] *)
Definition is_hex64 (s : string) : bool :=
  match hex_run 64 s with
  | Some EmptyString => true
  | _ => false
  end.

Definition HARDCODED_KEY : list Z :=
  from_hex "0123456789abcdef0123456789abcdef0123456789abcdef0123456789abcdef".

Inductive key_outcome : Type :=
| Returns (key : list Z) (warnings : list string)
| Throws (message : string).

Definition production_error : string :=
  "ENCRYPTION_KEY environment variable is required in production".

Definition hardcoded_key_warnings : list string :=
  ["⚠️  WARNING: Using hardcoded encryption key. This is insecure for production!";
   "⚠️  Set ENCRYPTION_KEY environment variable for secure key management."].

(** The path taken when no key is configured. *)
Definition without_key (NODE_ENV : option string) : key_outcome :=
  if bool_decide (NODE_ENV = Some "production") then Throws production_error
  else Returns HARDCODED_KEY hardcoded_key_warnings.

(** [getEncryptionKey()], reading [process.env.ENCRYPTION_KEY] and
    [process.env.NODE_ENV]; [if (process.env.ENCRYPTION_KEY)] is false for
    an unset variable and for the empty string. *)
Definition getEncryptionKey (ENCRYPTION_KEY NODE_ENV : option string) : key_outcome :=
  match ENCRYPTION_KEY with
  | Some envKey =>
      if truthy (Some envKey) then
        if is_hex64 envKey then Returns (from_hex envKey) []
        else Returns (Sha256.digest (bytes_of_string envKey)) []
      else without_key NODE_ENV
  | None => without_key NODE_ENV
  end.

End CryptoConfig.

(** ** The encrypting write path and the pending-sync reader of the
    embedded store ([insertTimeLog], [getPendingSyncLogs]) *)

Module EmbeddedSync.

(** A field value: null, text (identifiers, timestamps, ciphertext) or a
    number. *)
Inductive fval : Type :=
| FNull
| FText (s : string)
| FNum (q : Q).

(** A JavaScript object, and a stored row, as a map from field names. *)
Abbreviation row := (gmap string fval).

Inductive res (A : Type) : Type :=
| Done (a : A)
| Failed (e : string).
Arguments Done {A} a.
Arguments Failed {A} e.

(** The [time_logs] table of [createSchema]. *)
Definition time_logs_columns : list string :=
  ["id"; "organization_id"; "user_id"; "project_id"; "task_id"; "start_time";
   "end_time"; "duration_ms"; "duration_hours"; "paused_duration_ms";
   "activity_score"; "description"; "is_billable"; "status"; "approved_by";
   "approved_at"; "created_at"; "updated_at"; "deleted_at"].

Definition not_null_columns : list string :=
  ["organization_id"; "user_id"; "project_id"; "task_id"; "start_time";
   "end_time"; "duration_ms"; "duration_hours"].

Definition column_defaults (CURRENT_TIMESTAMP : string) : row :=
  list_to_map
    [("paused_duration_ms", FNum 0); ("activity_score", FNum 0);
     ("is_billable", FNum 0); ("status", FText "pending");
     ("created_at", FText CURRENT_TIMESTAMP); ("updated_at", FText CURRENT_TIMESTAMP)].

Definition column (r : row) (name : string) : fval := default FNull (r !! name).

Definition is_fnull (v : fval) : bool :=
  match v with FNull => true | _ => false end.

(** SQL equality of two stored values: NULL equals nothing. *)
Definition sql_eqb (a b : fval) : bool :=
  match a, b with
  | FText x, FText y => String.eqb x y
  | FNum x, FNum y => Qeq_bool x y
  | _, _ => false
  end.

(** The [id]s the tables hold that [time_logs] refers to. *)
Record parents : Type := {
  organization_ids : list string;
  user_ids : list string;
  project_ids : list string;
  task_ids : list string }.

(** [FOREIGN KEY (organization_id) REFERENCES organizations(id)], and the
    same for [user_id], [project_id] and [task_id]: the table of
    [createSchema] declares the four, and [initializeDatabase] runs
    [PRAGMA foreign_keys = ON] on the connection every statement uses. *)
Definition foreign_keys : list (string * (parents -> list string)) :=
  [("organization_id", organization_ids); ("user_id", user_ids);
   ("project_id", project_ids); ("task_id", task_ids)].

(** A key column holds NULL or the [id] of a row of the table it refers
    to; the values are compared as they are stored, with [sql_eqb], as
    those of the primary key are. *)
Definition foreign_keys_hold (p : parents) (record : row) : bool :=
  forallb (fun fk => is_fnull (column record (fst fk))
                     || existsb (fun i => sql_eqb (column record (fst fk)) (FText i))
                          (snd fk p))
    foreign_keys.

(** [execute('INSERT INTO time_logs (fields) VALUES (?, ..)', values)]:
    the engine rejects an unknown column, a NULL in a [NOT NULL] column, a
    second row with the same non-null [id] and a key that refers to no
    row; otherwise it stores the row with the column defaults and reports
    its row number as [lastID]. *)
Definition execute_insert (CURRENT_TIMESTAMP : string) (p : parents) (record : row)
    (table : list row) : option (list row * nat) :=
  if bool_decide (dom record ⊆ list_to_set time_logs_columns)
     && forallb (fun c => negb (is_fnull (column record c))) not_null_columns
     && (is_fnull (column record "id")
         || forallb (fun r => negb (sql_eqb (column r "id") (column record "id"))) table)
     && foreign_keys_hold p record
  then Some ((table ++ [record ∪ column_defaults CURRENT_TIMESTAMP])%list, S (length table))
  else None.

(** JavaScript truthiness of a field. *)
Definition field_truthy (v : option fval) : bool :=
  match v with
  | Some (FText s) => negb (String.eqb s "")
  | Some (FNum q) => negb (Qeq_bool q 0)
  | Some FNull | None => false
  end.

(** SQL ordering of stored values: NULL first, then numbers, then text. *)
Definition sql_leb (a b : fval) : bool :=
  match a, b with
  | FNull, _ => true
  | FNum _, FNull => false
  | FNum x, FNum y => Qle_bool x y
  | FNum _, FText _ => true
  | FText x, FText y => String.leb x y
  | FText _, _ => false
  end.

(** [ORDER BY created_at DESC]: a row may stand before another when its
    [created_at] is not smaller. *)
Definition created_at_desc (a b : row) : bool :=
  sql_leb (column b "created_at") (column a "created_at").

(** [LIMIT ? OFFSET ?]: a negative limit means no limit, a negative offset
    none. *)
Definition limit_offset {A} (limit offset : Z) (l : list A) : list A :=
  let l' := skipn (Z.to_nat offset) l in
  if (limit <? 0)%Z then l' else firstn (Z.to_nat limit) l'.

Definition selected_columns : list string :=
  ["id"; "organization_id"; "user_id"; "project_id"; "task_id"; "start_time";
   "end_time"; "duration_ms"; "duration_hours"; "paused_duration_ms";
   "activity_score"; "description"; "is_billable"; "status"; "approved_by";
   "approved_at"; "created_at"; "updated_at"].

Definition select_columns (r : row) : row :=
  list_to_map ((fun c => (c, column r c)) <$> selected_columns).

Record options : Type := {
  organizationId : option string;
  limit : option Z;
  offset : option Z }.

(** The rows the reader's SELECT visits, in the order it returns them. *)
Definition visited (o : options) (table : list row) : list row :=
  limit_offset (default 100%Z (limit o)) (default 0%Z (offset o))
    (isort created_at_desc
       (List.filter
          (fun r => is_fnull (column r "deleted_at")
                    && (if truthy (organizationId o)
                        then sql_eqb (column r "organization_id")
                                     (FText (default "" (organizationId o)))
                        else true))
          table)).

Definition fieldsToEncrypt : list string :=
  ["project_id"; "start_time"; "end_time"; "activity_score"].

Definition fieldsToDecrypt : list string :=
  ["project_id"; "start_time"; "end_time"; "activity_score"].

Section Codec.
(** The cipher of [services/crypto], which is not among the sources: it
    turns a value into ciphertext and back; [None] is a
    [DecryptionError]. *)
Variable encrypt : fval -> string.
Variable decrypt : string -> option fval.

(** Modelled from the spec: [encryptFields] of [services/crypto] (absent
    from the sources) "replaces each named field's value with its
    ciphertext representation"; a record that lacks a named field stays as
    it is there. *)
Definition encryptFields (record : row) (fieldNames : list string) : row :=
  foldr (fun f r => match r !! f with
                    | Some v => <[f := FText (encrypt v)]> r
                    | None => r
                    end) record fieldNames.

(** Modelled from the spec: [decryptFields] of [services/crypto] (absent
    from the sources) is the "exact inverse" of [encryptFields]; a failure
    to decrypt is an error for the whole record and never yields null
    data.  A null or missing field is left alone, as the screenshot reader,
    which tests [decrypted.time_log_id === null] afterwards, expects; a
    number is no ciphertext. *)
Definition decrypt_field (f : string) (acc : option row) : option row :=
  match acc with
  | Some r =>
      match r !! f with
      | Some (FText ciphertext) =>
          match decrypt ciphertext with
          | Some v => Some (<[f := v]> r)
          | None => None
          end
      | Some FNull | None => Some r
      | Some (FNum _) => None
      end
  | None => None
  end.

Definition decryptFields (record : row) (fieldNames : list string) : option row :=
  foldr decrypt_field (Some record) fieldNames.

(** [insertTimeLog(timeLogData)]: the answer is the encrypted record with
    [id: timeLogData.id || result.lastID?.toString()], next to the table the
    call leaves; [p] holds the ids of the tables [time_logs] refers to. *)
Definition insertTimeLog (CURRENT_TIMESTAMP : string) (p : parents) (timeLogData : row)
    (table : list row) : res (row * list row) :=
  let encryptedData := encryptFields timeLogData fieldsToEncrypt in
  match execute_insert CURRENT_TIMESTAMP p encryptedData table with
  | Some (table', lastID) =>
      Done (<["id" := if field_truthy (timeLogData !! "id")
                      then column timeLogData "id"
                      else FText (pretty lastID)]> encryptedData,
            table')
  | None => Failed "SQLITE_CONSTRAINT"
  end.

(** [getPendingSyncLogs(options)] *)
Definition getPendingSyncLogs (o : options) (table : list row) : res (list row) :=
  match mapM (fun r => decryptFields (select_columns r) fieldsToDecrypt) (visited o table) with
  | Some decryptedRows => Done decryptedRows
  | None => Failed "DecryptionError"
  end.

End Codec.

End EmbeddedSync.

(** ** [GET /api/reports/web-stats] ([routes/reports.js]) *)

Module Reports.
Import Store Http.











Section WebStats.
(** [Math.round((count / total) * 100)], which the runtime computes in
    double precision. *)
Variable round_percent : nat -> nat -> Z.


End WebStats.

End Reports.

(** ** Role check and organization check ([middleware/auth.js]) *)

Module Auth.
Import Store Http.

(** An argument of [authorize(...allowedRoles)]: a role name, or an array
    of role names handed over as one argument. *)
Inductive role_arg : Type :=
| RoleName (r : string)
| RoleArray (rs : list string).

Definition role_arg_to_string (a : role_arg) : string :=
  match a with
  | RoleName r => r
  | RoleArray rs => join "," rs
  end.

(** [allowedRoles.includes(req.user.role)]: a string equals no array. *)
Definition includes (allowedRoles : list role_arg) (role_ : string) : bool :=
  existsb (fun a => match a with
                    | RoleName r => String.eqb r role_
                    | RoleArray _ => false
                    end) allowedRoles.

(** [authorize(...allowedRoles)]: [Some] answer, or [None] for [next()]. *)
Definition authorize (allowedRoles : list role_arg) (user : option Actor) : option response :=
  match user with
  | None => Some (fail_with 401 "Authentication required")
  | Some u =>
      if negb (includes allowedRoles (role u))
      then Some (fail_with 403 ("Insufficient permissions. Required role: "
                                ++ join " or " (role_arg_to_string <$> allowedRoles)))
      else None
  end.

(** [enforceOrganizationAccess] *)
Definition enforceOrganizationAccess (user : option Actor) : option response :=
  match user with
  | Some u =>
      if truthy (Some (organizationId u)) then None
      else Some (fail_with 401 "User organization not found")
  | None => Some (fail_with 401 "User organization not found")
  end.

(** The middleware chain the timesheet routes put before their handlers:
    [enforceOrganizationAccess, authorize(['admin', 'manager'])]. *)
Definition timesheet_guard (user : Actor) : option response :=
  match enforceOrganizationAccess (Some user) with
  | Some r => Some r
  | None => authorize [RoleArray ["admin"; "manager"]] (Some user)
  end.

End Auth.

(** ** Sequential runs of approval calls *)

Module Lifecycle.
Import Store Http.

Inductive call : Type :=
| Single (req : Timesheets.ApproveReq)
| Bulk (req : Timesheets.BulkReq).

Definition handle (c : Conn) (k : call) (db : Db) : response * Db :=
  match k with
  | Single req => Timesheets.approve c req db
  | Bulk req => Timesheets.bulk_approve c req db
  end.

(** The calls are served one after the other, each with the clock reading
    and connection state of its own moment. *)
Fixpoint run_calls (calls : list (Conn * call)) (db : Db) : list response * Db :=
  match calls with
  | [] => ([], db)
  | (c, k) :: rest =>
      let '(resp, db1) := handle c k db in
      let '(resps, db2) := run_calls rest db1 in
      (resp :: resps, db2)
  end.

(** A time log that has left the pending state. *)
Definition terminal (r : TimeLog) : Prop := tl_status r <> "pending".

End Lifecycle.

(** ** The claims about the bulk route, as the specification states them *)

Module BulkSpec.
Import Store Http Timesheets.

Definition listed (ids : list string) (r : TimeLog) : bool :=
  col_in (tl_id r) (JStr <$> ids).

Definition is_pending (r : TimeLog) : bool := String.eqb (tl_status r) "pending".

(** The verification of the bulk route passed with the rows [rows]. *)
Definition verified (c : Conn) (req : BulkReq) (ids : list string) (db : Db)
    (rows : list TimeLog) : Prop :=
  query c (select_time_logs_in (length ids))
    (JStr (organizationId (b_user req)) :: (JStr <$> ids)) db = Ok rows db
  /\ length rows = length ids.

End BulkSpec.

(** ** A small store for examples *)

Module Sample.
Import Store Http.

Definition acme : string := "00000000-0000-4000-8000-0000000000a1".
Definition globex : string := "00000000-0000-4000-8000-0000000000a2".
Definition mia : string := "00000000-0000-4000-8000-0000000000b1".
Definition gus : string := "00000000-0000-4000-8000-0000000000b2".
Definition website : string := "00000000-0000-4000-8000-0000000000c1".
Definition reactor : string := "00000000-0000-4000-8000-0000000000c2".
Definition design : string := "00000000-0000-4000-8000-0000000000d1".
Definition welding : string := "00000000-0000-4000-8000-0000000000d2".
Definition log_a : string := "00000000-0000-4000-8000-0000000000e1".
Definition log_b : string := "00000000-0000-4000-8000-0000000000e2".
Definition log_c : string := "00000000-0000-4000-8000-0000000000e3".
Definition log_g : string := "00000000-0000-4000-8000-0000000000e4".
Definition shot_g : string := "00000000-0000-4000-8000-0000000000f1".

Definition time_log (i org who project task status : string) (by_ : option string)
    (at_ : option Z) : TimeLog :=
  {| tl_id := Some i; tl_organization_id := org; tl_user_id := who;
     tl_project_id := project; tl_task_id := task;
     tl_start_time := 1000; tl_end_time := 2000; tl_duration_ms := 1000;
     tl_duration_hours := 1; tl_paused_duration_ms := 0; tl_activity_score := 50;
     tl_description := None; tl_is_billable := false; tl_status := status;
     tl_approved_by := by_; tl_approved_at := at_;
     tl_created_at := 3000; tl_updated_at := 3000; tl_deleted_at := None |}.

Definition row_a : TimeLog :=
  time_log log_a acme mia website design "pending" None None.
Definition row_b : TimeLog :=
  time_log log_b acme mia website design "approved" (Some mia) (Some 3500%Z).
Definition row_c : TimeLog :=
  time_log log_c acme mia website design "pending" None None.
Definition row_g : TimeLog :=
  time_log log_g globex gus reactor welding "pending" None None.

Definition db0 : Db :=
  {| organizations :=
       [ {| org_id := acme; org_name := "Acme"; org_slug := "acme"; org_deleted_at := None |};
         {| org_id := globex; org_name := "Globex"; org_slug := "globex";
            org_deleted_at := None |} ];
     users :=
       [ {| u_id := mia; u_organization_id := acme; u_email := "mia@acme.test";
            u_first_name := "Mia"; u_last_name := "Moss"; u_role := "manager";
            u_is_active := true; u_deleted_at := None |};
         {| u_id := gus; u_organization_id := globex; u_email := "gus@globex.test";
            u_first_name := "Gus"; u_last_name := "Gray"; u_role := "admin";
            u_is_active := true; u_deleted_at := None |} ];
     projects :=
       [ {| p_id := website; p_organization_id := acme; p_name := "Website";
            p_is_active := true; p_deleted_at := None |};
         {| p_id := reactor; p_organization_id := globex; p_name := "Reactor";
            p_is_active := true; p_deleted_at := None |} ];
     tasks :=
       [ {| t_id := design; t_organization_id := acme; t_project_id := website;
            t_name := "Design"; t_is_active := true; t_deleted_at := None |};
         {| t_id := welding; t_organization_id := globex; t_project_id := reactor;
            t_name := "Welding"; t_is_active := true; t_deleted_at := None |} ];
     time_logs := [row_a; row_b; row_c; row_g];
     screenshots :=
       [ {| s_id := shot_g; s_organization_id := globex; s_user_id := gus;
            s_time_log_id := Some log_g; s_s3_key := "screenshots/globex/1.png";
            s_s3_url := "https://bucket.test/screenshots/globex/1.png";
            s_file_size := Some 2048%Z; s_mime_type := Some "image/png";
            s_captured_at := 1500; s_created_at := 1600; s_deleted_at := None |} ];
     web_logs := [] |}.

Definition manager : Actor :=
  {| id := mia; organizationId := acme; email := "mia@acme.test";
     firstName := "Mia"; lastName := "Moss"; role := "manager" |}.

Definition conn (b : backend) : Conn :=
  {| conn_backend := b; conn_online := true; NODE_ENV := Some "production";
     CURRENT_TIMESTAMP := 5000; uuid_generate_v4 := "00000000-0000-4000-8000-0000000000e9";
     getSignedUrl := fun key => ("https://signed.test/" ++ key)%string |}.


Definition single (log_id act : string) : Timesheets.ApproveReq :=
  {| Timesheets.user := manager; Timesheets.timeLogId := Some log_id;
     Timesheets.action := Some act; Timesheets.notes := None |}.

Definition bulk (ids : list string) (act : string) : Timesheets.BulkReq :=
  {| Timesheets.b_user := manager; Timesheets.timeLogIds := Some ids;
     Timesheets.b_action := Some act; Timesheets.b_notes := None |}.

(** A creation request (start and end as instants, duration in ms). *)
Definition creation (project task : string) (start_ end_ ms : Z) : TimeLogs.CreateReq :=
  {| TimeLogs.user := manager; TimeLogs.projectId := Some project;
     TimeLogs.taskId := Some task; TimeLogs.startTime := Some start_;
     TimeLogs.endTime := Some end_; TimeLogs.durationMs := Some ms;
     TimeLogs.durationHours := Some 1%Q; TimeLogs.pausedDurationMs := None;
     TimeLogs.activityScore := None; TimeLogs.description := None;
     TimeLogs.isBillable := None; TimeLogs.query_projectId := None;
     TimeLogs.query_taskId := None |}.

(** Visits the browser extension reported: two of today (the day runs
    from instant 0 to instant 999) and one of the day before. *)
Definition visit (i domain kind : string) (at_ : Z) : WebLog :=
  {| w_id := i; w_domain := domain; w_url := None; w_activity_type := kind;
     w_timestamp := at_; w_created_at := at_ |}.

Definition with_web_logs (db : Db) (logs : list WebLog) : Db :=
  {| organizations := organizations db; users := users db; projects := projects db;
     tasks := tasks db; time_logs := time_logs db; screenshots := screenshots db;
     web_logs := logs |}.

Definition db_today : Db :=
  with_web_logs db0
    [visit "1" "github.com" "Productive" 100; visit "2" "youtube.com" "Unproductive" 200].





(** A toy cipher: text is tagged, and the one number of the sample entry
    is tabled. *)
Definition toy_encrypt (v : EmbeddedSync.fval) : string :=
  match v with
  | EmbeddedSync.FText s => "t:" ++ s
  | EmbeddedSync.FNum q => "n:" ++ pretty (Qnum q) ++ "/" ++ pretty (Zpos (Qden q))
  | EmbeddedSync.FNull => "null"
  end.

Definition toy_decrypt (ciphertext : string) : option EmbeddedSync.fval :=
  match ciphertext with
  | String "t" (String ":" s) => Some (EmbeddedSync.FText s)
  | _ => if String.eqb ciphertext "n:175/2"
         then Some (EmbeddedSync.FNum (175 # 2)) else None
  end.

(** The entry of a working day for project ["P1"], with activity score
    87.5. *)
Definition entry : EmbeddedSync.row :=
  list_to_map
    [("organization_id", EmbeddedSync.FText acme); ("user_id", EmbeddedSync.FText mia);
     ("project_id", EmbeddedSync.FText "P1"); ("task_id", EmbeddedSync.FText design);
     ("start_time", EmbeddedSync.FText "2024-01-01T09:00:00Z");
     ("end_time", EmbeddedSync.FText "2024-01-01T17:00:00Z");
     ("duration_ms", EmbeddedSync.FNum 28800000); ("duration_hours", EmbeddedSync.FNum 8);
     ("activity_score", EmbeddedSync.FNum (175 # 2))].

(** The row the embedded table holds for the entry written at
    [written_at], in a store where a project carries the ciphertext of
    ["P1"] as its id (the engine accepts the row nowhere else). *)
Definition written_at : string := "2024-01-02T08:00:00Z".

Definition stored_entry : EmbeddedSync.row :=
  EmbeddedSync.encryptFields toy_encrypt entry EmbeddedSync.fieldsToEncrypt
  ∪ EmbeddedSync.column_defaults written_at.

Definition all_pending : EmbeddedSync.options :=
  {| EmbeddedSync.organizationId := None; EmbeddedSync.limit := None;
     EmbeddedSync.offset := None |}.

End Sample.

(** ** Answers of the routes that follow, and handlers that catch *)

Module Reply.
Import Store Http.

(** The body of a JSON answer besides [success] and [message]: nothing,
    the [errors] array of the validators, or a [data] object. *)
Inductive content (P : Type) : Type :=
| Nothing
| Errors
| Data (p : P).
Arguments Nothing {P}.
Arguments Errors {P}.
Arguments Data {P} p.

Record answer (P : Type) : Type := {
  a_code : nat;
  a_success : bool;
  a_message : option string;
  a_data : content P;
  a_error : option string }.
Arguments a_code {P} a.
Arguments a_success {P} a.
Arguments a_message {P} a.
Arguments a_data {P} a.
Arguments a_error {P} a.

Definition refuse {P} (code_ : nat) (msg : string) : answer P :=
  {| a_code := code_; a_success := false; a_message := Some msg; a_data := Nothing;
     a_error := None |}.

(** [res.status(400).json({ success: false, message: 'Validation failed',
     errors: errors.array() })] *)
Definition invalid_request {P} : answer P :=
  {| a_code := 400; a_success := false; a_message := Some "Validation failed";
     a_data := Errors; a_error := None |}.

(** [res.status(500).json({ success: false, message, error: .. })] with the
    error text shown in development only. *)
Definition failure {P} (c : Conn) (msg e : string) : answer P :=
  {| a_code := 500; a_success := false; a_message := Some msg; a_data := Nothing;
     a_error := error_detail c e |}.

(** [try { .. } catch (error) { .. }] around a handler body. *)
Definition catch {R} (body : M R) (handler : string -> R) (db : Db) : R * Db :=
  match body db with
  | Ok r db' => (r, db')
  | Raise e db' => (handler e, db')
  end.

End Reply.

(** ** [POST /api/activity/url] ([routes/activity.js]) *)

Module Activity.
Import Store Http Reply.

Definition MEETING_DOMAINS : list string :=
  ["zoom.us"; "meet.google.com"; "teams.microsoft.com"].

Definition UNPRODUCTIVE_DOMAINS : list string :=
  ["youtube.com"; "facebook.com"; "instagram.com"].

(** [toLowerCase()], on the letters of ASCII: other letters stay as they
    are, so this is [toLowerCase()] on texts of ASCII characters only (see
    [ascii_only]). *)
Definition lower_char (c : ascii) : ascii :=
  let n := nat_of_ascii c in
  if ((65 <=? n) && (n <=? 90))%nat then ascii_of_nat (n + 32) else c.

Fixpoint toLowerCase (s : string) : string :=
  match s with
  | EmptyString => EmptyString
  | String c tl => String (lower_char c) (toLowerCase tl)
  end.

(** [s.includes(part)] *)
Fixpoint includes (s part : string) : bool :=
  String.prefix part s
  || match s with
     | String _ tl => includes tl part
     | EmptyString => false
     end.

(** A string of ASCII characters, on which [toLowerCase] and [trim] are
    the functions above. *)
Definition ascii_only (s : string) : Prop :=
  Forall (fun c => (nat_of_ascii c < 128)%nat) (list_ascii_of_string s).

(** [classifyActivity(domain)] *)
Definition classifyActivity (domain : string) : string :=
  if String.eqb domain "" then "Productive"
  else
    let normalizedDomain := trim (toLowerCase domain) in
    if existsb (fun meetingDomain => includes normalizedDomain meetingDomain) MEETING_DOMAINS
    then "Meeting"
    else if existsb (fun unproductiveDomain => String.eqb normalizedDomain unproductiveDomain)
                    UNPRODUCTIVE_DOMAINS
    then "Unproductive"
    else "Productive".

(** The JSON body. [domain] is [None] when it is missing or not a string.
    [timestamp] is the number the body gives, as the extension sends it
    ([Date.now()]), and [None] when it is missing or has no integer
    value; a body that gives it as text is not covered. [url] is [None]
    when it is missing. *)
Record UrlReq : Type := {
  domain : option string;
  timestamp : option Z;
  url : option jsval }.

(** [body('url').optional().isString()] *)
Definition url_ok (u : option jsval) : bool :=
  match u with
  | None | Some (JStr _) => true
  | Some _ => false
  end.

(** [body('domain').isString().trim().notEmpty()],
    [body('timestamp').isInt({ min: 0 })] (a number of 22 digits or more
    prints in exponent form and is no integer to the validator),
    [body('url').optional().isString().trim()]. *)
Definition validators (req : UrlReq) : bool :=
  match domain req, timestamp req with
  | Some d, Some t =>
      negb (String.eqb (trim d) "") && (0 <=? t)%Z && (t <? 10 ^ 21)%Z && url_ok (url req)
  | _, _ => false
  end.

(** The largest instant a [Date] holds: [new Date(t)] is an invalid date
    beyond it, and [toISOString()] throws on an invalid date. *)
Definition MAX_TIME : Z := 8640000000000000.

(** What the route answers with. *)
Record Logged : Type := {
  l_id : string;
  l_domain : string;
  l_activityType : string;
  l_timestamp : Z }.

Definition set_web_logs (db : Db) (l : list WebLog) : Db :=
  {| organizations := organizations db; users := users db;
     projects := projects db; tasks := tasks db; time_logs := time_logs db;
     screenshots := screenshots db; web_logs := l |}.

(** [execute(text, params)] of the embedded store on a text written with
    question marks: the parameters are bound in order. *)
Definition execute {A} (c : Conn) (statement : list jsval -> Db -> outcome A)
    (params : list jsval) (db : Db) : outcome A :=
  if conn_online c then statement params db else Raise "connection terminated" db.

(** [INSERT INTO web_logs (id, domain, url, activity_type, timestamp,
     created_at) VALUES (?, ?, ?, ?, ?, ?)] on the embedded schema, where
    [id TEXT PRIMARY KEY] admits no second row with the same id. *)
Definition insert_web_log_embedded (vs : list jsval) (db : Db) : outcome unit :=
  match vs with
  | [JStr i; JStr d; JStr u; JStr a; JTime t; JTime created] =>
      if existsb (fun w => String.eqb (w_id w) i) (web_logs db)
      then Raise "UNIQUE constraint failed: web_logs.id" db
      else Ok tt (set_web_logs db
                    (web_logs db ++ [{| w_id := i; w_domain := d; w_url := Some u;
                                        w_activity_type := a; w_timestamp := t;
                                        w_created_at := created |}])%list)
  | _ => Raise "datatype mismatch" db
  end.

(** [INSERT INTO web_logs (domain, url, activity_type, timestamp,
     created_at) VALUES ($1, $2, $3, $4, $5) RETURNING id, domain,
     activity_type, timestamp] on the server schema: [id UUID PRIMARY KEY
     DEFAULT uuid_generate_v4()], [domain VARCHAR(255)], [activity_type
     VARCHAR(50)], [timestamp TIMESTAMP WITH TIME ZONE]. *)
Definition insert_web_log : Stmt (list WebLog) :=
  {| holes := seq 1 5;
     run := fun c vs db =>
       match vs with
       | [JStr d; JStr u; JStr a; JTime t; JTime created] =>
           let row := {| w_id := uuid_generate_v4 c; w_domain := d; w_url := Some u;
                         w_activity_type := a; w_timestamp := t;
                         w_created_at := created |} in
           if (String.length d <=? 255)%nat && (String.length a <=? 50)%nat
              && negb (existsb (fun w => String.eqb (w_id w) (uuid_generate_v4 c))
                               (web_logs db))
           then Ok [row] (set_web_logs db (web_logs db ++ [row])%list)
           else Raise "violates a constraint of web_logs" db
       | _ => Raise "invalid input syntax" db
       end |}.

(** [new Date(timestamp)] as a query parameter. *)
Definition date_param (t : Z) : jsval :=
  if (t <=? MAX_TIME)%Z then JTime t else JStr "Invalid Date".

(** The handler; [now] is the reading [Date.now()] gives for the id and
    [created] the one [new Date()] gives for [created_at]. *)
Definition post_url (c : Conn) (now created : Z) (req : UrlReq)
    : Db -> answer Logged * Db :=
  match domain req, timestamp req with
  | Some d, Some t =>
      if validators req then
        let domain_ := trim d in
        let url_ := match url req with
                    | Some (JStr u) => if String.eqb (trim u) "" then "https://" ++ domain_
                                       else trim u
                    | _ => "https://" ++ domain_
                    end in
        let activityType := classifyActivity domain_ in
        catch
          (match conn_backend c with
           | EmbeddedStore =>
               if (MAX_TIME <? t)%Z then throw "Invalid time value"
               else
                 _ ← execute c insert_web_log_embedded
                       [JStr (pretty now); JStr domain_; JStr url_; JStr activityType;
                        JTime t; JTime created];
                 mret {| a_code := 200; a_success := true;
                         a_message := Some "URL activity logged";
                         a_data := Data {| l_id := pretty now; l_domain := domain_;
                                           l_activityType := activityType;
                                           l_timestamp := t |};
                         a_error := None |}
           | ServerStore =>
               result ← query c insert_web_log
                          [JStr domain_; JStr url_; JStr activityType; date_param t;
                           JTime created];
               match result with
               | row :: _ =>
                   mret {| a_code := 200; a_success := true;
                           a_message := Some "URL activity logged";
                           a_data := Data {| l_id := w_id row; l_domain := w_domain row;
                                             l_activityType := w_activity_type row;
                                             l_timestamp := w_timestamp row |};
                           a_error := None |}
               | [] => throw "Cannot read properties of undefined (reading 'id')"
               end
           end)
          (failure c "Failed to log URL activity")
      else fun db => (invalid_request, db)
  | _, _ => fun db => (invalid_request, db)
  end.



End Activity.

(** ** [authenticate] ([middleware/auth.js]) and the guarded routes *)

Module Authn.
Import Store Http.

(** What [jwt.verify(token, process.env.JWT_SECRET)] does with a token: it
    returns the payload, whose [userId] is a string or null in the tokens
    this server signs, or it throws an error with a name. *)
Inductive verified : Type :=
| Decoded (userId : option string)
| Thrown (name : string).

(** [SELECT id, organization_id, email, first_name, last_name, role,
     is_active, deleted_at FROM users WHERE id = $1 AND deleted_at IS NULL] *)
Definition select_user : Stmt (list User) :=
  {| holes := [1%nat];
     run := fun _ vs db =>
       match vs with
       | [p] =>
           Ok (List.filter (fun u => col_eq (Some (u_id u)) p && is_null (u_deleted_at u))
                 (users db)) db
       | _ => Raise "wrong number of bound parameters" db
       end |}.

(** A middleware answers itself or calls [next()] with the user it
    attached to the request. *)
Inductive step : Type :=
| Answer (r : response)
| Next (user : Actor).

(** The [catch] of [authenticate]. *)
Definition authentication_error (name : string) : response :=
  if String.eqb name "JsonWebTokenError" then fail_with 401 "Invalid token"
  else if String.eqb name "TokenExpiredError" then fail_with 401 "Token has expired"
  else fail_with 500 "Authentication failed".

(** [authenticate(req, res, next)]: [authorization] is
    [req.headers.authorization]. *)
Definition authenticate (verify : string -> verified) (c : Conn)
    (authorization : option string) (db : Db) : step :=
  match authorization with
  | Some authHeader =>
      if String.prefix "Bearer " authHeader then
        let token := String.substring 7 (String.length authHeader - 7) authHeader in
        match verify token with
        | Decoded userId =>
            match query c select_user [Timesheets.js_of_id userId] db with
            | Ok [] _ => Answer (fail_with 401 "User not found or has been deleted")
            | Ok (user :: _) _ =>
                if negb (u_is_active user)
                then Answer (fail_with 401 "User account is inactive")
                else Next {| id := u_id user; organizationId := u_organization_id user;
                             email := u_email user; firstName := u_first_name user;
                             lastName := u_last_name user; role := u_role user |}
            | Raise _ _ => Answer (authentication_error "Error")
            end
        | Thrown name => Answer (authentication_error name)
        end
      else Answer (fail_with 401
                     "No token provided. Authorization header must be: Bearer <token>")
  | None => Answer (fail_with 401
                      "No token provided. Authorization header must be: Bearer <token>")
  end.

(** The body of [PUT /approve] and of [PUT /bulk-approve]. *)
Record ApproveBody : Type := {
  timeLogId : option string;
  action : option string;
  notes : option string }.

Record BulkBody : Type := {
  timeLogIds : option (list string);
  b_action : option string;
  b_notes : option string }.

(** [router.put('/approve', authenticate, enforceOrganizationAccess,
     authorize(['admin', 'manager']), [..], handler)] *)
Definition put_approve (verify : string -> verified) (c : Conn)
    (authorization : option string) (body : ApproveBody) (db : Db) : response * Db :=
  match authenticate verify c authorization db with
  | Answer r => (r, db)
  | Next user =>
      match Auth.timesheet_guard user with
      | Some r => (r, db)
      | None =>
          Timesheets.approve c
            {| Timesheets.user := user; Timesheets.timeLogId := timeLogId body;
               Timesheets.action := action body; Timesheets.notes := notes body |} db
      end
  end.

(** [router.put('/bulk-approve', authenticate, enforceOrganizationAccess,
     authorize(['admin', 'manager']), [..], handler)] *)
Definition put_bulk_approve (verify : string -> verified) (c : Conn)
    (authorization : option string) (body : BulkBody) (db : Db) : response * Db :=
  match authenticate verify c authorization db with
  | Answer r => (r, db)
  | Next user =>
      match Auth.timesheet_guard user with
      | Some r => (r, db)
      | None =>
          Timesheets.bulk_approve c
            {| Timesheets.b_user := user; Timesheets.timeLogIds := timeLogIds body;
               Timesheets.b_action := b_action body; Timesheets.b_notes := b_notes body |} db
      end
  end.

(** The body of [POST /time]. *)
Record TimeBody : Type := {
  projectId : option string;
  taskId : option string;
  startTime : option Z;
  endTime : option Z;
  durationMs : option Z;
  durationHours : option Q;
  pausedDurationMs : option Z;
  activityScore : option Q;
  description : option string;
  isBillable : option bool;
  query_projectId : option string;
  query_taskId : option string }.

(** [router.post('/time', authenticate, enforceOrganizationAccess,
     validateProject, validateTask, [..], handler)] *)
Definition post_time_route (verify : string -> verified) (c : Conn)
    (authorization : option string) (body : TimeBody) (db : Db) : response * Db :=
  match authenticate verify c authorization db with
  | Answer r => (r, db)
  | Next user =>
      match Auth.enforceOrganizationAccess (Some user) with
      | Some r => (r, db)
      | None =>
          TimeLogs.post_time c
            {| TimeLogs.user := user; TimeLogs.projectId := projectId body;
               TimeLogs.taskId := taskId body; TimeLogs.startTime := startTime body;
               TimeLogs.endTime := endTime body; TimeLogs.durationMs := durationMs body;
               TimeLogs.durationHours := durationHours body;
               TimeLogs.pausedDurationMs := pausedDurationMs body;
               TimeLogs.activityScore := activityScore body;
               TimeLogs.description := description body;
               TimeLogs.isBillable := isBillable body;
               TimeLogs.query_projectId := query_projectId body;
               TimeLogs.query_taskId := query_taskId body |} db
      end
  end.

End Authn.

(** ** [generateEncryptionKey] ([config/crypto-config.js]) *)

Module KeyGen.
Import CryptoConfig.
Local Open Scope Z_scope.

(** [buffer.toString('hex')]: two lower-case digits for every byte. *)
Definition hex_char (n : Z) : ascii :=
  nth (Z.to_nat n) (list_ascii_of_string "0123456789abcdef") "0"%char.

Fixpoint to_hex (bytes : list Z) : string :=
  match bytes with
  | [] => EmptyString
  | b :: tl => String (hex_char (b / 16)) (String (hex_char (b mod 16)) (to_hex tl))
  end.

(** [generateEncryptionKey()]; [randomBytes] is [crypto.randomBytes]. *)
Definition generateEncryptionKey (randomBytes : nat -> list Z) : string :=
  to_hex (randomBytes 32%nat).

End KeyGen.

(** ** The statement texts the listing routes build *)

Module Listing.
Import Adapter Timesheets.

(** A text under construction: [queryText], [queryParams] and
    [paramIndex]. *)
Record builder : Type := {
  queryText : string;
  queryParams : list jsval;
  paramIndex : nat }.

(** [if (value) { queryText += ` AND column >= $${paramIndex}`;
     queryParams.push(value); paramIndex++; }] *)
Definition add_filter (clause : string) (value : option string) (b : builder) : builder :=
  match value with
  | Some v =>
      if truthy (Some v)
      then {| queryText := queryText b ++ clause ++ dollar (paramIndex b);
              queryParams := (queryParams b ++ [JStr v])%list;
              paramIndex := S (paramIndex b) |}
      else b
  | None => b
  end.

(** [queryText += ` ORDER BY .. LIMIT $${paramIndex} OFFSET $${paramIndex + 1}`;
     queryParams.push(parseInt(limit), parseInt(offset));] where [limit]
    and [offset] stand for what [parseInt] gave. *)
Definition add_page (order : string) (limit offset : jsval) (b : builder) : builder :=
  {| queryText := queryText b ++ order ++ dollar (paramIndex b) ++ " OFFSET "
                  ++ dollar (paramIndex b + 1);
     queryParams := (queryParams b ++ [limit; offset])%list;
     paramIndex := paramIndex b |}.

(** The query string of a listing request. *)
Record Filters : Type := {
  startDate : option string;
  endDate : option string;
  projectId : option string;
  taskId : option string;
  status : option string;
  timeLogId : option string;
  userId : option string;
  wellnessType : option string }.

(** [GET /api/log/time] *)
Definition time_logs_query (organizationId user_id : string) (q : Filters)
    (limit offset : jsval) : builder :=
  add_page " ORDER BY tl.start_time DESC LIMIT " limit offset
    (add_filter " AND tl.status = " (status q)
       (add_filter " AND tl.task_id = " (taskId q)
          (add_filter " AND tl.project_id = " (projectId q)
             (add_filter " AND tl.end_time <= " (endDate q)
                (add_filter " AND tl.start_time >= " (startDate q)
                   {| queryText := "
        SELECT 
          tl.id, tl.start_time, tl.end_time, tl.duration_ms, tl.duration_hours,
          tl.paused_duration_ms, tl.activity_score, tl.description, tl.is_billable,
          tl.status, tl.created_at,
          p.id as project_id, p.name as project_name,
          t.id as task_id, t.name as task_name
        FROM time_logs tl
        JOIN projects p ON tl.project_id = p.id
        JOIN tasks t ON tl.task_id = t.id
        WHERE tl.organization_id = $1
          AND tl.user_id = $2
          AND tl.deleted_at IS NULL
      ";
                      queryParams := [JStr organizationId; JStr user_id];
                      paramIndex := 3 |}))))).

(** [GET /api/log/screenshots] *)
Definition screenshots_query (organizationId user_id : string) (q : Filters)
    (limit offset : jsval) : builder :=
  add_page " ORDER BY captured_at DESC LIMIT " limit offset
    (add_filter " AND time_log_id = " (timeLogId q)
       (add_filter " AND captured_at <= " (endDate q)
          (add_filter " AND captured_at >= " (startDate q)
             {| queryText := "
        SELECT id, s3_key, s3_url, file_size, mime_type, captured_at, created_at
        FROM screenshots
        WHERE organization_id = $1 AND user_id = $2 AND deleted_at IS NULL
      ";
                queryParams := [JStr organizationId; JStr user_id];
                paramIndex := 3 |}))).

(** [GET /api/timesheets/pending] *)
Definition pending_query (organizationId : string) (q : Filters)
    (limit offset : jsval) : builder :=
  add_page " ORDER BY tl.created_at DESC LIMIT " limit offset
    (add_filter " AND tl.user_id = " (userId q)
       {| queryText := "
        SELECT 
          tl.id,
          tl.start_time,
          tl.end_time,
          tl.duration_hours,
          tl.activity_score,
          tl.description,
          tl.is_billable,
          tl.status,
          tl.created_at,
          u.id as user_id,
          u.first_name,
          u.last_name,
          u.email,
          p.id as project_id,
          p.name as project_name,
          t.id as task_id,
          t.name as task_name
        FROM time_logs tl
        JOIN users u ON tl.user_id = u.id
        JOIN projects p ON tl.project_id = p.id
        JOIN tasks t ON tl.task_id = t.id
        WHERE tl.organization_id = $1
          AND tl.status = 'pending'
          AND tl.deleted_at IS NULL
          AND u.deleted_at IS NULL
      ";
          queryParams := [JStr organizationId];
          paramIndex := 2 |}).

(** [GET /api/report/wellness] *)
Definition wellness_query (organizationId user_id : string) (q : Filters)
    (limit offset : jsval) : builder :=
  add_page " ORDER BY acknowledged_at DESC LIMIT " limit offset
    (add_filter " AND wellness_type = " (wellnessType q)
       (add_filter " AND acknowledged_at <= " (endDate q)
          (add_filter " AND acknowledged_at >= " (startDate q)
             {| queryText := "
        SELECT id, wellness_type, acknowledged_at, reminder_sent_at,
               wellness_score, notes, created_at
        FROM wellness_logs
        WHERE organization_id = $1 AND user_id = $2
      ";
                queryParams := [JStr organizationId; JStr user_id];
                paramIndex := 3 |}))).

(** A piece of text with no placeholder and no question mark in it, which
    does not start with a digit. *)
Definition plain (s : string) : bool :=
  negb (starts_with_digit s)
  && forallb (fun t => match t with
                       | Chr c => negb (Ascii.eqb c "?")
                       | Ph _ => false
                       end) (tokens s).

(** A text with no question mark outside its placeholders. *)
Definition no_qmark (s : string) : bool :=
  forallb (fun t => match t with
                    | Chr c => negb (Ascii.eqb c "?")
                    | Ph _ => true
                    end) (tokens s).

(** The placeholders of the text are [$1 .. $n] in order of appearance,
    one for each parameter, the next number is [n + 1], and the text
    holds no question mark. *)
Definition in_order (b : builder) : Prop :=
  holes_of (queryText b) = seq 1 (length (queryParams b))
  /\ paramIndex b = S (length (queryParams b))
  /\ forall c, Chr c ∈ tokens (queryText b) -> c <> "?"%char.

End Listing.

(** ** More sample data: staff who left, tokens, reports of the extension *)

Module Cases.
Import Store Http Sample.

Definition ned : string := "00000000-0000-4000-8000-0000000000b3".
Definition old : string := "00000000-0000-4000-8000-0000000000b4".
Definition shot_n : string := "00000000-0000-4000-8000-0000000000f2".

(** Ned's account is switched off; Old's is deleted. *)
Definition ned_row : User :=
  {| u_id := ned; u_organization_id := acme; u_email := "ned@acme.test";
     u_first_name := "Ned"; u_last_name := "Nash"; u_role := "employee";
     u_is_active := false; u_deleted_at := None |}.

Definition old_row : User :=
  {| u_id := old; u_organization_id := acme; u_email := "old@acme.test";
     u_first_name := "Old"; u_last_name := "Oak"; u_role := "admin";
     u_is_active := true; u_deleted_at := Some 4000%Z |}.

(** A screenshot of Acme that Ned captured. *)
Definition ned_shot : Screenshot :=
  {| s_id := shot_n; s_organization_id := acme; s_user_id := ned;
     s_time_log_id := None; s_s3_key := "screenshots/acme/7.png";
     s_s3_url := "https://bucket.test/screenshots/acme/7.png";
     s_file_size := Some 4096%Z; s_mime_type := Some "image/png";
     s_captured_at := 1700; s_created_at := 1800; s_deleted_at := None |}.

Definition db_staff : Db :=
  {| organizations := organizations db0;
     users := (users db0 ++ [ned_row; old_row])%list;
     projects := projects db0; tasks := tasks db0; time_logs := time_logs db0;
     screenshots := (screenshots db0 ++ [ned_shot])%list;
     web_logs := web_logs db0 |}.

(** A verifier that knows three tokens. *)
Definition verify (token : string) : Authn.verified :=
  if String.eqb token "token-of-mia" then Authn.Decoded (Some mia)
  else if String.eqb token "token-of-ned" then Authn.Decoded (Some ned)
  else if String.eqb token "token-of-old" then Authn.Decoded (Some old)
  else Authn.Thrown "JsonWebTokenError".

(** What the extension reports for a visit. *)
Definition report (d : string) (t : Z) : Activity.UrlReq :=
  {| Activity.domain := Some d; Activity.timestamp := Some t; Activity.url := None |}.

(** An hour of design work on the website. *)
Definition hour_of_design : Authn.TimeBody :=
  {| Authn.projectId := Some website; Authn.taskId := Some design;
     Authn.startTime := Some 1000%Z; Authn.endTime := Some 2000%Z;
     Authn.durationMs := Some 1000%Z; Authn.durationHours := Some 1%Q;
     Authn.pausedDurationMs := None; Authn.activityScore := None;
     Authn.description := None; Authn.isBillable := None;
     Authn.query_projectId := None; Authn.query_taskId := None |}.

(** A source of bytes that counts up from zero. *)
Definition counting_bytes (n : nat) : list Z := Z.of_nat <$> seq 0 n.

(** The reader's options with a limit. *)
Definition at_most (n : Z) : EmbeddedSync.options :=
  {| EmbeddedSync.organizationId := None; EmbeddedSync.limit := Some n;
     EmbeddedSync.offset := None |}.

Definition project_check : string :=
  "SELECT id FROM projects WHERE id = $1 AND organization_id = $2 AND deleted_at IS NULL".

(** The body of a single and of a bulk approval. *)
Definition approval_of (log_id act : string) : Authn.ApproveBody :=
  {| Authn.timeLogId := Some log_id; Authn.action := Some act; Authn.notes := None |}.

Definition batch_of (ids : list string) (act : string) : Authn.BulkBody :=
  {| Authn.timeLogIds := Some ids; Authn.b_action := Some act; Authn.b_notes := None |}.

(** An embedded store that holds the organization, the user, the project
    and the task the sample entry names. *)
Definition shelf : EmbeddedSync.parents :=
  {| EmbeddedSync.organization_ids := [acme]; EmbeddedSync.user_ids := [mia];
     EmbeddedSync.project_ids := ["P1"]; EmbeddedSync.task_ids := [design] |}.

End Cases.

(** * Part II: the properties *)

Local Open Scope list_scope.

Ltac untouched H := left; cbn beta iota in H; inversion H; subst; split; reflexivity.

Section StoreFacts.
Import Store Http.

Lemma col_eq_JStr (col : option string) (s : string) :
  col_eq col (JStr s) = true <-> col = Some s.
Proof.
  destruct col as [a|]; simpl.
  - rewrite String.eqb_eq. split; congruence.
  - split; discriminate.
Qed.

Lemma is_null_true {A} (o : option A) : is_null o = true <-> o = None.
Proof. destruct o; simpl; split; congruence. Qed.

(** With a key that is unique among the rows, a selection by key finds at
    most the row that carries it. *)
Lemma filter_unique_key {A} (key : A -> option string) (P : A -> bool)
    (l : list A) (x : A) (s : string) :
  NoDup (omap key l) -> In x l -> key x = Some s ->
  List.filter (fun y => col_eq (key y) (JStr s) && P y) l = if P x then [x] else [].
Proof.
  induction l as [|y l IH]; intros Hnd Hin Hkey; [destruct Hin|].
  assert (Hnone : forall z, In z l -> key z = Some s ->
            ~ (s ∈ omap key l) -> False).
  { intros z Hz Hk Hn. apply Hn. apply list_elem_of_omap. exists z.
    split; [by apply list_elem_of_In|done]. }
  simpl in Hnd. destruct Hin as [->|Hin].
  - rewrite Hkey in Hnd. apply NoDup_cons in Hnd as [Hnotin Hnd].
    simpl. rewrite Hkey. rewrite (proj2 (col_eq_JStr _ _) eq_refl). simpl.
    assert (Hrest : List.filter (fun y => col_eq (key y) (JStr s) && P y) l = []).
    { clear -Hnotin Hnone. induction l as [|z l IH]; [done|]. simpl.
      destruct (col_eq (key z) (JStr s)) eqn:E.
      - exfalso. apply col_eq_JStr in E. apply (Hnone z); [by left|done|done].
      - simpl. apply IH.
        + intros Hs. apply Hnotin. simpl. destruct (key z); [by right|done].
        + intros w Hw Hk Hn. apply (Hnone w); [by right|done|done]. }
    rewrite Hrest. by destruct (P x).
  - simpl. destruct (col_eq (key y) (JStr s)) eqn:E.
    + exfalso. apply col_eq_JStr in E. rewrite E in Hnd.
      apply NoDup_cons in Hnd as [Hnotin _]. by apply (Hnone x).
    + simpl. apply IH; [|done|done].
      destruct (key y); [by apply NoDup_cons in Hnd as [_ ?]|done].
Qed.

Lemma query_holes1 {A} (c : Conn) (s : Stmt A) (p : jsval) (db : Db) :
  conn_online c = true -> holes s = [1%nat] -> query c s [p] db = run s c [p] db.
Proof. intros Hon Hh. unfold query. rewrite Hon, Hh. by destruct (conn_backend c). Qed.

Lemma query_holes2 {A} (c : Conn) (s : Stmt A) (p q : jsval) (db : Db) :
  conn_online c = true -> holes s = [1%nat; 2%nat] ->
  query c s [p; q] db = run s c [p; q] db.
Proof. intros Hon Hh. unfold query. rewrite Hon, Hh. by destruct (conn_backend c). Qed.

Lemma query_holes3 {A} (c : Conn) (s : Stmt A) (p q r : jsval) (db : Db) :
  conn_online c = true -> holes s = [1%nat; 2%nat; 3%nat] ->
  query c s [p; q; r] db = run s c [p; q; r] db.
Proof. intros Hon Hh. unfold query. rewrite Hon, Hh. by destruct (conn_backend c). Qed.

Lemma query_offline {A} (c : Conn) (s : Stmt A) (ps : list jsval) (db : Db) :
  conn_online c = false -> query c s ps db = Raise "connection terminated" db.
Proof. intros Hoff. unfold query. by rewrite Hoff. Qed.


Lemma filter_unique_row {A} (key : A -> option string) (Q P : A -> bool)
    (l : list A) (x : A) (s : string) :
  (forall y, Q y = col_eq (key y) (JStr s) && P y) ->
  NoDup (omap key l) -> x ∈ l -> key x = Some s ->
  List.filter Q l = if P x then [x] else [].
Proof.
  intros HQ Hnd Hin Hkey. rewrite (List.filter_ext _ _ HQ).
  apply filter_unique_key; [done| by apply list_elem_of_In |done].
Qed.

Lemma filter_none {A} (P : A -> bool) (l : list A) :
  (forall x, x ∈ l -> P x = false) -> List.filter P l = [].
Proof.
  induction l as [|y l IH]; intros H; [done|]. simpl.
  rewrite (H y) by left. apply IH. intros x Hx. apply H. by right.
Qed.

Lemma omap_total {A B} (f : A -> B) (l : list A) :
  omap (fun x => Some (f x)) l = f <$> l.
Proof. induction l as [|x l IH]; [done|]. csimpl. by f_equal. Qed.

Lemma omap_some_fmap {A B C} (f : A -> B) (g : B -> option C) (h : A -> C) (l : list A) :
  (forall x, g (f x) = Some (h x)) -> omap g (f <$> l) = h <$> l.
Proof. intros H. induction l as [|x l IH]; [done|]. csimpl. rewrite H. simpl. by f_equal. Qed.

End StoreFacts.


Section TenantFacts.
Import Store Http Tenant.


Lemma guard_absent c user resourceId resourceTable db rows :
  conn_online c = true ->
  tenant_rows resourceTable db = Some rows ->
  (forall r, r ∈ rows -> o_id r = Some resourceId -> o_deleted_at r <> None) ->
  validateOrganizationResource c user resourceId resourceTable db = invalid "Resource not found".
Proof.
  intros Hon Htab Hnone. unfold validateOrganizationResource.
  rewrite query_holes1 by done. simpl. rewrite Htab.
  rewrite filter_none; [done|].
  intros x Hx. destruct (col_eq (o_id x) (JStr resourceId)) eqn:E; [|done].
  apply col_eq_JStr in E. specialize (Hnone x Hx E).
  destruct (o_deleted_at x); [done|congruence].
Qed.

Lemma guard_found c user resourceId resourceTable db rows r :
  conn_online c = true ->
  tenant_rows resourceTable db = Some rows ->
  NoDup (omap o_id rows) ->
  r ∈ rows -> o_id r = Some resourceId -> o_deleted_at r = None ->
  validateOrganizationResource c user resourceId resourceTable db
  = if String.eqb (o_organization_id r) (organizationId user)
    then {| valid := true; vmessage := None |}
    else invalid "Resource does not belong to your organization".
Proof.
  intros Hon Htab Hnd Hr Hid Hlive. unfold validateOrganizationResource.
  rewrite query_holes1 by done. simpl. rewrite Htab.
  rewrite (filter_unique_row o_id _ (fun y => is_null (o_deleted_at y)) rows r resourceId)
    by done.
  rewrite Hlive. simpl.
  by destruct (String.eqb (o_organization_id r) (organizationId user)).
Qed.

(** A reference to a row of another organization never validates. *)
Lemma guard_foreign c user resourceId resourceTable db rows r :
  tenant_rows resourceTable db = Some rows ->
  NoDup (omap o_id rows) ->
  r ∈ rows -> o_id r = Some resourceId ->
  o_organization_id r <> organizationId user ->
  valid (validateOrganizationResource c user resourceId resourceTable db) = false.
Proof.
  intros Htab Hnd Hr Hid Horg.
  destruct (conn_online c) eqn:Hon.
  - destruct (o_deleted_at r) as [d|] eqn:Hdel.
    + rewrite (guard_absent c user resourceId resourceTable db rows); try done.
      intros r' Hr' Hid' Hlive.
      assert (r' = r) as ->; [|congruence].
      pose proof (filter_unique_row o_id (fun y => col_eq (o_id y) (JStr resourceId) && true)
                    (fun _ => true) rows r resourceId (fun _ => eq_refl) Hnd Hr Hid) as H1.
      pose proof (filter_unique_row o_id (fun y => col_eq (o_id y) (JStr resourceId) && true)
                    (fun _ => true) rows r' resourceId (fun _ => eq_refl) Hnd Hr' Hid') as H2.
      congruence.
    + rewrite (guard_found c user resourceId resourceTable db rows r) by done.
      destruct (String.eqb_spec (o_organization_id r) (organizationId user)); done.
  - unfold validateOrganizationResource. by rewrite query_offline.
Qed.


(** A middleware of the guard answers 403 or hands on, and hands on only
    when the reference is missing or validates. *)
Lemma validate_reference_403 c user table b p q db resp :
  validate_reference c user table b p q db = Some resp ->
  code resp = 403%nat /\ success resp = false.
Proof.
  unfold validate_reference. intros H.
  destruct (js_or b (js_or p q)) as [rid|]; [|done].
  destruct (negb (truthy (Some rid))); [done|].
  destruct (negb (valid _)); [|done]. by inversion H.
Qed.

Lemma validate_reference_foreign c user table rid q db rows r :
  rid <> "" ->
  tenant_rows table db = Some rows ->
  NoDup (omap o_id rows) ->
  r ∈ rows -> o_id r = Some rid ->
  o_organization_id r <> organizationId user ->
  exists resp, validate_reference c user table (Some rid) None q db = Some resp.
Proof.
  intros Hne Htab Hnd Hr Hid Horg. unfold validate_reference.
  assert (Ht : truthy (Some rid) = true).
  { simpl. by destruct (String.eqb_spec rid ""). }
  unfold js_or at 1. rewrite Ht. rewrite Ht. simpl negb.
  rewrite (guard_foreign c user rid table db rows r) by done. simpl. eauto.
Qed.

End TenantFacts.

Section IsolationFacts.
Import Store Http Tenant.

Lemma approve_foreign (c : Conn) (req : Timesheets.ApproveReq) (db : Db)
    (r : TimeLog) (log_id : string) :
  Timesheets.timeLogId req = Some log_id ->
  NoDup (omap tl_id (time_logs db)) ->
  r ∈ time_logs db -> tl_id r = Some log_id ->
  tl_organization_id r <> organizationId (Timesheets.user req) ->
  exists resp,
    Timesheets.approve c req db = (resp, db) /\ success resp = false
    /\ (conn_online c = true -> isUUID log_id = true ->
        (exists act, Timesheets.action req = Some act /\ Timesheets.is_action act = true) ->
        resp = fail_with 404 "Time log not found").
Proof.
  intros Hid Hnd Hr Hrid Horg. unfold Timesheets.approve. rewrite Hid.
  destruct (Timesheets.action req) as [act|] eqn:Hact.
  2:{ eexists. split; [done|]. split; [done|]. by intros _ _ (a & Ha & _). }
  destruct (isUUID log_id && Timesheets.is_action act) eqn:Hval.
  2:{ eexists. split; [done|]. split; [done|]. intros _ Hu (a & Ha & Hia).
      inversion Ha; subst. by rewrite Hu, Hia in Hval. }
  unfold try_catch, mbind, M_bind.
  destruct (conn_online c) eqn:Hon.
  - rewrite query_holes2 by done. simpl.
    rewrite (filter_unique_row tl_id _
               (fun y => col_eq (Some (tl_organization_id y))
                           (JStr (organizationId (Timesheets.user req)))
                         && is_null (tl_deleted_at y)) (time_logs db) r log_id);
      [| intros y; by rewrite andb_assoc | done..].
    destruct (col_eq (Some (tl_organization_id r)) _) eqn:E.
    { apply col_eq_JStr in E. congruence. }
    simpl. eauto.
  - rewrite query_offline by done. eexists. split; [done|]. split; [done|]. done.
Qed.

Lemma post_time_foreign_project (c : Conn) (req : TimeLogs.CreateReq) (db : Db) (p : Project) :
  TimeLogs.projectId req = Some (p_id p) -> p_id p <> "" ->
  NoDup (p_id <$> projects db) ->
  p ∈ projects db ->
  p_organization_id p <> organizationId (TimeLogs.user req) ->
  exists resp,
    TimeLogs.post_time c req db = (resp, db) /\ code resp = 403%nat /\ success resp = false.
Proof.
  intros Hpid Hne Hnd Hp Horg. unfold TimeLogs.post_time, validateProject.
  destruct (validate_reference_foreign c (TimeLogs.user req) "projects" (p_id p)
              (TimeLogs.query_projectId req) db (owned_of_project <$> projects db)
              (owned_of_project p)) as [resp Hresp]; try done.
  - by rewrite (omap_some_fmap _ _ p_id).
  - by apply list_elem_of_fmap_2.
  - rewrite Hpid, Hresp. exists resp. split; [done|].
    by apply validate_reference_403 in Hresp.
Qed.

Lemma post_time_foreign_task (c : Conn) (req : TimeLogs.CreateReq) (db : Db) (t : Task) :
  TimeLogs.taskId req = Some (t_id t) -> t_id t <> "" ->
  NoDup (t_id <$> tasks db) ->
  t ∈ tasks db ->
  t_organization_id t <> organizationId (TimeLogs.user req) ->
  exists resp,
    TimeLogs.post_time c req db = (resp, db) /\ code resp = 403%nat /\ success resp = false.
Proof.
  intros Htid Hne Hnd Ht Horg. unfold TimeLogs.post_time.
  destruct (validateProject _ _ _ _ _ _) as [resp|] eqn:Hproj.
  { exists resp. split; [done|]. by apply validate_reference_403 in Hproj. }
  unfold validateTask.
  destruct (validate_reference_foreign c (TimeLogs.user req) "tasks" (t_id t)
              (TimeLogs.query_taskId req) db (owned_of_task <$> tasks db)
              (owned_of_task t)) as [resp Hresp]; try done.
  - by rewrite (omap_some_fmap _ _ t_id).
  - by apply list_elem_of_fmap_2.
  - rewrite Htid, Hresp. exists resp. split; [done|].
    by apply validate_reference_403 in Hresp.
Qed.

Lemma get_screenshot_foreign (c : Conn) (user : Actor) (db : Db) (s : Screenshot) :
  NoDup (s_id <$> screenshots db) ->
  s ∈ screenshots db ->
  s_organization_id s <> organizationId user ->
  exists resp,
    Screenshots.get_screenshot c user (s_id s) db = (resp, db) /\ success resp = false
    /\ (conn_online c = true -> resp = fail_with 404 "Screenshot not found").
Proof.
  intros Hnd Hs Horg. unfold Screenshots.get_screenshot, try_catch, mbind, M_bind.
  destruct (conn_online c) eqn:Hon.
  - rewrite query_holes2 by done. simpl.
    rewrite (filter_unique_row (fun y => Some (s_id y)) _
               (fun y => col_eq (Some (s_organization_id y)) (JStr (organizationId user))
                         && is_null (s_deleted_at y)) (screenshots db) s (s_id s));
      [| intros y; by rewrite andb_assoc | | done | done].
    2:{ by rewrite omap_total. }
    destruct (col_eq (Some (s_organization_id s)) _) eqn:E.
    { apply col_eq_JStr in E. congruence. }
    simpl. eauto.
  - rewrite query_offline by done. eexists. split; [done|]. split; [done|]. done.
Qed.

(** C1. A reference to a row of another organization is refused and
    changes nothing, on either adapter: approving or rejecting a foreign
    time log answers 404, creating a time log against a foreign project or
    task answers 403, and fetching a foreign screenshot answers 404. *)
Theorem cross_organization_references_rejected (c : Conn) (actor : Actor) (db : Db) :
  (forall req r log_id,
      Timesheets.user req = actor ->
      Timesheets.timeLogId req = Some log_id ->
      NoDup (omap tl_id (time_logs db)) ->
      r ∈ time_logs db -> tl_id r = Some log_id ->
      tl_organization_id r <> organizationId actor ->
      exists resp,
        Timesheets.approve c req db = (resp, db) /\ success resp = false
        /\ (conn_online c = true -> isUUID log_id = true ->
            (exists act, Timesheets.action req = Some act
                         /\ Timesheets.is_action act = true) ->
            resp = fail_with 404 "Time log not found"))
  /\ (forall req p,
        TimeLogs.user req = actor ->
        TimeLogs.projectId req = Some (p_id p) -> p_id p <> "" ->
        NoDup (p_id <$> projects db) ->
        p ∈ projects db ->
        p_organization_id p <> organizationId actor ->
        exists resp,
          TimeLogs.post_time c req db = (resp, db)
          /\ code resp = 403%nat /\ success resp = false)
  /\ (forall req t,
        TimeLogs.user req = actor ->
        TimeLogs.taskId req = Some (t_id t) -> t_id t <> "" ->
        NoDup (t_id <$> tasks db) ->
        t ∈ tasks db ->
        t_organization_id t <> organizationId actor ->
        exists resp,
          TimeLogs.post_time c req db = (resp, db)
          /\ code resp = 403%nat /\ success resp = false)
  /\ (forall s,
        NoDup (s_id <$> screenshots db) ->
        s ∈ screenshots db ->
        s_organization_id s <> organizationId actor ->
        exists resp,
          Screenshots.get_screenshot c actor (s_id s) db = (resp, db)
          /\ success resp = false
          /\ (conn_online c = true -> resp = fail_with 404 "Screenshot not found")).
Proof.
  repeat split.
  - intros req r log_id <-. apply approve_foreign.
  - intros req p <-. apply post_time_foreign_project.
  - intros req t <-. apply post_time_foreign_task.
  - intros s. apply get_screenshot_foreign.
Qed.

End IsolationFacts.

Section BindingFacts.
Context {V : Type}.

Lemma mapM_id_Some (l : list V) : mapM id (Some <$> l) = Some l.
Proof.
  apply mapM_Some. induction l as [|x l IH]; [constructor|].
  csimpl. by constructor.
Qed.

Lemma lookup_seq_fmap (pre l suf : list V) :
  (fun i => (pre ++ l ++ suf) !! i) <$> seq (length pre) (length l) = Some <$> l.
Proof.
  revert pre. induction l as [|x l IH]; intros pre; [done|].
  simpl. rewrite list_lookup_middle by done. f_equal.
  specialize (IH (pre ++ [x])). rewrite <- app_assoc in IH. simpl in IH.
  rewrite length_app in IH. simpl in IH. by rewrite Nat.add_1_r in IH.
Qed.

Lemma param_at_seq_S (ps : list V) (a n : nat) :
  Adapter.param_at ps <$> seq (S a) n = (fun i => ps !! i) <$> seq a n.
Proof.
  rewrite <- (fmap_S_seq a n). rewrite <- list_fmap_compose. done.
Qed.

(** The embedded adapter hands the parameters over in the order given. *)
Lemma bind_embedded_positional (holes : list nat) (params : list V) :
  length holes = length params ->
  Adapter.bind EmbeddedStore holes params = Some params.
Proof.
  unfold Adapter.bind, Adapter.bind_embedded. intros Hlen.
  assert (Himap : imap (fun i (_ : nat) => params !! i) holes = Some <$> params).
  { apply list_eq. intros i. rewrite list_lookup_imap, list_lookup_fmap.
    destruct (holes !! i) as [h|] eqn:Hh; simpl.
    - destruct (params !! i) eqn:Hp; [done|].
      apply lookup_lt_Some in Hh. apply lookup_ge_None in Hp. lia.
    - destruct (params !! i) eqn:Hp; [|done].
      apply lookup_lt_Some in Hp. apply lookup_ge_None in Hh. lia. }
  rewrite Himap. apply mapM_id_Some.
Qed.

(** The server adapter on the verification statement of the bulk route:
    the identifiers go to the list, the organization to [$1]. *)
Lemma bind_server_select_in (o : V) (ids : list V) :
  Adapter.bind ServerStore (seq 2 (length ids) ++ [1%nat]) (o :: ids) = Some (ids ++ [o]).
Proof.
  unfold Adapter.bind, Adapter.bind_server.
  rewrite fmap_app, param_at_seq_S.
  pose proof (lookup_seq_fmap [o] ids []) as H.
  rewrite app_nil_r in H.
  change ([o] ++ ids) with (o :: ids) in H. change (length [o]) with 1%nat in H.
  rewrite H. simpl.
  rewrite <- (mapM_id_Some (ids ++ [o])). by rewrite fmap_app.
Qed.

(** The server adapter on the update statement of the bulk route: [$2],
    the first entry of the list, is the caller's identifier, and
    [$(n+2)], the approver, is the last time-log identifier. *)
Lemma bind_server_update_in (st who z : V) (ids : list V) :
  Adapter.bind ServerStore
    ([1%nat; (length (ids ++ [z]) + 2)%nat] ++ seq 2 (length (ids ++ [z])))
    (st :: who :: ids ++ [z])
  = Some (st :: z :: who :: ids).
Proof.
  unfold Adapter.bind, Adapter.bind_server.
  rewrite fmap_app, param_at_seq_S.
  pose proof (lookup_seq_fmap [st] (who :: ids) [z]) as H.
  change ([st] ++ (who :: ids) ++ [z]) with (st :: who :: ids ++ [z]) in H.
  change (length [st]) with 1%nat in H.
  replace (length (ids ++ [z])) with (length (who :: ids))
    by (rewrite length_app; simpl; lia).
  rewrite H. clear H.
  replace (length (who :: ids) + 2)%nat with (S (S (S (length ids)))) by (simpl; lia).
  cbn [fmap list_fmap Adapter.param_at app].
  assert (Hz : (st :: who :: ids ++ [z]) !! S (S (length ids)) = Some z).
  { simpl. by apply list_lookup_middle. }
  rewrite Hz. change ((st :: who :: ids ++ [z]) !! 0%nat) with (Some st).
  change (Some st :: Some z :: Some who :: (Some <$> ids))
    with (Some <$> (st :: z :: who :: ids)).
  apply mapM_id_Some.
Qed.

End BindingFacts.

Section TimesheetFacts.
Import Store Http Timesheets Lifecycle.

Lemma set_time_logs_same (db : Db) : set_time_logs db (time_logs db) = db.
Proof. by destruct db. Qed.

Lemma time_logs_set (db : Db) (l : list TimeLog) : time_logs (set_time_logs db l) = l.
Proof. done. Qed.

Lemma unique_key {A} (key : A -> option string) (l : list A) (x y : A) (s : string) :
  NoDup (omap key l) -> x ∈ l -> y ∈ l -> key x = Some s -> key y = Some s -> x = y.
Proof.
  intros Hnd Hx Hy Hkx Hky.
  pose proof (filter_unique_row key (fun z => col_eq (key z) (JStr s) && true)
                (fun _ => true) l x s (fun _ => eq_refl) Hnd Hx Hkx) as H1.
  pose proof (filter_unique_row key (fun z => col_eq (key z) (JStr s) && true)
                (fun _ => true) l y s (fun _ => eq_refl) Hnd Hy Hky) as H2.
  congruence.
Qed.

Lemma update_approval_inv c sel st by_ db rows db' :
  update_approval c sel st by_ db = Ok rows db' ->
  exists st' who,
    st = JStr st' /\ who = match by_ with JStr u => Some u | _ => None end
    /\ rows = set_approval st' who (CURRENT_TIMESTAMP c) <$> List.filter sel (time_logs db)
    /\ db' = approval_update sel st' who (CURRENT_TIMESTAMP c) db.
Proof.
  unfold update_approval. intros H.
  destruct st as [|st'| | | |]; try done.
  destruct by_ as [|u| | | |]; try done.
  - destruct (_ || _); [|done]. inversion H; subst. by exists st', None.
  - destruct (_ || _); [|done]. inversion H; subst. by exists st', (Some u).
Qed.

Lemma update_approval_raise c sel st by_ db e db' :
  update_approval c sel st by_ db = Raise e db' -> db' = db.
Proof.
  unfold update_approval. intros H.
  destruct st as [|st'| | | |]; try (by inversion H).
  destruct by_ as [|u| | | |]; try (by inversion H).
  - destruct (_ || _); by inversion H.
  - destruct (_ || _); by inversion H.
Qed.

Lemma approval_update_none sel st who now db :
  List.filter sel (time_logs db) = [] -> approval_update sel st who now db = db.
Proof.
  intros Hnone. unfold approval_update.
  replace ((fun r => if sel r then set_approval st who now r else r) <$> time_logs db)
    with (time_logs db); [apply set_time_logs_same|].
  symmetry. rewrite <- (list_fmap_id (time_logs db)) at 2.
  apply list_fmap_ext. intros i r Hr. simpl.
  destruct (sel r) eqn:E; [|done].
  assert (In r (List.filter sel (time_logs db))) as Hin.
  { apply filter_In. split; [|done]. apply list_elem_of_In. by eapply list_elem_of_lookup_2. }
  rewrite Hnone in Hin. destruct Hin.
Qed.

Lemma query_run_or_raise {A} (c : Conn) (s : Stmt A) (ps : list jsval) (db : Db) :
  (exists vs, query c s ps db = run s c vs db)
  \/ (exists e, query c s ps db = Raise e db).
Proof.
  unfold query. destruct (conn_online c); [|eauto].
  destruct (Adapter.bind _ _ _); eauto.
Qed.

(** The store after a single approve or reject call: untouched, or with
    the rows that carry the identifier updated, the first visible one of
    which was pending. *)
Lemma approve_inv c req db resp db' :
  approve c req db = (resp, db') ->
  (db' = db /\ success resp = false)
  \/ (exists log_id act tl rest,
        timeLogId req = Some log_id /\ action req = Some act
        /\ conn_online c = true
        /\ List.filter (fun r => col_eq (tl_id r) (JStr log_id)
                                 && col_eq (Some (tl_organization_id r))
                                      (JStr (organizationId (user req)))
                                 && is_null (tl_deleted_at r)) (time_logs db) = tl :: rest
        /\ tl_status tl = "pending"
        /\ db' = approval_update (fun r => col_eq (tl_id r) (JStr log_id))
                   (newStatus act) (Some (id (user req))) (CURRENT_TIMESTAMP c) db).
Proof.
  unfold approve. intros H.
  destruct (timeLogId req) as [log_id|]; [|left; by inversion H].
  destruct (action req) as [act|]; [|left; by inversion H].
  destruct (isUUID log_id && is_action act); [|left; by inversion H].
  unfold try_catch, mbind, M_bind, mret, M_ret in H.
  destruct (conn_online c) eqn:Hon.
  2:{ rewrite query_offline in H by done. left. by inversion H. }
  rewrite query_holes2 in H by done. cbn [run select_time_log] in H.
  destruct (List.filter _ (time_logs db)) as [|tl rest] eqn:Hsel.
  { left. by inversion H. }
  destruct (String.eqb_spec (tl_status tl) "pending") as [Hp|Hp]; cbn [negb] in H.
  2:{ left. by inversion H. }
  rewrite query_holes3 in H by done. cbn [run update_time_log] in H.
  destruct (update_approval _ _ _ _ _) as [rows db1|e db1] eqn:Hupd.
  - apply update_approval_inv in Hupd as (st' & who & Hst & Hwho & Hrows & Hdb).
    inversion Hst; subst st'. subst who.
    right. exists log_id, act, tl, rest.
    repeat split; try done.
    destruct rows; inversion H; by subst.
  - apply update_approval_raise in Hupd. subst db1. left. by inversion H.
Qed.


(** The store after a bulk call: untouched, or with some pending rows
    updated. *)
Lemma bulk_approve_inv c req db resp db' :
  bulk_approve c req db = (resp, db') ->
  (db' = db /\ success resp = false)
  \/ (exists ids st who,
        db' = approval_update
                (fun r => col_in (tl_id r) ids && String.eqb (tl_status r) "pending")
                st who (CURRENT_TIMESTAMP c) db).
Proof.
  unfold bulk_approve. intros H.
  destruct (timeLogIds req) as [ids|]; [|untouched H].
  destruct (b_action req) as [act|]; [|untouched H].
  destruct (forallb isUUID ids && is_action act); [|untouched H].
  unfold try_catch, mbind, M_bind, mret, M_ret in H.
  destruct (query_run_or_raise c (select_time_logs_in (length ids))
              (JStr (organizationId (b_user req)) :: (JStr <$> ids)) db)
    as [[vs Hq]|[e Hq]]; rewrite Hq in H.
  2:{ untouched H. }
  cbn [run select_time_logs_in] in H.
  destruct (reverse vs) as [|o rev_ids]; [untouched H|].
  destruct (bool_decide (conn_backend c = ServerStore) && bool_decide (rev_ids = []));
    [untouched H|].
  destruct (negb _); [untouched H|].
  destruct (_ =? 0)%nat; [untouched H|].
  match type of H with context [query c ?s ?ps db] =>
    destruct (query_run_or_raise c s ps db) as [[vs2 Hq2]|[e Hq2]]; rewrite Hq2 in H
  end.
  2:{ untouched H. }
  cbn [run update_time_logs_in] in H.
  destruct vs2 as [|st [|by_ ids2]]; try (untouched H).
  destruct (update_approval _ _ _ _ _) as [rows db1|e db1] eqn:Hupd.
  - apply update_approval_inv in Hupd as (st' & who & Hst & Hwho & Hrows & Hdb).
    right. exists ids2, st', who. cbn beta iota in H. inversion H. by subst.
  - apply update_approval_raise in Hupd. subst db1. untouched H.
Qed.


Lemma set_approval_id st who now r : tl_id (set_approval st who now r) = tl_id r.
Proof. done. Qed.

Lemma approval_update_ids sel st who now db :
  tl_id <$> time_logs (approval_update sel st who now db) = tl_id <$> time_logs db.
Proof.
  unfold approval_update. rewrite time_logs_set, <- list_fmap_compose.
  apply list_fmap_ext. intros i r _. simpl. by destruct (sel r).
Qed.

Lemma approval_update_lookup sel st who now db i r :
  time_logs db !! i = Some r ->
  time_logs (approval_update sel st who now db) !! i
  = Some (if sel r then set_approval st who now r else r).
Proof.
  intros Hr. unfold approval_update. by rewrite time_logs_set, list_lookup_fmap, Hr.
Qed.

Lemma omap_ids_fmap (l : list TimeLog) : omap tl_id l = omap Datatypes.id (tl_id <$> l).
Proof. induction l as [|x l IH]; [done|]. csimpl. by rewrite IH. Qed.

(** A call leaves the identifiers and every terminal row as they were. *)
Lemma handle_frozen c k db resp db' :
  handle c k db = (resp, db') ->
  NoDup (omap tl_id (time_logs db)) ->
  tl_id <$> time_logs db' = tl_id <$> time_logs db
  /\ forall i r, time_logs db !! i = Some r -> terminal r -> time_logs db' !! i = Some r.
Proof.
  intros H Hnd. destruct k as [req|req]; simpl in H.
  - apply approve_inv in H as [[-> _]|(log_id & act & tl & rest & _ & _ & _ & Hsel & Hp & ->)];
      [done|].
    split; [apply approval_update_ids|].
    intros i r Hr Hterm. rewrite (approval_update_lookup _ _ _ _ _ i r Hr).
    destruct (col_eq (tl_id r) (JStr log_id)) eqn:E; [|done].
    exfalso. apply col_eq_JStr in E.
    assert (In tl (List.filter
                     (fun r => col_eq (tl_id r) (JStr log_id)
                               && col_eq (Some (tl_organization_id r))
                                    (JStr (organizationId (user req)))
                               && is_null (tl_deleted_at r)) (time_logs db))) as Hin.
    { rewrite Hsel. by left. }
    apply filter_In in Hin as [Hin Hcond].
    apply andb_prop in Hcond as [Hcond _]. apply andb_prop in Hcond as [Hcond _].
    apply col_eq_JStr in Hcond.
    assert (r = tl) as ->.
    { eapply (unique_key tl_id (time_logs db)); eauto.
      - by eapply list_elem_of_lookup_2.
      - by apply list_elem_of_In. }
    by apply Hterm.
  - apply bulk_approve_inv in H as [[-> _]|(ids & st & who & ->)]; [done|].
    split; [apply approval_update_ids|].
    intros i r Hr Hterm. rewrite (approval_update_lookup _ _ _ _ _ i r Hr).
    destruct (String.eqb_spec (tl_status r) "pending") as [Hp|Hp]; [by destruct Hterm|].
    by rewrite andb_false_r.
Qed.

(** A single call on a terminal time log does not succeed. *)
Lemma approve_terminal_fails c req db r :
  NoDup (omap tl_id (time_logs db)) ->
  r ∈ time_logs db -> terminal r -> timeLogId req = tl_id r ->
  exists resp, approve c req db = (resp, db) /\ success resp = false.
Proof.
  intros Hnd Hr Hterm Hid.
  destruct (approve c req db) as [resp db'] eqn:H. exists resp.
  apply approve_inv in H as [[-> Hfail]|(log_id & act & tl & rest & Hlog & _ & _ & Hsel & Hp & _)];
    [done|].
  exfalso.
  assert (In tl (List.filter
                   (fun r => col_eq (tl_id r) (JStr log_id)
                             && col_eq (Some (tl_organization_id r))
                                  (JStr (organizationId (user req)))
                             && is_null (tl_deleted_at r)) (time_logs db))) as Hin.
  { rewrite Hsel. by left. }
  apply filter_In in Hin as [Hin Hcond].
  apply andb_prop in Hcond as [Hcond _]. apply andb_prop in Hcond as [Hcond _].
  apply col_eq_JStr in Hcond.
  assert (r = tl) as ->.
  { eapply (unique_key tl_id (time_logs db)); eauto.
    - by apply list_elem_of_In.
    - congruence. }
  by apply Hterm.
Qed.

Lemma run_calls_frozen calls db resps db' i r :
  NoDup (omap tl_id (time_logs db)) ->
  time_logs db !! i = Some r -> terminal r ->
  run_calls calls db = (resps, db') ->
  time_logs db' !! i = Some r
  /\ forall k c req,
       calls !! k = Some (c, Single req) -> timeLogId req = tl_id r ->
       exists resp, resps !! k = Some resp /\ success resp = false.
Proof.
  revert db resps. induction calls as [|[c0 k0] rest IH]; intros db resps Hnd Hr Hterm Hrun.
  - simpl in Hrun. inversion Hrun; subst. split; [done|]. intros k c req Hk. done.
  - simpl in Hrun.
    destruct (handle c0 k0 db) as [resp0 db1] eqn:Hh.
    destruct (run_calls rest db1) as [resps1 db2] eqn:Hrest.
    inversion Hrun; subst.
    pose proof (handle_frozen _ _ _ _ _ Hh Hnd) as [Hids Hfrozen].
    assert (Hnd1 : NoDup (omap tl_id (time_logs db1))).
    { rewrite omap_ids_fmap, Hids, <- omap_ids_fmap. done. }
    destruct (IH db1 resps1 Hnd1 (Hfrozen i r Hr Hterm) Hterm Hrest) as [Hlast Hresps].
    split; [done|].
    intros [|k] c req Hk Hid.
    + simpl in Hk. inversion Hk; subst. simpl in Hh.
      destruct (approve_terminal_fails c req db r Hnd) as (resp & Happ & Hfail); try done.
      { by eapply list_elem_of_lookup_2. }
      exists resp0. split; [done|]. congruence.
    + simpl in Hk. simpl. by eapply Hresps.
Qed.

End TimesheetFacts.

Section ApprovalFacts.
Import Store Http Timesheets Lifecycle.

(** A single call on a visible time log, step by step. *)
Lemma approve_visible c req db r log_id act :
  timeLogId req = Some log_id -> action req = Some act ->
  isUUID log_id = true -> is_action act = true -> conn_online c = true ->
  NoDup (omap tl_id (time_logs db)) ->
  r ∈ time_logs db -> tl_id r = Some log_id ->
  tl_organization_id r = organizationId (user req) -> tl_deleted_at r = None ->
  approve c req db
  = if negb (String.eqb (tl_status r) "pending")
    then (fail_with 400 ("Time log is already " ++ tl_status r)%string, db)
    else if approved_by_ok c (Some (id (user req))) db
         then ({| code := 200; success := true;
                  message := Some ("Time log " ++ act ++ "d successfully")%string;
                  data := ApprovedTimeLog (Some log_id) (newStatus act)
                            (Some (CURRENT_TIMESTAMP c)) (id (user req))
                            (firstName (user req) ++ " " ++ lastName (user req))%string;
                  error := None |},
               set_time_logs db
                 ((fun y => if col_eq (tl_id y) (JStr log_id)
                            then set_approval (newStatus act) (Some (id (user req)))
                                   (CURRENT_TIMESTAMP c) y
                            else y) <$> time_logs db))
         else (server_error c "Failed to approve/reject time log"
                 "violates foreign key constraint time_logs_approved_by_fkey", db).
Proof.
  intros Hid Hact Hu Ha Hon Hnd Hr Hrid Horg Hlive.
  unfold approve. rewrite Hid, Hact, Hu, Ha. cbn [andb].
  unfold try_catch, mbind, M_bind, mret, M_ret.
  rewrite query_holes2 by done. cbn [run select_time_log].
  rewrite (filter_unique_row tl_id _
             (fun y => col_eq (Some (tl_organization_id y))
                         (JStr (organizationId (user req)))
                       && is_null (tl_deleted_at y)) (time_logs db) r log_id);
    [| intros y; by rewrite andb_assoc | done..].
  rewrite Horg, Hlive. rewrite (proj2 (col_eq_JStr _ _) eq_refl). cbn [andb is_null].
  destruct (negb (String.eqb (tl_status r) "pending")); [done|].
  rewrite query_holes3 by done. cbn [run update_time_log].
  unfold update_approval.
  rewrite (filter_unique_row tl_id _ (fun _ => true) (time_logs db) r log_id);
    [| intros y; by rewrite andb_true_r | done..].
  rewrite bool_decide_false by done. cbn [orb].
  destruct (approved_by_ok c (Some (id (user req))) db); [|done].
  cbn [fmap list_fmap]. by rewrite set_approval_id, Hrid.
Qed.

End ApprovalFacts.

Section BulkFacts.
Import Store Http Timesheets Lifecycle.

Lemma col_in_JStr (col : option string) (cands : list string) :
  col_in col (JStr <$> cands) = true <-> exists i, col = Some i /\ i ∈ cands.
Proof.
  unfold col_in. rewrite existsb_exists. split.
  - intros (p & Hp & Heq). apply list_elem_of_In, list_elem_of_fmap in Hp as (i & -> & Hi).
    apply col_eq_JStr in Heq. eauto.
  - intros (i & -> & Hi). exists (JStr i). split.
    + apply list_elem_of_In, list_elem_of_fmap. eauto.
    + by apply col_eq_JStr.
Qed.

Lemma NoDup_omap_filter {A} (key : A -> option string) (P : A -> bool) (l : list A) :
  NoDup (omap key l) -> NoDup (omap key (List.filter P l)).
Proof.
  induction l as [|x l IH]; [done|]. csimpl. intros Hnd.
  assert (Hl : NoDup (omap key l)).
  { destruct (key x); [by apply NoDup_cons in Hnd as [_ ?]|done]. }
  destruct (P x); [|by apply IH]. csimpl.
  destruct (key x) as [k|] eqn:Hk; [|by apply IH].
  apply NoDup_cons in Hnd as [Hnotin _]. apply NoDup_cons. split; [|by apply IH].
  intros Hin. apply Hnotin.
  apply list_elem_of_omap in Hin as (y & Hy & Hky). apply list_elem_of_omap.
  exists y. split; [|done]. apply list_elem_of_In. apply list_elem_of_In in Hy.
  by apply filter_In in Hy as [? _].
Qed.

(** Rows selected by identifier are at most as many as the candidate
    identifiers, when identifiers are unique among the rows. *)
Lemma selected_at_most {A} (key : A -> option string) (P : A -> bool) (l : list A)
    (cands : list string) :
  NoDup (omap key l) ->
  (forall r, r ∈ l -> P r = true -> exists i, key r = Some i /\ i ∈ cands) ->
  length (List.filter P l) <= length cands.
Proof.
  intros Hnd Hsel.
  assert (Hlen : length (omap key (List.filter P l)) = length (List.filter P l)).
  { clear Hnd. induction l as [|x l IH]; [done|]. simpl.
    destruct (P x) eqn:HP.
    - destruct (Hsel x) as (i & Hi & _); [by left|done|]. csimpl. rewrite Hi. simpl.
      f_equal. apply IH. intros r Hr. apply Hsel. by right.
    - apply IH. intros r Hr. apply Hsel. by right. }
  rewrite <- Hlen. apply submseteq_length, NoDup_submseteq.
  - by apply NoDup_omap_filter.
  - intros i Hi. apply list_elem_of_omap in Hi as (r & Hr & Hkr).
    apply list_elem_of_In, filter_In in Hr as [Hr HP]. apply list_elem_of_In in Hr.
    destruct (Hsel r Hr HP) as (j & Hj & Hjc). congruence.
Qed.

End BulkFacts.

Section BulkStatusFacts.
Import Store Http Timesheets Lifecycle BulkSpec.

(** The bulk call once its verification has passed. *)
Lemma bulk_after_verification c req ids act db rows :
  timeLogIds req = Some ids -> b_action req = Some act ->
  forallb isUUID ids = true -> is_action act = true ->
  verified c req ids db rows ->
  bulk_approve c req db
  = let pendingLogs := List.filter is_pending rows in
    if (length pendingLogs =? 0)%nat then (no_pending, db)
    else
      match query c (update_time_logs_in
                       (length ((fun log => js_of_id (tl_id log)) <$> pendingLogs)))
              ([JStr (newStatus act); JStr (id (b_user req))]
               ++ ((fun log => js_of_id (tl_id log)) <$> pendingLogs)) db with
      | Ok updated db2 =>
          ({| code := 200; success := true;
              message := Some (pretty (length updated) ++ " time log(s) "
                               ++ act ++ "d successfully")%string;
              data := BulkSummary (length updated) (length ids)
                        (Z.of_nat (length ids) - Z.of_nat (length pendingLogs));
              error := None |}, db2)
      | Raise e db2 =>
          (server_error c "Failed to bulk approve/reject time logs" e, db2)
      end.
Proof.
  intros Hids Hact Hu Ha [Hq Hlen]. unfold bulk_approve.
  rewrite Hids, Hact, Hu, Ha. cbn [andb].
  unfold try_catch, mbind, M_bind, mret, M_ret. rewrite Hq.
  rewrite Hlen, Nat.eqb_refl. cbn [negb]. cbv zeta. fold is_pending.
  destruct (Nat.eqb _ _); [reflexivity|].
  match goal with
  | |- context [query c (update_time_logs_in ?n) ?ps db] =>
      destruct (query c (update_time_logs_in n) ps db)
  end; reflexivity.
Qed.

(** Under either adapter the status written by the bulk update is the
    first parameter. *)
Lemma bind_update_head (b : backend) (n : nat) (st who : jsval) (pids vs : list jsval) :
  Adapter.bind b ([1%nat; (n + 2)%nat] ++ seq 2 n) (st :: who :: pids) = Some vs ->
  exists by_ rest, vs = st :: by_ :: rest.
Proof.
  unfold Adapter.bind. intros H. apply mapM_Some in H.
  destruct b; cbn in H.
  - inversion H as [|x1 y1 l1 k1 H1 H1' ]; subst.
    inversion H1' as [|x2 y2 l2 k2 H2 H2']; subst.
    simpl in H1. inversion H1; subst. eauto.
  - inversion H as [|x1 y1 l1 k1 H1 H1' ]; subst.
    inversion H1' as [|x2 y2 l2 k2 H2 H2']; subst.
    simpl in H1. inversion H1; subst. eauto.
Qed.

(** The update of the bulk route touches pending rows only, and writes
    the new status and the clock reading into those it touches. *)
Lemma bulk_update_effect c act who pids db :
  (exists e, query c (update_time_logs_in (length pids))
               ([JStr (newStatus act); who] ++ pids) db = Raise e db)
  \/ (exists updated sel approver,
        query c (update_time_logs_in (length pids))
          ([JStr (newStatus act); who] ++ pids) db
        = Ok updated (approval_update sel (newStatus act) approver (CURRENT_TIMESTAMP c) db)
        /\ forall r, sel r = true -> tl_status r = "pending").
Proof.
  unfold query. destruct (conn_online c); [|eauto].
  destruct (Adapter.bind _ _ _) as [vs|] eqn:Hbind; [|eauto].
  apply bind_update_head in Hbind as (by_ & rest & ->).
  cbn [run update_time_logs_in].
  destruct (update_approval _ _ _ _ _) as [updated db2|e db2] eqn:Hupd.
  - apply update_approval_inv in Hupd as (st' & approver & Hst & _ & _ & ->).
    inversion Hst; subst st'. right. eexists _, _, _. split; [done|].
    intros r Hsel. apply andb_prop in Hsel as [_ Hp]. by apply String.eqb_eq.
  - apply update_approval_raise in Hupd. subst. eauto.
Qed.

Lemma omap_filter_length {A} (key : A -> option string) (P : A -> bool) (l : list A) :
  (forall r, r ∈ l -> P r = true -> is_Some (key r)) ->
  length (omap key (List.filter P l)) = length (List.filter P l).
Proof.
  intros Hsel. induction l as [|x l IH]; [done|]. simpl.
  destruct (P x) eqn:HP.
  - destruct (Hsel x) as (i & Hi); [by left|done|]. csimpl. rewrite Hi. simpl.
    f_equal. apply IH. intros r Hr. apply Hsel. by right.
  - apply IH. intros r Hr. apply Hsel. by right.
Qed.

(** On the server store a verification that passes has found exactly the
    listed time logs, each alive and of the caller's organization. *)
Lemma server_verification_exact c req ids db rows :
  conn_backend c = ServerStore ->
  NoDup (omap tl_id (time_logs db)) ->
  verified c req ids db rows ->
  omap tl_id rows ≡ₚ ids
  /\ forall r, r ∈ rows ->
       r ∈ time_logs db /\ tl_organization_id r = organizationId (b_user req)
       /\ tl_deleted_at r = None.
Proof.
  intros Hb Hnd [Hq Hlen]. unfold query in Hq.
  destruct (conn_online c); [|done]. cbn [holes select_time_logs_in] in Hq.
  rewrite Hb, <- (length_fmap JStr ids), bind_server_select_in in Hq.
  cbn [run select_time_logs_in] in Hq.
  rewrite reverse_snoc, reverse_involutive in Hq.
  destruct (_ && _); [done|]. injection Hq as Hrows. subst rows.
  match goal with |- context [List.filter ?P (time_logs db)] => set (sel := P) in * end.
  assert (Hsel : forall r, r ∈ time_logs db -> sel r = true ->
             (exists i, tl_id r = Some i /\ i ∈ ids)
             /\ tl_organization_id r = organizationId (b_user req)
             /\ tl_deleted_at r = None).
  { intros r Hr H. unfold sel in H.
    apply andb_prop in H as [H Hlive]. apply andb_prop in H as [Hin Horg].
    apply col_in_JStr in Hin. apply String.eqb_eq in Horg. apply is_null_true in Hlive.
    split; [done|]. split; [congruence|done]. }
  split.
  - apply submseteq_length_Permutation.
    + apply NoDup_submseteq.
      * by apply NoDup_omap_filter.
      * intros i Hi. apply list_elem_of_omap in Hi as (r & Hr & Hkr).
        apply list_elem_of_In, filter_In in Hr as [Hr HP]. apply list_elem_of_In in Hr.
        destruct (Hsel r Hr HP) as [(j & Hj & Hjc) _]. congruence.
    + rewrite <- Hlen. rewrite omap_filter_length; [done|].
      intros r Hr HP. destruct (Hsel r Hr HP) as [(j & Hj & _) _]. by exists j.
  - intros r Hr.
    apply list_elem_of_In, filter_In in Hr as [Hr HP]. apply list_elem_of_In in Hr.
    destruct (Hsel r Hr HP) as (_ & ? & ?). done.
Qed.

End BulkStatusFacts.


Section InOrder.
Context {V : Type}.

(** A text whose placeholders are [$1 .. $n] in this order binds the same
    values under both adapters. *)
Lemma bind_in_order (b : backend) (params : list V) :
  Adapter.bind b (seq 1 (length params)) params = Some params.
Proof.
  destruct b.
  - unfold Adapter.bind, Adapter.bind_server. rewrite param_at_seq_S.
    pose proof (lookup_seq_fmap [] params []) as H.
    rewrite app_nil_r in H. simpl in H. rewrite H. apply mapM_id_Some.
  - apply bind_embedded_positional. by rewrite length_seq.
Qed.
End InOrder.

Lemma query_in_order {A} (c : Store.Conn) (s : Store.Stmt A) (ps : list jsval) (db : Store.Db) :
  Store.conn_online c = true -> Store.holes s = seq 1 (length ps) ->
  Store.query c s ps db = Store.run s c ps db.
Proof. intros Hon Hh. unfold Store.query. by rewrite Hon, Hh, bind_in_order. Qed.

Section CreationFacts.
Import Store Http Tenant TimeLogs.

Lemma query_read_only {A} (c : Conn) (s : Stmt A) (ps : list jsval) (db : Db) :
  (forall vs, match run s c vs db with Ok _ db' | Raise _ db' => db' = db end) ->
  match query c s ps db with Ok _ db' | Raise _ db' => db' = db end.
Proof.
  intros Hrun. destruct (query_run_or_raise c s ps db) as [[vs ->]|[e ->]]; [apply Hrun|done].
Qed.

Lemma select_owned_read_only table c vs db :
  match run (select_owned table) c vs db with Ok _ db' | Raise _ db' => db' = db end.
Proof.
  simpl. destruct vs as [|p [|o [|? ?]]]; try done.
  by destruct (tenant_rows table db).
Qed.

(** What the route can do to the store: nothing, or append one row whose
    times and duration passed the validators and the checks of the
    schema. *)
Lemma post_time_inv c req db resp db' :
  post_time c req db = (resp, db') ->
  (db' = db /\ success resp = false)
  \/ (exists start_ end_ ms row,
        startTime req = Some start_ /\ endTime req = Some end_
        /\ durationMs req = Some ms /\ (1 <= ms)%Z
        /\ server_checks c start_ end_ ms db = true
        /\ tl_start_time row = start_ /\ tl_end_time row = end_
        /\ tl_duration_ms row = ms
        /\ db' = set_time_logs db (time_logs db ++ [row])).
Proof.
  unfold post_time. intros H.
  destruct (validateProject _ _ _ _ _ _) as [r|] eqn:Hp.
  { apply validate_reference_403 in Hp as [_ ?]. left. by inversion H; subst. }
  destruct (validateTask _ _ _ _ _ _) as [r|] eqn:Ht.
  { apply validate_reference_403 in Ht as [_ ?]. left. by inversion H; subst. }
  unfold create_handler in H.
  destruct (projectId req) as [project|]; [|left; by inversion H].
  destruct (taskId req) as [task|]; [|left; by inversion H].
  destruct (startTime req) as [start_|] eqn:Hs; [|left; by inversion H].
  destruct (endTime req) as [end_|] eqn:He; [|left; by inversion H].
  destruct (durationMs req) as [ms|] eqn:Hms; [|left; by inversion H].
  destruct (durationHours req) as [hours|]; [|left; by inversion H].
  destruct (validators req) eqn:Hval; [|left; by inversion H].
  assert (Hms1 : (1 <= ms)%Z).
  { unfold validators in Hval. rewrite Hms in Hval.
    repeat (apply andb_prop in Hval as [Hval ?]). lia. }
  unfold try_catch, mbind, M_bind, mret, M_ret in H.
  pose proof (query_read_only c (select_owned "projects")
                [JStr project; JStr (organizationId (user req))] db
                (fun vs => select_owned_read_only _ c vs db)) as Hq1.
  destruct (query c (select_owned "projects") _ db) as [rows1 db1|e db1];
    subst db1; [|untouched H].
  destruct rows1; [untouched H|].
  pose proof (query_read_only c (select_owned "tasks")
                [JStr task; JStr (organizationId (user req))] db
                (fun vs => select_owned_read_only _ c vs db)) as Hq2.
  destruct (query c (select_owned "tasks") _ db) as [rows2 db2|e db2];
    subst db2; [|untouched H].
  destruct rows2; [untouched H|].
  destruct (conn_online c) eqn:Hon.
  2:{ rewrite query_offline in H by done. untouched H. }
  rewrite query_in_order in H by done.
  cbn [run insert_time_log] in H.
  destruct (description_param (description req)) as [|d| | | |] eqn:Hd;
    try (by destruct (description req) as [d'|]; [simpl in Hd; destruct (String.eqb _ _)|]).
  - destruct (references_ok _ _ _ _ db && server_checks c start_ end_ ms db) eqn:Hchk;
      [|untouched H].
    apply andb_prop in Hchk as [_ Hchk].
    right. eexists start_, end_, ms, _. cbn beta iota in H. inversion H; subst.
    repeat split; try done.
  - destruct (references_ok _ _ _ _ db && server_checks c start_ end_ ms db) eqn:Hchk;
      [|untouched H].
    apply andb_prop in Hchk as [_ Hchk].
    right. eexists start_, end_, ms, _. cbn beta iota in H. inversion H; subst.
    repeat split; try done.
Qed.

(** X6. The validators refuse a duration that is not positive, whatever the
    adapter. *)
Lemma bad_duration_rejected c req db :
  bad_duration req ->
  exists resp, post_time c req db = (resp, db) /\ success resp = false.
Proof.
  intros (ms & Hms & Hle). destruct (post_time c req db) as [resp db'] eqn:H.
  apply post_time_inv in H as [[-> ?]|(s & e & ms' & row & _ & _ & Hms' & Hge & _)]; [eauto|].
  rewrite Hms in Hms'. inversion Hms'; subst. lia.
Qed.

(** X7. The server schema refuses a range that does not end after its
    start. *)
Lemma bad_range_rejected_by_server c req db :
  conn_backend c = ServerStore -> bad_range req ->
  exists resp, post_time c req db = (resp, db) /\ success resp = false.
Proof.
  intros Hb (s & e & Hs & He & Hle). destruct (post_time c req db) as [resp db'] eqn:H.
  apply post_time_inv in H as [[-> ?]|(s' & e' & ms & row & Hs' & He' & _ & _ & Hchk & _)];
    [eauto|].
  rewrite Hs in Hs'. rewrite He in He'. inversion Hs'; inversion He'; subst.
  unfold server_checks in Hchk. rewrite Hb in Hchk.
  apply andb_prop in Hchk as [Hchk _]. apply andb_prop in Hchk as [Hchk _]. lia.
Qed.

End CreationFacts.

Section KeyFacts.
Import CryptoConfig.
Local Open Scope Z_scope.

Lemma word_bytes_are_bytes (x : Z) : Forall is_byte (Sha256.word_bytes x).
Proof.
  unfold Sha256.word_bytes, is_byte.
  repeat constructor; apply Z.mod_pos_bound; lia.
Qed.

(** A SHA-256 digest is 32 bytes long. *)
Lemma digest_length (msg : list Z) : length (Sha256.digest msg) = 32%nat.
Proof. reflexivity. Qed.

Lemma digest_bytes (msg : list Z) : Forall is_byte (Sha256.digest msg).
Proof.
  unfold Sha256.digest. repeat (apply Forall_app; split); apply word_bytes_are_bytes.
Qed.

Lemma hex_value_of_digit (c : ascii) :
  is_hex_digit c = true -> exists v, hex_value c = Some v /\ 0 <= v < 16.
Proof.
  unfold is_hex_digit, hex_value. intros H.
  destruct ((48 <=? nat_of_ascii c)%nat && (nat_of_ascii c <=? 57)%nat) eqn:E1.
  { apply andb_prop in E1 as [?%Nat.leb_le ?%Nat.leb_le]. eexists. split; [done|]. lia. }
  destruct ((65 <=? nat_of_ascii c)%nat && (nat_of_ascii c <=? 70)%nat) eqn:E2.
  { apply andb_prop in E2 as [?%Nat.leb_le ?%Nat.leb_le]. eexists. split; [done|]. lia. }
  destruct ((97 <=? nat_of_ascii c)%nat && (nat_of_ascii c <=? 102)%nat) eqn:E3.
  { apply andb_prop in E3 as [?%Nat.leb_le ?%Nat.leb_le]. eexists. split; [done|]. lia. }
  done.
Qed.

(** Decoding [2n] hexadecimal digits gives [n] bytes. *)
Lemma from_hex_length (n : nat) (s : string) :
  hex_run (2 * n) s = Some EmptyString ->
  length (from_hex s) = n /\ Forall is_byte (from_hex s).
Proof.
  revert s. induction n as [|n IH]; intros s H.
  - simpl in H. inversion H; subst. split; [done|constructor].
  - replace (2 * S n)%nat with (S (S (2 * n))) in H by lia.
    destruct s as [|c1 [|c2 tl]]; simpl in H; try done.
    { by destruct (is_hex_digit c1). }
    destruct (is_hex_digit c1) eqn:H1; [|done].
    destruct (is_hex_digit c2) eqn:H2; [|done].
    destruct (hex_value_of_digit c1 H1) as (v1 & Hv1 & ?).
    destruct (hex_value_of_digit c2 H2) as (v2 & Hv2 & ?).
    cbn [from_hex]. rewrite Hv1, Hv2.
    destruct (IH tl H) as [Hlen Hb]. split; [simpl; by f_equal|].
    constructor; [unfold is_byte; lia|done].
Qed.

Lemma is_hex64_spec (s : string) :
  is_hex64 s = true <-> hex_run 64 s = Some EmptyString.
Proof.
  unfold is_hex64. destruct (hex_run 64 s) as [[|? ?]|]; split; done.
Qed.

(** [hex_run n s] succeeds with nothing left exactly on strings of [n]
    hexadecimal digits. *)
Lemma hex_run_spec (n : nat) (s : string) :
  hex_run n s = Some EmptyString
  <-> String.length s = n /\ Forall (fun c => is_hex_digit c = true) (list_ascii_of_string s).
Proof.
  revert s. induction n as [|n IH]; intros s.
  - simpl. split.
    + intros H. inversion H; subst. split; [done|constructor].
    + intros [H _]. by destruct s.
  - destruct s as [|c tl]; simpl.
    + split; [done|]. by intros [? _].
    + destruct (is_hex_digit c) eqn:Hc.
      * rewrite IH. split.
        -- intros [? ?]. split; [by f_equal|by constructor].
        -- intros [Hl Hf]. inversion Hf; subst. split; [by inversion Hl|done].
      * split; [done|]. intros [_ Hf]. inversion Hf; subst. congruence.
Qed.

(** C8. [getEncryptionKey] returns a key of 32 bytes or throws.  A
    configured key of 64 hexadecimal digits is returned decoded; any other
    configured key gives its SHA-256 digest; without a configured key the
    function throws in production and otherwise returns the hardcoded
    development key after the two warnings it prints, which are returned
    next to the key in the order they are printed. *)
Theorem getEncryptionKey_cases (ENCRYPTION_KEY NODE_ENV : option string) :
  match getEncryptionKey ENCRYPTION_KEY NODE_ENV with
  | Returns key _ => length key = 32%nat /\ Forall is_byte key
  | Throws _ => True
  end
  /\ (forall envKey,
        ENCRYPTION_KEY = Some envKey ->
        String.length envKey = 64%nat ->
        Forall (fun ch => is_hex_digit ch = true) (list_ascii_of_string envKey) ->
        getEncryptionKey ENCRYPTION_KEY NODE_ENV = Returns (from_hex envKey) [])
  /\ (forall envKey,
        ENCRYPTION_KEY = Some envKey -> envKey <> "" ->
        ~ (String.length envKey = 64%nat
           /\ Forall (fun ch => is_hex_digit ch = true) (list_ascii_of_string envKey)) ->
        getEncryptionKey ENCRYPTION_KEY NODE_ENV
        = Returns (Sha256.digest (bytes_of_string envKey)) [])
  /\ (truthy ENCRYPTION_KEY = false -> NODE_ENV = Some "production" ->
      getEncryptionKey ENCRYPTION_KEY NODE_ENV
      = Throws "ENCRYPTION_KEY environment variable is required in production")
  /\ (truthy ENCRYPTION_KEY = false -> NODE_ENV <> Some "production" ->
      getEncryptionKey ENCRYPTION_KEY NODE_ENV
      = Returns
          (from_hex "0123456789abcdef0123456789abcdef0123456789abcdef0123456789abcdef")
          ["⚠️  WARNING: Using hardcoded encryption key. This is insecure for production!";
           "⚠️  Set ENCRYPTION_KEY environment variable for secure key management."]).
Proof.
  assert (Hhard : length HARDCODED_KEY = 32%nat /\ Forall is_byte HARDCODED_KEY).
  { apply from_hex_length. reflexivity. }
  split; [|split; [|split; [|split]]].
  - unfold getEncryptionKey, without_key.
    destruct ENCRYPTION_KEY as [envKey|].
    + destruct (truthy (Some envKey)).
      * destruct (is_hex64 envKey) eqn:Hhex.
        -- apply is_hex64_spec in Hhex. by apply (from_hex_length 32).
        -- split; [apply digest_length|apply digest_bytes].
      * by destruct (bool_decide _).
    + by destruct (bool_decide _).
  - intros envKey -> Hlen Hhex. unfold getEncryptionKey.
    assert (Ht : truthy (Some envKey) = true).
    { simpl. destruct (String.eqb_spec envKey ""); [by subst|done]. }
    rewrite Ht. by rewrite (proj2 (is_hex64_spec envKey)) by by apply hex_run_spec.
  - intros envKey -> Hne Hnot. unfold getEncryptionKey.
    assert (Ht : truthy (Some envKey) = true).
    { simpl. by destruct (String.eqb_spec envKey ""). }
    rewrite Ht. destruct (is_hex64 envKey) eqn:Hhex; [|done].
    destruct Hnot. by apply hex_run_spec, is_hex64_spec.
  - intros Ht ->. unfold getEncryptionKey, without_key.
    destruct ENCRYPTION_KEY as [envKey|]; [rewrite Ht|]; done.
  - intros Ht Hnp. unfold getEncryptionKey, without_key.
    rewrite bool_decide_false by done.
    destruct ENCRYPTION_KEY as [envKey|]; [rewrite Ht|]; done.
Qed.

End KeyFacts.

Section SortFacts.
Context {A : Type} (leb : A -> A -> bool).
Hypothesis leb_total : forall x y, leb x y = true \/ leb y x = true.

Lemma insert_sorted_HdRel (a x : A) (l : list A) :
  leb a x = true -> HdRel (before leb) a l -> HdRel (before leb) a (insert_sorted leb x l).
Proof.
  intros Hax Hhd. destruct l as [|y l]; simpl; [by constructor|].
  destruct (leb x y); constructor; [done|]. by inversion Hhd.
Qed.

Lemma insert_sorted_Sorted (x : A) (l : list A) :
  Sorted (before leb) l -> Sorted (before leb) (insert_sorted leb x l).
Proof.
  induction l as [|y l IH]; intros Hs; simpl.
  - repeat constructor.
  - destruct (leb x y) eqn:E.
    + constructor; [done|]. by constructor.
    + inversion Hs as [|? ? Hs' Hhd]; subst. constructor; [by apply IH|].
      apply insert_sorted_HdRel; [|done].
      destruct (leb_total x y) as [H|H]; [congruence|done].
Qed.

Lemma isort_Sorted (l : list A) : Sorted (before leb) (isort leb l).
Proof.
  induction l as [|x l IH]; simpl; [constructor|]. by apply insert_sorted_Sorted.
Qed.

Lemma Sorted_skipn (n : nat) (l : list A) : Sorted (before leb) l -> Sorted (before leb) (skipn n l).
Proof.
  revert l. induction n as [|n IH]; intros l Hs; [done|].
  destruct l as [|x l]; [done|]. simpl. apply IH. by inversion Hs.
Qed.

Lemma Sorted_firstn (n : nat) (l : list A) : Sorted (before leb) l -> Sorted (before leb) (firstn n l).
Proof.
  revert l. induction n as [|n IH]; intros l Hs; [constructor|].
  destruct l as [|x l]; [constructor|]. simpl.
  inversion Hs as [|? ? Hs' Hhd]; subst. constructor; [by apply IH|].
  destruct l as [|y l]; [destruct n; constructor|].
  destruct n; simpl; constructor. by inversion Hhd.
Qed.

End SortFacts.

Section OrderFacts.
Import EmbeddedSync.

Lemma string_leb_total (x y : string) : String.leb x y = true \/ String.leb y x = true.
Proof.
  unfold String.leb. rewrite (String.compare_antisym x y).
  destruct (String.compare y x); simpl; auto.
Qed.

Lemma sql_leb_total (a b : fval) : sql_leb a b = true \/ sql_leb b a = true.
Proof.
  destruct a as [|x|x], b as [|y|y]; simpl; auto.
  - apply string_leb_total.
  - destruct (Qle_bool x y) eqn:E; [auto|]. right.
    apply Qle_bool_iff. apply Qlt_le_weak. apply Qnot_le_lt.
    intros H. apply Qle_bool_iff in H. congruence.
Qed.

Lemma created_at_desc_total (a b : row) :
  created_at_desc a b = true \/ created_at_desc b a = true.
Proof. unfold created_at_desc. apply sql_leb_total. Qed.

End OrderFacts.

Section SyncFacts.
Import EmbeddedSync.
Variable encrypt : fval -> string.
Variable decrypt : string -> option fval.

Lemma encryptFields_lookup (data : row) (fields : list string) (k : string) :
  NoDup fields ->
  encryptFields encrypt data fields !! k
  = if bool_decide (k ∈ fields) then (fun v => FText (encrypt v)) <$> data !! k
    else data !! k.
Proof.
  induction fields as [|f fs IH]; intros Hnd; [done|].
  apply NoDup_cons in Hnd as [Hf Hnd]. specialize (IH Hnd).
  unfold encryptFields in *. cbn [foldr].
  set (r := foldr _ data fs) in *.
  assert (Hrf : r !! f = data !! f).
  { clear IH. subst r. induction fs as [|g gs IHg]; [done|].
    cbn [foldr]. apply not_elem_of_cons in Hf as [Hfg Hf].
    apply NoDup_cons in Hnd as [_ Hnd].
    destruct (foldr _ data gs !! g); [rewrite lookup_insert_ne by done|]; by apply IHg. }
  destruct (decide (k = f)) as [->|Hkf].
  - rewrite bool_decide_true by left. rewrite <- Hrf.
    destruct (r !! f) as [v|] eqn:Hr; [by rewrite lookup_insert_eq|by rewrite Hr].
  - assert (Heq : bool_decide (k ∈ f :: fs) = bool_decide (k ∈ fs)).
    { apply bool_decide_ext. rewrite elem_of_cons.
      split; [by intros [?|?]|by right]. }
    rewrite Heq, <- IH.
    destruct (r !! f); [by rewrite lookup_insert_ne|done].
Qed.

Lemma decryptFields_lookup (r r' : row) (fields : list string) :
  NoDup fields ->
  decryptFields decrypt r fields = Some r' ->
  (forall k, k ∉ fields -> r' !! k = r !! k)
  /\ (forall f c, f ∈ fields -> r !! f = Some (FText c) -> r' !! f = decrypt c).
Proof.
  revert r'. induction fields as [|f fs IH]; intros r' Hnd H.
  - inversion H; subst. split; [done|]. intros f c Hf. by apply elem_of_nil in Hf.
  - apply NoDup_cons in Hnd as [Hf Hnd].
    unfold decryptFields in *. cbn [foldr] in H.
    destruct (foldr (decrypt_field decrypt) (Some r) fs) as [r1|] eqn:H1; [|done].
    destruct (IH r1 Hnd eq_refl) as [Hout Hin].
    assert (Hr1f : r1 !! f = r !! f) by by apply Hout.
    cbn [decrypt_field] in H.
    assert (Hcases : (forall k, k <> f -> r' !! k = r1 !! k)
                     /\ (forall c, r !! f = Some (FText c) -> r' !! f = decrypt c)).
    { rewrite Hr1f in H. destruct (r !! f) as [[|c|q]|] eqn:Hrf.
      - inversion H; subst. split; [done|]. done.
      - destruct (decrypt c) as [v|] eqn:Hd; [|done]. inversion H; subst. split.
        + intros k Hk. by rewrite lookup_insert_ne.
        + intros c' Hc'. inversion Hc'; subst. by rewrite lookup_insert_eq.
      - done.
      - inversion H; subst. split; [done|]. done. }
    destruct Hcases as [Hother Hself]. split.
    + intros k Hk. apply not_elem_of_cons in Hk as [Hkf Hk].
      rewrite Hother by done. by apply Hout.
    + intros g c Hg Hrg. apply elem_of_cons in Hg as [->|Hg]; [by apply Hself|].
      rewrite Hother by (intros ->; done). by apply Hin.
Qed.

Lemma decryptFields_total (r : row) (fields : list string) :
  NoDup fields ->
  (forall f, f ∈ fields ->
     r !! f = None \/ r !! f = Some FNull
     \/ exists c, r !! f = Some (FText c) /\ is_Some (decrypt c)) ->
  is_Some (decryptFields decrypt r fields).
Proof.
  induction fields as [|f fs IH]; intros Hnd Hok; [by eexists|].
  apply NoDup_cons in Hnd as [Hf Hnd].
  destruct IH as [r1 H1]; [done| intros g Hg; apply Hok; by right |].
  destruct (decryptFields_lookup r r1 fs Hnd H1) as [Hout _].
  unfold decryptFields in *. cbn [foldr]. rewrite H1. cbn [decrypt_field].
  rewrite (Hout f Hf).
  destruct (Hok f) as [->|[->|(c & -> & [v ->])]]; [by left|by eexists..].
Qed.


Lemma fields_NoDup : NoDup fieldsToDecrypt.
Proof. apply (bool_decide_unpack _). by vm_compute. Qed.

Lemma select_columns_lookup (r : row) (k : string) :
  k ∈ selected_columns -> select_columns r !! k = Some (column r k).
Proof.
  intros Hk. unfold select_columns. apply elem_of_list_to_map_1.
  - rewrite <- list_fmap_compose.
    replace ((fst ∘ (fun c => (c, column r c))) <$> selected_columns)
      with selected_columns by (by rewrite <- (list_fmap_id selected_columns) at 1).
    apply (bool_decide_unpack _). by vm_compute.
  - apply list_elem_of_fmap. by exists k.
Qed.

Lemma fields_selected (f : string) : f ∈ fieldsToDecrypt -> f ∈ selected_columns.
Proof.
  intros Hf. unfold fieldsToDecrypt in Hf.
  repeat (apply elem_of_cons in Hf as [->|Hf]; [apply (bool_decide_unpack _); by vm_compute|]).
  by apply elem_of_nil in Hf.
Qed.

(** What the stored row holds in an encrypted column. *)
Lemma stored_field (now : string) (data : row) (f : string) (v : fval) :
  f ∈ fieldsToEncrypt -> data !! f = Some v ->
  select_columns (encryptFields encrypt data fieldsToEncrypt ∪ column_defaults now) !! f
  = Some (FText (encrypt v)).
Proof.
  intros Hf Hd. rewrite select_columns_lookup by by apply fields_selected.
  unfold column. erewrite lookup_union_Some_l; [done|].
  rewrite encryptFields_lookup by apply fields_NoDup.
  by rewrite bool_decide_true, Hd.
Qed.

Lemma decrypted_created_at (r rec : row) :
  decryptFields decrypt (select_columns r) fieldsToDecrypt = Some rec ->
  column rec "created_at" = column r "created_at".
Proof.
  intros H. destruct (decryptFields_lookup _ _ _ fields_NoDup H) as [Hout _].
  unfold column at 1. rewrite Hout.
  - rewrite select_columns_lookup; [done|]. apply (bool_decide_unpack _). by vm_compute.
  - apply (bool_decide_unpack _). by vm_compute.
Qed.

Lemma visited_Sorted (o : options) (table : list row) :
  Sorted (before created_at_desc) (visited o table).
Proof.
  unfold visited, limit_offset.
  destruct (_ <? 0)%Z; [|apply Sorted_firstn]; apply Sorted_skipn;
    apply isort_Sorted, created_at_desc_total.
Qed.

Lemma Sorted_same_keys (l l' : list row) :
  Forall2 (fun r rec => column rec "created_at" = column r "created_at") l l' ->
  Sorted (before created_at_desc) l -> Sorted (before created_at_desc) l'.
Proof.
  induction 1 as [|r rec l l' Hk Hf IH]; intros Hs; [constructor|].
  inversion Hs as [|? ? Hs' Hhd]; subst. constructor; [by apply IH|].
  destruct Hf as [|r2 rec2 l2 l2' Hk2 Hf2]; constructor.
  inversion Hhd; subst. unfold before, created_at_desc in *. by rewrite Hk, Hk2.
Qed.

End SyncFacts.


Section ReportFacts.
Import Store Http Reports.
Variable round_percent : nat -> nat -> Z.



End ReportFacts.

Section AuthFacts.
Import Store Http Auth.

(** Handing [authorize] one array makes the role check fail for every
    role: the timesheet routes answer 403 before their handlers run. *)
Lemma timesheet_guard_refuses (user : Actor) :
  organizationId user <> "" ->
  timesheet_guard user
  = Some (fail_with 403 "Insufficient permissions. Required role: admin,manager").
Proof.
  intros Hne. unfold timesheet_guard, enforceOrganizationAccess.
  assert (Ht : truthy (Some (organizationId user)) = true).
  { simpl. by destruct (String.eqb_spec (organizationId user) ""). }
  by rewrite Ht.
Qed.

End AuthFacts.

Section AdapterFacts.
Import Adapter.
Context {V : Type}.

(** Every plain character of the token list is a character of the text. *)
Lemma lex_chars (s : string) (cur : option nat) (c : ascii) :
  Chr c ∈ lex cur s -> c ∈ list_ascii_of_string s.
Proof.
  revert cur. induction s as [|a s IH]; intros cur H.
  - destruct cur; simpl in H; [apply list_elem_of_singleton in H; done|by apply elem_of_nil in H].
  - simpl. cbn [lex] in H.
    assert (Htail : Chr c ∈ (if Ascii.eqb a "$" && starts_with_digit s
                             then lex (Some 0%nat) s else Chr a :: lex None s) ->
            c ∈ a :: list_ascii_of_string s).
    { destruct (_ && _); intros H'.
      - right. by eapply IH.
      - apply elem_of_cons in H' as [H'|H']; [inversion H'; by left|right; by eapply IH]. }
    destruct cur as [k|].
    + destruct (digit_of a) as [d|].
      * right. by eapply IH.
      * apply elem_of_app in H as [H|H]; [|by apply Htail].
        simpl in H. apply list_elem_of_singleton in H. done.
    + simpl in H. by apply Htail.
Qed.

(** On a token list whose placeholders are numbered consecutively from
    [next + 1] and which holds no question mark, binding question marks by
    position and binding placeholders by number fill in the same values. *)
Lemma qmark_view_tokens (params : list V) (ts : list tok) (next : nat) :
  omap ph ts = seq (S next) (length (omap ph ts)) ->
  (forall c, Chr c ∈ ts -> c <> "?"%char) ->
  qmark_view next (string_of_chars (char_of <$> ts)) params = piece_of params <$> ts.
Proof.
  revert next. induction ts as [|t ts IH]; intros next Hseq Hq; [done|].
  destruct t as [c|k]; csimpl in *.
  - assert (Hc : Ascii.eqb c "?" = false).
    { apply Ascii.eqb_neq. apply Hq. by left. }
    rewrite Hc. f_equal. apply IH; [done|]. intros c' Hc'. apply Hq. by right.
  - injection Hseq as Hk Hseq. subst k. f_equal.
    apply IH; [done|]. intros c' Hc'. apply Hq. by right.
Qed.

(** X17. The two adapters bind alike when the placeholders of the text are
    [$1 .. $n] in this order and the text holds no question mark. *)
Lemma adapters_agree_in_order (text : string) (params : list V) (n : nat) :
  holes_of text = seq 1 n ->
  (forall c, c ∈ list_ascii_of_string text -> c <> "?"%char) ->
  embedded_view text params = server_view text params.
Proof.
  intros Hholes Hq. unfold embedded_view, server_view, sqliteQuery.
  apply (qmark_view_tokens params (tokens text) 0).
  - unfold holes_of in Hholes. fold ph in Hholes. rewrite Hholes. by rewrite length_seq.
  - intros c Hc. apply Hq. by eapply lex_chars.
Qed.

(** The answer of the embedded adapter counts the rows it returns. *)
Lemma embedded_rowCount {R} (engine_rows : option (list R)) :
  rowCount (embedded_result engine_rows) = length (rows (embedded_result engine_rows)).
Proof. by destruct engine_rows. Qed.

End AdapterFacts.

Section TextFacts.
Import Adapter Store Timesheets.

Lemma starts_with_digit_app (a X : string) :
  starts_with_digit X = false ->
  starts_with_digit (a ++ X)%string = starts_with_digit a.
Proof. intros HX. destruct a; [exact HX|reflexivity]. Qed.

Lemma not_digit (c : ascii) (tl : string) :
  starts_with_digit (String c tl) = false -> digit_of c = None.
Proof.
  unfold starts_with_digit. intros H. apply bool_decide_eq_false in H.
  destruct (digit_of c); [|reflexivity]. destruct H. by eexists.
Qed.

(** A text that does not start with a digit closes the placeholder under
    way. *)
Lemma lex_flush (cur : option nat) (X : string) :
  starts_with_digit X = false -> lex cur X = flush cur ++ lex None X.
Proof.
  intros HX. destruct X as [|c tl]; simpl.
  - by rewrite app_nil_r.
  - rewrite (not_digit c tl HX). by destruct cur.
Qed.

(** The scan of two texts put together is the two scans put together when
    the second text does not start with a digit. *)
Lemma lex_app (cur : option nat) (a X : string) :
  starts_with_digit X = false ->
  lex cur (a ++ X)%string = lex cur a ++ lex None X.
Proof.
  intros HX. revert cur. induction a as [|c tl IH]; intros cur.
  - change (lex cur X = flush cur ++ lex None X). exact (lex_flush cur X HX).
  - change (String c tl ++ X)%string with (String c (tl ++ X)%string).
    cbn [lex]. rewrite (starts_with_digit_app tl X HX).
    destruct cur as [k|], (digit_of c) as [d|]; [apply IH|..].
    all: destruct (Ascii.eqb c "$" && starts_with_digit tl); rewrite IH;
      rewrite <- ?app_assoc; reflexivity.
Qed.

Lemma holes_of_app (a X : string) :
  starts_with_digit X = false ->
  holes_of (a ++ X)%string = holes_of a ++ holes_of X.
Proof.
  intros HX. unfold holes_of, tokens. rewrite (lex_app None a X HX).
  apply omap_app.
Qed.

Lemma digit_of_pretty_N_char (d : N) :
  (d < 10)%N -> digit_of (pretty_N_char d) = Some (N.to_nat d).
Proof.
  intros Hd.
  assert (Hcases : In d [0; 1; 2; 3; 4; 5; 6; 7; 8; 9]%N).
  { simpl. lia. }
  simpl in Hcases.
  repeat (destruct Hcases as [<-|Hcases]; [reflexivity|]). destruct Hcases.
Qed.

(** Reading the decimal digits of [x] from the value 0 gives [x]. *)
Lemma lex_pretty_N_go (x : N) :
  forall s t : string,
    lex (Some 0%nat) (pretty_N_go x s ++ t)%string
    = lex (Some (N.to_nat x)) (s ++ t)%string.
Proof.
  induction (N.lt_wf_0 x) as [x _ IH]. intros s t.
  destruct (decide (x = 0)%N) as [->|Hx].
  - by rewrite pretty_N_go_0.
  - rewrite pretty_N_go_step by lia.
    rewrite IH by (apply N.div_lt; lia).
    change (String ?c s ++ t)%string with (String c (s ++ t)%string).
    cbn [lex]. rewrite digit_of_pretty_N_char by (apply N.mod_lt; lia).
    f_equal. f_equal.
    pose proof (N.div_mod x 10 ltac:(lia)) as Hdm. lia.
Qed.

Lemma pretty_N_go_starts_with_digit (x : N) :
  forall s t : string,
    (0 < x)%N -> starts_with_digit (pretty_N_go x s ++ t)%string = true.
Proof.
  induction (N.lt_wf_0 x) as [x _ IH]. intros s t Hx.
  rewrite pretty_N_go_step by done.
  destruct (decide (x `div` 10 = 0)%N) as [->|Hq].
  - rewrite pretty_N_go_0. simpl.
    rewrite digit_of_pretty_N_char by (apply N.mod_lt; lia).
    apply bool_decide_eq_true. by eexists.
  - apply IH; [apply N.div_lt; lia|]. apply N.neq_0_lt_0. exact Hq.
Qed.

(** A placeholder written with [pretty] is read back as its number. *)
Lemma lex_placeholder (n : nat) (t : string) :
  starts_with_digit t = false ->
  lex None ("$" ++ pretty n ++ t)%string = Ph n :: lex None t.
Proof.
  intros Ht.
  change ("$" ++ pretty n ++ t)%string with (String "$" (pretty n ++ t)%string).
  cbn [lex]. cbn [flush app Ascii.eqb Bool.eqb andb].
  unfold pretty, pretty_nat, pretty, pretty_N.
  destruct (decide (N.of_nat n = 0)%N) as [Hn|Hn].
  - assert (n = 0%nat) as -> by lia. simpl.
    change (lex (Some 0%nat) t = Ph 0 :: lex None t).
    exact (lex_flush (Some 0%nat) t Ht).
  - rewrite pretty_N_go_starts_with_digit by lia.
    rewrite lex_pretty_N_go. rewrite Nat2N.id.
    change (lex (Some n) t = Ph n :: lex None t).
    exact (lex_flush (Some n) t Ht).
Qed.

End TextFacts.

Section QueryTextFacts.
Import Adapter Store Timesheets.

Lemma placeholders_seq {A} (ids : list A) :
  placeholders ids = join "," (dollar <$> seq 2 (length ids)).
Proof.
  unfold placeholders. f_equal. generalize 2%nat as j.
  induction ids as [|x ids IH]; intros j; [reflexivity|].
  rewrite imap_cons. cbn [length seq fmap list_fmap]. f_equal.
  rewrite <- (IH (S j)). apply imap_ext. intros i y _. unfold dollar. simpl.
  do 2 f_equal. lia.
Qed.

Lemma string_app_assoc (a b c : string) : ((a ++ b) ++ c = a ++ b ++ c)%string.
Proof.
  induction a as [|x a IH]; [reflexivity|].
  change (String x ((a ++ b) ++ c) = String x (a ++ b ++ c))%string. by rewrite IH.
Qed.

Lemma join_starts_without_digit (ks : list nat) (t : string) :
  starts_with_digit t = false ->
  starts_with_digit (join "," (dollar <$> ks) ++ t)%string = false.
Proof. intros Ht. destruct ks as [|k [|k' ks]]; [exact Ht|reflexivity..]. Qed.

(** The placeholders of a comma-separated list are its numbers. *)
Lemma holes_of_join (ks : list nat) (t : string) :
  starts_with_digit t = false ->
  holes_of (join "," (dollar <$> ks) ++ t)%string = ks ++ holes_of t.
Proof.
  intros Ht. induction ks as [|k ks IH]; [reflexivity|].
  destruct ks as [|k' ks].
  - cbn [fmap list_fmap join]. unfold dollar at 1.
    rewrite string_app_assoc. unfold holes_of, tokens.
    rewrite (lex_placeholder k t Ht). reflexivity.
  - change (join "," (dollar <$> k :: k' :: ks))
      with (dollar k ++ "," ++ join "," (dollar <$> k' :: ks))%string.
    unfold dollar at 1. rewrite !string_app_assoc.
    unfold holes_of, tokens in *.
    rewrite lex_placeholder by reflexivity.
    change (lex None ("," ++ ?r)%string) with (Chr "," :: lex None r).
    csimpl. f_equal. exact IH.
Qed.

Lemma holes_of_placeholder (n : nat) (t : string) :
  starts_with_digit t = false ->
  holes_of ("$" ++ pretty n ++ t)%string = n :: holes_of t.
Proof. intros Ht. unfold holes_of, tokens. by rewrite (lex_placeholder n t Ht). Qed.

(** The verification statement of the bulk route carries the numbers its
    text is built with: the identifiers at [$2..$(n+1)], then [$1]. *)
Lemma holes_of_verifyQuery (timeLogIds : list string) :
  holes_of (verifyQuery timeLogIds) = holes (select_time_logs_in (length timeLogIds)).
Proof.
  unfold verifyQuery. rewrite placeholders_seq.
  rewrite holes_of_app by (by apply join_starts_without_digit).
  rewrite holes_of_join by reflexivity.
  reflexivity.
Qed.

(** The update statement of the bulk route: [$1], then [$(n+2)], then the
    identifiers at [$2..$(n+1)]. *)
Lemma holes_of_updateQuery (pendingIds : list jsval) :
  holes_of (updateQuery pendingIds) = holes (update_time_logs_in (length pendingIds)).
Proof.
  unfold updateQuery. rewrite placeholders_seq.
  set (rest := (_ ++ join "," _ ++ _)%string).
  set (n := (length pendingIds + 2)%nat).
  match goal with
  | |- holes_of (?pre ++ _)%string = _ =>
      replace (pre ++ pretty n ++ rest)%string
        with ("
        UPDATE time_logs
        SET status = $1,
            approved_by = " ++ "$" ++ pretty n ++ rest)%string by reflexivity
  end.
  rewrite holes_of_app by reflexivity.
  rewrite holes_of_placeholder by reflexivity.
  subst rest.
  rewrite holes_of_app by (by apply join_starts_without_digit).
  rewrite holes_of_join by reflexivity.
  change (holes_of ?a ++ n :: holes_of ?b ++ ?ks ++ holes_of ?c)
    with ([1%nat] ++ n :: [] ++ ks ++ []).
  rewrite app_nil_r. subst n. unfold update_time_logs_in, holes.
  rewrite (Nat.add_comm (length pendingIds) 2). reflexivity.
Qed.

End QueryTextFacts.

(** * Part III: the properties on the sample data *)

Section TenantExamples.
Import Store Http Tenant Sample.


End TenantExamples.

Section IsolationExamples.
Import Store Http Sample.

(** The time logs of the sample store carry distinct identifiers. *)
Lemma sample_ids_distinct : NoDup (omap tl_id (time_logs db0)).
Proof. apply (bool_decide_unpack _). vm_compute. reflexivity. Qed.

(** The manager of one organization reaches for the time log, project,
    task and screenshot of the other. *)
Lemma cross_organization_references_rejected_witness :
  Timesheets.approve (conn ServerStore) (single log_g "approve") db0
  = (fail_with 404 "Time log not found", db0)
  /\ (exists resp,
        TimeLogs.post_time (conn ServerStore) (creation reactor design 1000 2000 1000) db0
        = (resp, db0) /\ code resp = 403%nat /\ success resp = false)
  /\ (exists resp,
        TimeLogs.post_time (conn EmbeddedStore) (creation website welding 1000 2000 1000) db0
        = (resp, db0) /\ code resp = 403%nat /\ success resp = false)
  /\ Screenshots.get_screenshot (conn EmbeddedStore) manager shot_g db0
     = (fail_with 404 "Screenshot not found", db0).
Proof.
  split; [|split; [|split]].
  - destruct (cross_organization_references_rejected (conn ServerStore) manager db0)
      as (H & _).
    destruct (H (single log_g "approve") row_g log_g eq_refl eq_refl sample_ids_distinct)
      as (resp & Hrun & _ & Hresp).
    + apply list_elem_of_lookup. exists 3%nat. reflexivity.
    + reflexivity.
    + vm_compute. discriminate.
    + rewrite Hrun, Hresp; [reflexivity|reflexivity|reflexivity|].
      exists "approve". split; reflexivity.
  - destruct (cross_organization_references_rejected (conn ServerStore) manager db0)
      as (_ & H & _).
    apply (H (creation reactor design 1000 2000 1000)
             {| p_id := reactor; p_organization_id := globex; p_name := "Reactor";
                p_is_active := true; p_deleted_at := None |}).
    + reflexivity.
    + reflexivity.
    + vm_compute. discriminate.
    + apply (bool_decide_unpack _). vm_compute. reflexivity.
    + apply list_elem_of_lookup. exists 1%nat. reflexivity.
    + vm_compute. discriminate.
  - destruct (cross_organization_references_rejected (conn EmbeddedStore) manager db0)
      as (_ & _ & H & _).
    apply (H (creation website welding 1000 2000 1000)
             {| t_id := welding; t_organization_id := globex; t_project_id := reactor;
                t_name := "Welding"; t_is_active := true; t_deleted_at := None |}).
    + reflexivity.
    + reflexivity.
    + vm_compute. discriminate.
    + apply (bool_decide_unpack _). vm_compute. reflexivity.
    + apply list_elem_of_lookup. exists 1%nat. reflexivity.
    + vm_compute. discriminate.
  - destruct (cross_organization_references_rejected (conn EmbeddedStore) manager db0)
      as (_ & _ & _ & H).
    destruct (H {| s_id := shot_g; s_organization_id := globex; s_user_id := gus;
            s_time_log_id := Some log_g; s_s3_key := "screenshots/globex/1.png";
            s_s3_url := "https://bucket.test/screenshots/globex/1.png";
            s_file_size := Some 2048%Z; s_mime_type := Some "image/png";
            s_captured_at := 1500; s_created_at := 1600; s_deleted_at := None |})
      as (resp & Hrun & _ & Hresp).
    + apply (bool_decide_unpack _). vm_compute. reflexivity.
    + apply list_elem_of_lookup. exists 0%nat. reflexivity.
    + vm_compute. discriminate.
    + cbn [s_id] in Hrun. rewrite Hrun, Hresp; reflexivity.
Defined.

End IsolationExamples.

Section KeyExamples.
Import CryptoConfig.
Local Open Scope Z_scope.

(** A hexadecimal key, the pass-phrase ["abc"] with its SHA-256 digest,
    and the four ways of having no key. *)
Lemma getEncryptionKey_cases_witness :
  getEncryptionKey
    (Some "00112233445566778899aabbccddeeff00112233445566778899AABBCCDDEEFF")
    (Some "production")
  = Returns [0; 17; 34; 51; 68; 85; 102; 119; 136; 153; 170; 187; 204; 221; 238; 255;
             0; 17; 34; 51; 68; 85; 102; 119; 136; 153; 170; 187; 204; 221; 238; 255] []
  /\ getEncryptionKey (Some "abc") (Some "production")
     = Returns [186; 120; 22; 191; 143; 1; 207; 234; 65; 65; 64; 222; 93; 174; 34; 35;
                176; 3; 97; 163; 150; 23; 122; 156; 180; 16; 255; 97; 242; 0; 21; 173] []
  /\ getEncryptionKey None (Some "production") = Throws production_error
  /\ getEncryptionKey (Some "") (Some "production") = Throws production_error
  /\ (exists key,
        getEncryptionKey None (Some "development")
        = Returns key
            ["⚠️  WARNING: Using hardcoded encryption key. This is insecure for production!";
             "⚠️  Set ENCRYPTION_KEY environment variable for secure key management."]
        /\ firstn 4 key = [1; 35; 69; 103] /\ length key = 32%nat)
  /\ (exists key,
        getEncryptionKey None None
        = Returns key
            ["⚠️  WARNING: Using hardcoded encryption key. This is insecure for production!";
             "⚠️  Set ENCRYPTION_KEY environment variable for secure key management."]
        /\ firstn 4 key = [1; 35; 69; 103] /\ length key = 32%nat).
Proof.
  split; [|split; [|split; [|split; [|split]]]].
  - destruct (getEncryptionKey_cases
                (Some "00112233445566778899aabbccddeeff00112233445566778899AABBCCDDEEFF")
                (Some "production")) as (_ & H & _).
    rewrite (H _ eq_refl eq_refl).
    + vm_compute. reflexivity.
    + apply (bool_decide_unpack _). vm_compute. reflexivity.
  - destruct (getEncryptionKey_cases (Some "abc") (Some "production")) as (_ & _ & H & _).
    rewrite (H _ eq_refl).
    + vm_compute. reflexivity.
    + discriminate.
    + intros [Hlen _]. vm_compute in Hlen. discriminate Hlen.
  - destruct (getEncryptionKey_cases None (Some "production")) as (_ & _ & _ & H & _).
    apply H; reflexivity.
  - destruct (getEncryptionKey_cases (Some "") (Some "production")) as (_ & _ & _ & H & _).
    apply H; reflexivity.
  - destruct (getEncryptionKey_cases None (Some "development")) as (_ & _ & _ & _ & H).
    eexists. split; [apply H; [reflexivity|discriminate]|].
    split; vm_compute; reflexivity.
  - destruct (getEncryptionKey_cases None None) as (_ & _ & _ & _ & H).
    eexists. split; [apply H; [reflexivity|discriminate]|].
    split; vm_compute; reflexivity.
Defined.

(** The digest on two test vectors of the standard: the empty message and
    a message of 56 bytes, which needs a second block. *)
Example sha256_test_vectors :
  Sha256.digest (bytes_of_string "")
  = from_hex "e3b0c44298fc1c149afbf4c8996fb92427ae41e4649b934ca495991b7852b855"
  /\ Sha256.digest
       (bytes_of_string "abcdbcdecdefdefgefghfghighijhijkijkljklmklmnlmnomnopnopq")
     = from_hex "248d6a61d20638b8e5c026930c3e6039a33ce45964ff2167f6ecedd419db06c1".
Proof. split; vm_compute; reflexivity. Qed.

End KeyExamples.

Section ReportExamples.
Import Store Http Reports Sample.


End ReportExamples.

Section SyncExamples.
Import EmbeddedSync Sample.

(** With the default options the reader visits the one live row of a
    table of one row. *)
Lemma visited_single (r : row) :
  is_fnull (column r "deleted_at") = true -> visited all_pending [r] = [r].
Proof.
  intros Hlive. unfold visited, all_pending. cbn [List.filter organizationId limit offset].
  rewrite Hlive. reflexivity.
Qed.

(** The toy cipher gives back the four sensitive values of the sample
    entry. *)
Lemma toy_cipher_on_entry (f : string) :
  f ∈ fieldsToEncrypt ->
  exists v, entry !! f = Some v /\ toy_decrypt (toy_encrypt v) = Some v.
Proof.
  apply (proj1 (Forall_forall
                  (fun f => exists v, entry !! f = Some v
                                      /\ toy_decrypt (toy_encrypt v) = Some v) _)).
  repeat constructor; eexists; split; vm_compute; reflexivity.
Qed.

End SyncExamples.

Section CreationExamples.
Import Store Http TimeLogs Sample.

(** C7. On the embedded store a creation request whose end lies before
    its start is answered 201 and its row is written: the validators
    never compare the two instants, and the embedded schema carries no
    [CHECK (end_time > start_time)]. *)
Theorem embedded_store_writes_inverted_range :
  let answer := post_time (conn EmbeddedStore) (creation website design 2000 1000 1) db0 in
  bad_range (creation website design 2000 1000 1)
  /\ code (fst answer) = 201%nat /\ success (fst answer) = true
  /\ exists row,
       time_logs (snd answer) = time_logs db0 ++ [row]
       /\ tl_start_time row = 2000%Z /\ tl_end_time row = 1000%Z.
Proof.
  split.
  - exists 2000%Z, 1000%Z. repeat split; [reflexivity..|lia].
  - split; [reflexivity|]. split; [reflexivity|].
    eexists. split; [vm_compute; reflexivity|]. split; reflexivity.
Qed.

(** The server store refuses the same request, by its [valid_time_range]
    constraint, and writes nothing. *)
Example server_store_refuses_inverted_range :
  post_time (conn ServerStore) (creation website design 2000 1000 1) db0
  = (server_error (conn ServerStore) "Failed to create time log"
       "new row for relation time_logs violates check constraint", db0).
Proof. vm_compute. reflexivity. Qed.

End CreationExamples.

Section AdapterExamples.
Import Adapter Store Http Timesheets Sample.

(** The placeholder numbers the statements of the routes declare are the
    ones their texts carry. *)
Example holes_of_route_texts :
  holes_of "SELECT organization_id FROM projects
       WHERE id = $1 AND deleted_at IS NULL"
  = holes (select_organization_of "projects")
  /\ holes_of "SELECT id FROM tasks WHERE id = $1 AND organization_id = $2 AND deleted_at IS NULL"
     = holes (select_owned "tasks")
  /\ holes_of "SELECT id, user_id, status
         FROM time_logs
         WHERE id = $1 AND organization_id = $2 AND deleted_at IS NULL"
     = holes select_time_log
  /\ holes_of "UPDATE time_logs
         SET status = $1,
             approved_by = $2,
             approved_at = CURRENT_TIMESTAMP,
             updated_at = CURRENT_TIMESTAMP
         WHERE id = $3
         RETURNING id, status, approved_at"
     = holes update_time_log
  /\ holes_of "INSERT INTO time_logs (
          organization_id, user_id, project_id, task_id,
          start_time, end_time, duration_ms, duration_hours,
          paused_duration_ms, activity_score, description, is_billable
        ) VALUES ($1, $2, $3, $4, $5, $6, $7, $8, $9, $10, $11, $12)
        RETURNING id, start_time, end_time, duration_hours, activity_score, created_at"
     = holes insert_time_log.
Proof. repeat split; vm_compute; reflexivity. Qed.

(** The adapter the factory selects from the environment. *)
Example select_backend_cases :
  select_backend (Some "sqlite") None = EmbeddedStore
  /\ select_backend None (Some "true") = EmbeddedStore
  /\ select_backend (Some "") (Some "true") = EmbeddedStore
  /\ select_backend (Some "postgresql") (Some "true") = ServerStore
  /\ select_backend None None = ServerStore.
Proof. repeat split. Qed.

(** The rewriting of the embedded adapter on a text of the routes, and on
    a text with a dollar sign that starts no placeholder. *)
Example sqliteQuery_rewrites :
  sqliteQuery "SELECT id FROM projects WHERE id = $1 AND organization_id = $2"
  = "SELECT id FROM projects WHERE id = ? AND organization_id = ?"
  /\ sqliteQuery "LIMIT $10 OFFSET $11 -- costs $ 5" = "LIMIT ? OFFSET ? -- costs $ 5".
Proof. split; vm_compute; reflexivity. Qed.

(** C9. The verification text of the bulk route for two identifiers uses
    [$1], [$2] and [$3] once each, [$1] last.  The server store gives the
    identifier list to the [IN] list and the organization to [$1]; the
    embedded store, which rewrites every placeholder to an anonymous [?],
    gives the organization to the first place of the [IN] list and the last
    identifier to the organization test. *)
Theorem embedded_rewrite_rebinds_out_of_order_text :
  let text := verifyQuery [log_a; log_b] in
  let params := [acme; log_a; log_b] in
  holes_of text ≡ₚ seq 1 3
  /\ vals (server_view text params) = [Some log_a; Some log_b; Some acme]
  /\ vals (embedded_view text params) = [Some acme; Some log_a; Some log_b]
  /\ embedded_view text params <> server_view text params.
Proof.
  assert (Hs : vals (server_view (verifyQuery [log_a; log_b]) [acme; log_a; log_b])
               = [Some log_a; Some log_b; Some acme]) by (vm_compute; reflexivity).
  assert (He : vals (embedded_view (verifyQuery [log_a; log_b]) [acme; log_a; log_b])
               = [Some acme; Some log_a; Some log_b]) by (vm_compute; reflexivity).
  cbv zeta. split; [|split; [exact Hs|split; [exact He|]]].
  - replace (holes_of (verifyQuery [log_a; log_b])) with ([2; 3] ++ [1])%nat
      by (vm_compute; reflexivity).
    symmetry. apply (Permutation_app_comm [1%nat] [2%nat; 3%nat]).
  - intros Heq. rewrite Heq, Hs in He. discriminate He.
Qed.

(** What the callers see: the same bulk call on the same store contents is
    refused by the embedded store, which looks for the organization among
    the time logs, and passes the verification of the server store. *)
Example bulk_call_differs_between_stores :
  bulk_approve (conn EmbeddedStore) (bulk [log_a; log_c] "approve") db0 = (not_found, db0)
  /\ fst (bulk_approve (conn ServerStore) (bulk [log_a; log_c] "approve") db0) <> not_found.
Proof. split; [vm_compute; reflexivity|vm_compute; discriminate]. Qed.

(** The update of the bulk route numbers the approver after the
    identifiers and passes it before them: on the server store the
    identifier list then starts with the approver and the approver column
    receives the last identifier, which the reference to [users] refuses,
    or, with one pending identifier, the update finds no row. *)
Example bulk_update_on_server_store :
  vals (server_view (updateQuery [JStr log_a; JStr log_c])
          [JStr "approved"; JStr mia; JStr log_a; JStr log_c])
  = [Some (JStr "approved"); Some (JStr log_c); Some (JStr mia); Some (JStr log_a)]
  /\ code (fst (bulk_approve (conn ServerStore) (bulk [log_a; log_b; log_c] "approve") db0))
     = 500%nat
  /\ snd (bulk_approve (conn ServerStore) (bulk [log_a; log_b; log_c] "approve") db0) = db0
  /\ bulk_approve (conn ServerStore) (bulk [log_a; log_b] "approve") db0
     = ({| code := 200; success := true;
           message := Some "0 time log(s) approved successfully";
           data := BulkSummary 0 2 1; error := None |}, db0).
Proof. repeat split; vm_compute; reflexivity. Qed.

End AdapterExamples.

(** * Part IV: authentication, activity reports, listings and keys *)

Section ActivityFacts.
Import Store Http Reply Activity.

Lemma prefix_app (p s : string) :
  String.prefix p s = true <-> exists post, s = (p ++ post)%string.
Proof.
  revert s. induction p as [|a p IH]; intros s.
  - split; [intros _; by exists s|by destruct s].
  - destruct s as [|b s]; simpl.
    + split; [done|]. by intros [post H].
    + destruct (Ascii.ascii_dec a b) as [->|Hab].
      * rewrite IH. split; intros [post H]; exists post; [by rewrite H|by inversion H].
      * split; [done|]. intros [post H]. inversion H. done.
Qed.

(** [includes] finds the part exactly when the string is some text, the
    part, and some text. *)
Lemma includes_app (s part : string) :
  includes s part = true <-> exists pre post, s = (pre ++ part ++ post)%string.
Proof.
  induction s as [|a s IH].
  - cbn [includes]. rewrite orb_false_r, prefix_app. split.
    + intros [post H]. by exists "", post.
    + intros (pre & post & H). destruct pre; [by exists post|done].
  - cbn [includes]. rewrite orb_true_iff, prefix_app, IH. split.
    + intros [[post H]|(pre & post & H)].
      * by exists "", post.
      * exists (String a pre), post. by rewrite H.
    + intros (pre & post & H). destruct pre as [|b pre].
      * left. by exists post.
      * right. exists pre, post. by inversion H.
Qed.

(** X10. A domain is tagged Unproductive exactly when its lower-case,
    trimmed form is one of the three listed domains: the comparison is an
    equality, so a host under one of them is not matched. *)
Theorem unproductive_is_exact_match (domain : string) :
  ascii_only domain ->
  classifyActivity domain = "Unproductive"
  <-> trim (toLowerCase domain) ∈ UNPRODUCTIVE_DOMAINS.
Proof.
  intros _. unfold classifyActivity.
  assert (Hthree : forall n, n ∈ UNPRODUCTIVE_DOMAINS ->
            n <> ""
            /\ existsb (fun m => includes n m) MEETING_DOMAINS = false).
  { intros n Hn. apply list_elem_of_In in Hn. simpl in Hn.
    destruct Hn as [<-|[<-|[<-|[]]]]; split; done. }
  destruct (String.eqb_spec domain "") as [->|Hne].
  - split; [done|]. intros Hin. by destruct (Hthree _ Hin).
  - cbv zeta. destruct (existsb (fun m => includes _ m) MEETING_DOMAINS) eqn:Hm.
    + split; [done|]. intros Hin. destruct (Hthree _ Hin) as [_ H]. congruence.
    + destruct (existsb (fun u => String.eqb _ u) UNPRODUCTIVE_DOMAINS) eqn:Hu.
      * split; [intros _|done]. apply existsb_exists in Hu as (u & Hin & Heq).
        apply String.eqb_eq in Heq. rewrite Heq. by apply list_elem_of_In.
      * split; [done|]. intros Hin.
        assert (existsb (fun u => String.eqb (trim (toLowerCase domain)) u)
                  UNPRODUCTIVE_DOMAINS = true); [|congruence].
        apply existsb_exists. eexists. split; [by apply list_elem_of_In|].
        apply String.eqb_refl.
Qed.

(** X11. A domain is tagged Meeting exactly when its lower-case, trimmed form
    holds one of the three meeting domains somewhere inside it. *)
Theorem meeting_is_substring_match (domain : string) :
  ascii_only domain ->
  classifyActivity domain = "Meeting"
  <-> exists m pre post,
        m ∈ MEETING_DOMAINS /\ trim (toLowerCase domain) = (pre ++ m ++ post)%string.
Proof.
  intros _. unfold classifyActivity.
  assert (Hspec : existsb (fun m => includes (trim (toLowerCase domain)) m) MEETING_DOMAINS
                  = true
                  <-> exists m pre post,
                        m ∈ MEETING_DOMAINS
                        /\ trim (toLowerCase domain) = (pre ++ m ++ post)%string).
  { rewrite existsb_exists. split.
    - intros (m & Hin & Hinc). apply includes_app in Hinc as (pre & post & H).
      exists m, pre, post. split; [by apply list_elem_of_In|done].
    - intros (m & pre & post & Hin & H). exists m. split; [by apply list_elem_of_In|].
      apply includes_app. by exists pre, post. }
  destruct (String.eqb_spec domain "") as [->|Hne].
  - split; [done|]. intros (m & pre & post & Hin & H).
    apply list_elem_of_In in Hin. simpl in Hin.
    destruct Hin as [<-|[<-|[<-|[]]]]; by destruct pre.
  - cbv zeta. destruct (existsb (fun m => includes _ m) MEETING_DOMAINS) eqn:Hm.
    + split; [intros _; by apply Hspec|done].
    + split.
      * by destruct (existsb (fun u => String.eqb _ u) UNPRODUCTIVE_DOMAINS).
      * intros H. apply Hspec in H. congruence.
Qed.

(** The pages of a video site under [www] count as productive, an address
    that merely holds a meeting domain counts as a meeting. *)
Example classifyActivity_cases :
  classifyActivity "youtube.com" = "Unproductive"
  /\ classifyActivity "  YouTube.COM " = "Unproductive"
  /\ classifyActivity "www.youtube.com" = "Productive"
  /\ classifyActivity "m.facebook.com" = "Productive"
  /\ classifyActivity "us02web.zoom.us" = "Meeting"
  /\ classifyActivity "notzoom.us.example.org" = "Meeting"
  /\ classifyActivity "github.com" = "Productive"
  /\ classifyActivity "" = "Productive".
Proof. repeat split. Qed.

End ActivityFacts.

Section UrlFacts.
Import Store Http Reply Activity.

Lemma existsb_false_forall {A} (f : A -> bool) (l : list A) :
  existsb f l = false <-> forall x, x ∈ l -> f x = false.
Proof.
  induction l as [|a l IH]; simpl.
  - split; [intros _ x Hx; by apply elem_of_nil in Hx|done].
  - rewrite orb_false_iff, IH. split.
    + intros [Ha Hl] x Hx. apply elem_of_cons in Hx as [->|Hx]; [done|by apply Hl].
    + intros H. split; [apply H; by left|intros x Hx; apply H; by right].
Qed.

(** What the route can do to the store: nothing, or append one row. *)
Lemma post_url_inv c now created req db resp db' :
  post_url c now created req db = (resp, db') ->
  (db' = db /\ a_success resp = false)
  \/ (exists d t w,
        domain req = Some d /\ timestamp req = Some t
        /\ trim d <> "" /\ (0 <= t <= MAX_TIME)%Z
        /\ conn_online c = true
        /\ db' = set_web_logs db (web_logs db ++ [w])
        /\ (forall w0, w0 ∈ web_logs db -> w_id w0 <> w_id w)
        /\ w_id w = match conn_backend c with
                    | EmbeddedStore => pretty now
                    | ServerStore => uuid_generate_v4 c
                    end
        /\ w_domain w = trim d
        /\ w_activity_type w = classifyActivity (trim d)
        /\ w_timestamp w = t /\ w_created_at w = created
        /\ resp = {| a_code := 200; a_success := true;
                     a_message := Some "URL activity logged";
                     a_data := Data {| l_id := w_id w; l_domain := trim d;
                                       l_activityType := classifyActivity (trim d);
                                       l_timestamp := t |};
                     a_error := None |}).
Proof.
  unfold post_url. intros H.
  destruct (domain req) as [d|] eqn:Hd; [|left; by inversion H].
  destruct (timestamp req) as [t|] eqn:Ht; [|left; by inversion H].
  destruct (validators req) eqn:Hv; [|left; by inversion H].
  unfold validators in Hv. rewrite Hd, Ht in Hv.
  apply andb_prop in Hv as [Hv _]. apply andb_prop in Hv as [Hv Hhi].
  apply andb_prop in Hv as [Hne Hlo].
  apply negb_true_iff, String.eqb_neq in Hne. apply Z.leb_le in Hlo.
  unfold catch, mbind, M_bind, mret, M_ret, throw in H.
  destruct (conn_online c) eqn:Hon.
  2:{ destruct (conn_backend c).
      - rewrite query_offline in H by done. left. by inversion H.
      - destruct (MAX_TIME <? t)%Z; [left; by inversion H|].
        unfold execute in H. rewrite Hon in H. left. by inversion H. }
  destruct (conn_backend c) eqn:Hb.
  - rewrite query_in_order in H by done.
    unfold date_param in H. destruct (t <=? MAX_TIME)%Z eqn:Hmax; cbn [run insert_web_log] in H.
    2:{ left. by inversion H. }
    apply Z.leb_le in Hmax.
    destruct (_ && _ && negb _) eqn:Hchk; [|left; by inversion H].
    apply andb_prop in Hchk as [_ Hfresh].
    apply negb_true_iff in Hfresh.
    right. eexists d, t, _. inversion H; subst. clear H.
    repeat split; try done; try lia.
    intros w0 Hw0. cbn [w_id].
    pose proof (proj1 (existsb_false_forall _ _) Hfresh w0 Hw0) as Hw. simpl in Hw.
    by apply String.eqb_neq in Hw.
  - destruct (MAX_TIME <? t)%Z eqn:Hmax; [left; by inversion H|].
    apply Z.ltb_ge in Hmax.
    unfold execute in H. rewrite Hon in H. cbn [insert_web_log_embedded] in H.
    destruct (existsb _ (web_logs db)) eqn:Hfresh; [left; by inversion H|].
    right. eexists d, t, _. inversion H; subst. clear H.
    repeat split; try done; try lia.
    intros w0 Hw0. cbn [w_id].
    pose proof (proj1 (existsb_false_forall _ _) Hfresh w0 Hw0) as Hw. simpl in Hw.
    by apply String.eqb_neq in Hw.
Qed.



End UrlFacts.

Section CountFacts.
Import Reports Activity.
Context {K : Type} (eqb : K -> K -> bool).




End CountFacts.

Section UrlStatsFacts.
Import Store Http Reply Activity Reports.
Variable round_percent : nat -> nat -> Z.



End UrlStatsFacts.

Section UrlTheorems.
Import Store Http Reply Activity.

(** X12. Whatever the request with a domain of ASCII characters, the route
    leaves the store as it was or
    appends one row to [web_logs]; the row carries the trimmed domain, the
    classification of that domain and the reported instant, and the
    answer is a success exactly when a row was written. *)
Theorem url_report_writes_one_classified_row c now created req db resp db' :
  (forall d, domain req = Some d -> ascii_only d) ->
  post_url c now created req db = (resp, db') ->
  exists added,
    db' = set_web_logs db (web_logs db ++ added)
    /\ (a_success resp = false /\ added = []
        \/ a_success resp = true
           /\ exists w, added = [w]
                /\ Some (w_domain w) = trim <$> domain req
                /\ w_activity_type w = classifyActivity (w_domain w)
                /\ Some (w_timestamp w) = timestamp req).
Proof.
  intros _ H. apply post_url_inv in H
    as [[-> Hfail]|(d & t & w & Hd & Ht & _ & _ & _ & -> & _ & _ & Hwd & Hwa & Hwt & _ & ->)].
  - exists []. split; [|by left]. by destruct db; rewrite app_nil_r.
  - exists [w]. split; [done|]. right. split; [done|]. exists w.
    rewrite Hd, Ht, Hwd, Hwa, Hwt. done.
Qed.

(** X14. On the embedded store the id of a row is the clock reading of the
    report: after a report that was stored, a second report that reads
    the same millisecond is answered with a failure and is not stored. *)
Theorem embedded_report_in_same_millisecond_is_lost
    c now created1 created2 req1 req2 db resp1 db1 :
  conn_backend c = EmbeddedStore ->
  post_url c now created1 req1 db = (resp1, db1) -> a_success resp1 = true ->
  exists resp2,
    post_url c now created2 req2 db1 = (resp2, db1) /\ a_success resp2 = false.
Proof.
  intros Hb H1 Hok.
  apply post_url_inv in H1
    as [[_ Hfail]|(d & t & w & _ & _ & _ & _ & _ & -> & _ & Hid & _)]; [congruence|].
  rewrite Hb in Hid.
  destruct (post_url c now created2 req2 _) as [resp2 db2] eqn:H2.
  apply post_url_inv in H2
    as [[-> Hfail]|(d2 & t2 & w2 & _ & _ & _ & _ & _ & _ & Hfresh & Hid2 & _)]; [eauto|].
  rewrite Hb in Hid2. exfalso. apply (Hfresh w); [|congruence].
  cbn [web_logs set_web_logs]. apply elem_of_app. right. by left.
Qed.

End UrlTheorems.

Section AuthnFacts.
Import Store Http Auth Authn.

Lemma substring_all (s : string) : String.substring 0 (String.length s) s = s.
Proof. induction s as [|a s IH]; [done|]. simpl. by rewrite IH. Qed.

(** A header that starts with [Bearer ] is that word and the token. *)
Lemma bearer_token (authHeader : string) :
  String.prefix "Bearer " authHeader = true ->
  authHeader
  = ("Bearer " ++ String.substring 7 (String.length authHeader - 7) authHeader)%string.
Proof.
  intros H. apply prefix_app in H as [post ->].
  simpl. by rewrite Nat.sub_0_r, substring_all.
Qed.

Lemma select_user_rows c userId db :
  conn_online c = true ->
  query c select_user [Timesheets.js_of_id userId] db
  = Ok (List.filter (fun u => col_eq (Some (u_id u)) (Timesheets.js_of_id userId)
                              && is_null (u_deleted_at u)) (users db)) db.
Proof. intros Hon. by rewrite query_holes1. Qed.

Lemma authenticate_passes verify c authorization db actor :
  authenticate verify c authorization db = Next actor ->
  exists token u,
    authorization = Some ("Bearer " ++ token)%string
    /\ verify token = Decoded (Some (u_id u))
    /\ u ∈ users db /\ u_deleted_at u = None /\ u_is_active u = true
    /\ actor = {| id := u_id u; organizationId := u_organization_id u;
                  email := u_email u; firstName := u_first_name u;
                  lastName := u_last_name u; role := u_role u |}.
Proof.
  unfold authenticate. intros H.
  destruct authorization as [authHeader|]; [|done].
  destruct (String.prefix "Bearer " authHeader) eqn:Hp; [|done].
  cbv zeta in H.
  destruct (verify _) as [userId|name] eqn:Hv; [|done].
  destruct (conn_online c) eqn:Hon.
  2:{ by rewrite query_offline in H. }
  rewrite select_user_rows in H by done.
  destruct (List.filter _ (users db)) as [|u rows] eqn:Hrows; [done|].
  destruct (u_is_active u) eqn:Hact; [|done]. simpl in H.
  assert (Hu : In u (List.filter (fun u => col_eq (Some (u_id u)) (Timesheets.js_of_id userId)
                                           && is_null (u_deleted_at u)) (users db))).
  { rewrite Hrows. by left. }
  apply filter_In in Hu as [Hin Hsel]. apply andb_prop in Hsel as [Hid Hlive].
  destruct userId as [i|]; [|done]. apply col_eq_JStr in Hid. injection Hid as Hid.
  apply is_null_true in Hlive.
  eexists _, u. split; [by rewrite <- bearer_token|].
  split; [by rewrite Hv, Hid|]. split; [by apply list_elem_of_In|].
  split; [done|]. split; [done|]. by inversion H.
Qed.

(** X1. A request passes [authenticate] only as a stored user: the user
    attached to the request is read from a row of [users] that is not
    deleted and is active, whose id is the one the token names; the
    organization and the role are those of the row, not of the token. *)
Theorem authenticated_actor_is_stored_user verify c authorization db actor :
  authenticate verify c authorization db = Next actor ->
  exists token u,
    authorization = Some ("Bearer " ++ token)%string
    /\ verify token = Decoded (Some (u_id u))
    /\ u ∈ users db /\ u_deleted_at u = None /\ u_is_active u = true
    /\ actor = {| id := u_id u; organizationId := u_organization_id u;
                  email := u_email u; firstName := u_first_name u;
                  lastName := u_last_name u; role := u_role u |}.
Proof. apply authenticate_passes. Qed.

Lemma bearer_prefix (token : string) :
  String.prefix "Bearer " ("Bearer " ++ token)%string = true
  /\ String.substring 7 (String.length ("Bearer " ++ token)%string - 7)
       ("Bearer " ++ token)%string = token.
Proof.
  split; [apply prefix_app; by exists token|].
  simpl. by rewrite Nat.sub_0_r, substring_all.
Qed.

(** X2. A token that verifies is of no use once its user is deleted or
    deactivated: the request is answered 401 and goes no further. *)
Theorem deleted_or_inactive_user_is_refused verify c token u db :
  conn_online c = true ->
  NoDup (u_id <$> users db) -> u ∈ users db ->
  verify token = Decoded (Some (u_id u)) ->
  (u_deleted_at u <> None ->
   authenticate verify c (Some ("Bearer " ++ token)%string) db
   = Answer (fail_with 401 "User not found or has been deleted"))
  /\ (u_deleted_at u = None -> u_is_active u = false ->
      authenticate verify c (Some ("Bearer " ++ token)%string) db
      = Answer (fail_with 401 "User account is inactive")).
Proof.
  intros Hon Hnd Hin Hv.
  destruct (bearer_prefix token) as [Hp Hs].
  assert (Hrows : List.filter (fun y => col_eq (Some (u_id y)) (JStr (u_id u))
                                        && is_null (u_deleted_at y)) (users db)
                  = if is_null (u_deleted_at u) then [u] else []).
  { apply (filter_unique_row (fun y => Some (u_id y)) _
             (fun y => is_null (u_deleted_at y)) (users db) u (u_id u));
      [done| by rewrite omap_total |done|done]. }
  unfold authenticate. rewrite Hp. cbv zeta. rewrite Hs, Hv.
  rewrite select_user_rows by done. cbn [Timesheets.js_of_id]. rewrite Hrows.
  split.
  - intros Hdel. by destruct (u_deleted_at u).
  - intros Hlive Hact. rewrite Hlive. simpl. by rewrite Hact.
Qed.

(** X3. Called with role names, [authorize] lets a user through exactly
    when the user's role is one of the names. *)
Theorem authorize_lets_listed_roles_through (roles : list string) (user : Actor) :
  authorize (RoleName <$> roles) (Some user) = None <-> role user ∈ roles.
Proof.
  unfold authorize.
  assert (Hinc : includes (RoleName <$> roles) (role user) = true <-> role user ∈ roles).
  { unfold includes. rewrite existsb_exists. split.
    - intros (a & Ha & Heq). apply in_map_iff in Ha as (r & <- & Hr).
      apply String.eqb_eq in Heq. subst. by apply list_elem_of_In.
    - intros H. exists (RoleName (role user)). split; [|apply String.eqb_refl].
      apply in_map_iff. exists (role user). split; [done|by apply list_elem_of_In]. }
  destruct (includes (RoleName <$> roles) (role user)); simpl.
  - split; [intros _; by apply Hinc|done].
  - split; [done|]. intros H. apply Hinc in H. done.
Qed.

(** Handing [authorize] one array refuses every user. *)
Lemma authorize_array_refuses (rs : list string) (more : list role_arg) (user : Actor) :
  Forall (fun a => match a with RoleArray _ => True | RoleName _ => False end) more ->
  exists r, authorize (RoleArray rs :: more) (Some user) = Some r /\ code r = 403%nat.
Proof.
  intros Hmore. unfold authorize.
  assert (Hinc : includes (RoleArray rs :: more) (role user) = false).
  { unfold includes. simpl. induction Hmore as [|a l Ha _ IH]; [done|].
    simpl. by destruct a. }
  rewrite Hinc. simpl. by eexists.
Qed.

Lemma timesheet_guard_answers (user : Actor) :
  exists r, timesheet_guard user = Some r /\ success r = false
            /\ (code r = 401%nat \/ code r = 403%nat).
Proof.
  unfold timesheet_guard, enforceOrganizationAccess.
  destruct (truthy (Some (organizationId user))); eexists; split; try done; simpl; auto.
Qed.

(** X4. The two approval routes are registered with
    [authorize(['admin', 'manager'])], one array where role names are
    expected: whoever calls them and with whatever token, role and body,
    the call is refused (401, 403 or 500) before the handler runs, and the
    store is left as it was. *)
Theorem approval_routes_refuse_every_caller verify c authorization db :
  (forall body,
     snd (put_approve verify c authorization body db) = db
     /\ success (fst (put_approve verify c authorization body db)) = false
     /\ code (fst (put_approve verify c authorization body db)) ∈ [401; 403; 500]%nat)
  /\ (forall body,
        snd (put_bulk_approve verify c authorization body db) = db
        /\ success (fst (put_bulk_approve verify c authorization body db)) = false
        /\ code (fst (put_bulk_approve verify c authorization body db))
           ∈ [401; 403; 500]%nat).
Proof.
  assert (Hauth : forall r, authenticate verify c authorization db = Answer r ->
            success r = false /\ code r ∈ [401; 403; 500]%nat).
  { unfold authenticate. intros r H.
    assert (Herr : forall name, success (authentication_error name) = false
                                /\ code (authentication_error name) ∈ [401; 403; 500]%nat).
    { intros name. unfold authentication_error.
      destruct (String.eqb name "JsonWebTokenError"); [split; [done|by left]|].
      destruct (String.eqb name "TokenExpiredError"); [split; [done|by left]|].
      split; [done|]. right. right. by left. }
    destruct authorization as [h|]; [|inversion H; split; [done|by left]].
    destruct (String.prefix "Bearer " h); [|inversion H; split; [done|by left]].
    cbv zeta in H. destruct (verify _) as [userId|name]; [|inversion H; apply Herr].
    destruct (query c select_user _ db) as [[|u rows] ?|? ?].
    - inversion H. split; [done|by left].
    - destruct (negb (u_is_active u)); [|done]. inversion H. split; [done|by left].
    - inversion H. apply Herr. }
  split; intros body.
  - unfold put_approve.
    destruct (authenticate verify c authorization db) as [r|user] eqn:Ha.
    + destruct (Hauth r eq_refl) as [? ?]. done.
    + destruct (timesheet_guard_answers user) as (r & -> & Hs & [Hc|Hc]); simpl;
        rewrite Hc; repeat split; try done; [by left|right; by left].
  - unfold put_bulk_approve.
    destruct (authenticate verify c authorization db) as [r|user] eqn:Ha.
    + destruct (Hauth r eq_refl) as [? ?]. done.
    + destruct (timesheet_guard_answers user) as (r & -> & Hs & [Hc|Hc]); simpl;
        rewrite Hc; repeat split; try done; [by left|right; by left].
Qed.

End AuthnFacts.

Section CreationRowFacts.
Import Store Http Tenant TimeLogs.

(** A row the ownership check of the route finds is a live row of the
    organization with the id asked for. *)
Lemma select_owned_found {A} (table : string) (own : A -> Owned) (l : list A)
    c i org db x rows :
  tenant_rows table db = Some (own <$> l) ->
  query c (select_owned table) [JStr i; JStr org] db = Ok (x :: rows) db ->
  exists a, a ∈ l /\ o_id (own a) = Some i /\ o_organization_id (own a) = org
            /\ o_deleted_at (own a) = None.
Proof.
  intros Ht Hq. destruct (conn_online c) eqn:Hon; [|by rewrite query_offline in Hq].
  rewrite query_holes2 in Hq by done. cbn [run select_owned] in Hq. rewrite Ht in Hq.
  injection Hq as Hq.
  assert (Hx : In x (x :: rows)) by (by left).
  rewrite <- Hq in Hx. apply filter_In in Hx as [Hin Hsel].
  apply andb_prop in Hsel as [Hsel Hlive]. apply andb_prop in Hsel as [Hid Horg].
  apply in_map_iff in Hin as (a & <- & Ha).
  exists a. apply col_eq_JStr in Hid. apply (col_eq_JStr (Some _) org) in Horg.
  apply is_null_true in Hlive.
  split; [by apply list_elem_of_In|]. split; [done|]. split; [congruence|done].
Qed.

(** What the route writes when it writes. *)
Lemma post_time_row c req db resp db' :
  post_time c req db = (resp, db') ->
  (db' = db /\ success resp = false)
  \/ (code resp = 201%nat
      /\ exists row p t,
           db' = set_time_logs db (time_logs db ++ [row])
           /\ tl_organization_id row = organizationId (user req)
           /\ tl_user_id row = id (user req)
           /\ tl_status row = "pending" /\ tl_approved_by row = None
           /\ tl_deleted_at row = None
           /\ p ∈ projects db /\ p_id p = tl_project_id row
           /\ p_organization_id p = organizationId (user req) /\ p_deleted_at p = None
           /\ t ∈ tasks db /\ t_id t = tl_task_id row
           /\ t_organization_id t = organizationId (user req) /\ t_deleted_at t = None).
Proof.
  unfold post_time. intros H.
  destruct (validateProject _ _ _ _ _ _) as [r|] eqn:Hp.
  { apply validate_reference_403 in Hp as [_ ?]. left. by inversion H; subst. }
  destruct (validateTask _ _ _ _ _ _) as [r|] eqn:Ht.
  { apply validate_reference_403 in Ht as [_ ?]. left. by inversion H; subst. }
  unfold create_handler in H.
  destruct (projectId req) as [project|]; [|left; by inversion H].
  destruct (taskId req) as [task|]; [|left; by inversion H].
  destruct (startTime req) as [start_|] eqn:Hs; [|left; by inversion H].
  destruct (endTime req) as [end_|] eqn:He; [|left; by inversion H].
  destruct (durationMs req) as [ms|] eqn:Hms; [|left; by inversion H].
  destruct (durationHours req) as [hours|]; [|left; by inversion H].
  destruct (validators req) eqn:Hval; [|left; by inversion H].
  unfold try_catch, mbind, M_bind, mret, M_ret in H.
  pose proof (query_read_only c (select_owned "projects")
                [JStr project; JStr (organizationId (user req))] db
                (fun vs => select_owned_read_only _ c vs db)) as Hq1.
  destruct (query c (select_owned "projects") _ db) as [rows1 db1|e db1] eqn:Hproj;
    subst db1; [|untouched H].
  destruct rows1 as [|x1 rows1]; [untouched H|].
  pose proof (query_read_only c (select_owned "tasks")
                [JStr task; JStr (organizationId (user req))] db
                (fun vs => select_owned_read_only _ c vs db)) as Hq2.
  destruct (query c (select_owned "tasks") _ db) as [rows2 db2|e db2] eqn:Htask;
    subst db2; [|untouched H].
  destruct rows2 as [|x2 rows2]; [untouched H|].
  destruct (select_owned_found "projects" owned_of_project (projects db)
              c project _ db x1 rows1 eq_refl Hproj) as (p & Hpin & Hpid & Hporg & Hplive).
  destruct (select_owned_found "tasks" owned_of_task (tasks db)
              c task _ db x2 rows2 eq_refl Htask) as (t & Htin & Htid & Htorg & Htlive).
  simpl in Hpid, Hporg, Hplive, Htid, Htorg, Htlive.
  injection Hpid as Hpid. injection Htid as Htid.
  destruct (conn_online c) eqn:Hon.
  2:{ rewrite query_offline in H by done. untouched H. }
  rewrite query_in_order in H by done.
  cbn [run insert_time_log] in H.
  destruct (description_param (description req)) as [|d| | | |] eqn:Hd;
    try (by destruct (description req) as [d'|]; [simpl in Hd; destruct (String.eqb _ _)|]).
  - destruct (references_ok _ _ _ _ db && server_checks c start_ end_ ms db) eqn:Hchk;
      [|untouched H].
    right. cbn beta iota in H. inversion H; subst. split; [done|].
    eexists _, p, t. repeat split; done.
  - destruct (references_ok _ _ _ _ db && server_checks c start_ end_ ms db) eqn:Hchk;
      [|untouched H].
    right. cbn beta iota in H. inversion H; subst. split; [done|].
    eexists _, p, t. repeat split; done.
Qed.

End CreationRowFacts.

Section RouteFacts.
Import Store Http Auth Authn.

(** X5. A time log that [POST /api/log/time] writes is tied to its tenant:
    it carries the id and the organization of a stored user who is not
    deleted and is active, its project and its task are live rows of that
    organization, and it starts as pending with no approver.  Otherwise
    the route writes nothing. *)
Theorem created_time_log_is_tied_to_its_tenant verify c authorization body db resp db' :
  post_time_route verify c authorization body db = (resp, db') ->
  db' = db
  \/ exists row u p t,
       db' = set_time_logs db (time_logs db ++ [row])
       /\ u ∈ users db /\ u_deleted_at u = None /\ u_is_active u = true
       /\ tl_user_id row = u_id u /\ tl_organization_id row = u_organization_id u
       /\ p ∈ projects db /\ p_id p = tl_project_id row /\ p_deleted_at p = None
       /\ p_organization_id p = u_organization_id u
       /\ t ∈ tasks db /\ t_id t = tl_task_id row /\ t_deleted_at t = None
       /\ t_organization_id t = u_organization_id u
       /\ tl_status row = "pending" /\ tl_approved_by row = None.
Proof.
  unfold post_time_route. intros H.
  destruct (authenticate verify c authorization db) as [r|user] eqn:Ha.
  { left. by inversion H. }
  apply authenticate_passes in Ha as (token & u & _ & _ & Hu & Hlive & Hact & ->).
  destruct (enforceOrganizationAccess _) as [r|]; [left; by inversion H|].
  apply post_time_row in H
    as [[-> _]|(_ & row & p & t & -> & Horg & Huser & Hst & Hby & _
                & Hp & Hpid & Hporg & Hpl & Ht & Htid & Htorg & Htl)]; [by left|].
  right. exists row, u, p, t. cbn [TimeLogs.user id organizationId] in *.
  repeat split; done.
Qed.

End RouteFacts.

Section KeyGenFacts.
Import CryptoConfig KeyGen.
Local Open Scope Z_scope.

Lemma hex_char_digit (n : Z) :
  0 <= n < 16 -> is_hex_digit (hex_char n) = true /\ hex_value (hex_char n) = Some n.
Proof.
  intros Hn.
  assert (Hcases : In n [0; 1; 2; 3; 4; 5; 6; 7; 8; 9; 10; 11; 12; 13; 14; 15]).
  { simpl. lia. }
  simpl in Hcases.
  repeat (destruct Hcases as [<-|Hcases]; [by split|]). destruct Hcases.
Qed.

(** Decoding the hexadecimal form of bytes gives the bytes back. *)
Lemma from_hex_to_hex (bytes : list Z) :
  Forall is_byte bytes -> from_hex (to_hex bytes) = bytes.
Proof.
  induction 1 as [|b bytes Hb _ IH]; [done|]. unfold is_byte in Hb. cbn [to_hex from_hex].
  destruct (hex_char_digit (b / 16)) as [_ ->].
  { split; [apply Z.div_pos; lia|apply Z.div_lt_upper_bound; lia]. }
  destruct (hex_char_digit (b mod 16)) as [_ ->]; [apply Z.mod_pos_bound; lia|].
  rewrite IH. f_equal. pose proof (Z.div_mod b 16). lia.
Qed.

Lemma to_hex_digits (bytes : list Z) :
  Forall is_byte bytes ->
  String.length (to_hex bytes) = (2 * length bytes)%nat
  /\ Forall (fun c => is_hex_digit c = true) (list_ascii_of_string (to_hex bytes)).
Proof.
  induction 1 as [|b bytes Hb _ [IHl IHd]]; [by split|]. unfold is_byte in Hb.
  cbn [to_hex String.length list_ascii_of_string length]. split; [lia|].
  constructor; [|constructor; [|done]].
  - apply hex_char_digit. split; [apply Z.div_pos; lia|apply Z.div_lt_upper_bound; lia].
  - apply hex_char_digit. apply Z.mod_pos_bound. lia.
Qed.

(** X15. A key made by [generateEncryptionKey] and then configured is the
    key [getEncryptionKey] returns, byte for byte and with no warning, in
    every environment: it is read as hexadecimal and never hashed. *)
Theorem generated_key_is_returned_as_generated
    (randomBytes : nat -> list Z) (NODE_ENV : option string) :
  length (randomBytes 32%nat) = 32%nat -> Forall is_byte (randomBytes 32%nat) ->
  getEncryptionKey (Some (generateEncryptionKey randomBytes)) NODE_ENV
  = Returns (randomBytes 32%nat) [].
Proof.
  intros Hlen Hbytes. unfold generateEncryptionKey, getEncryptionKey.
  destruct (to_hex_digits _ Hbytes) as [Hl Hd]. rewrite Hlen in Hl.
  assert (Hhex : is_hex64 (to_hex (randomBytes 32%nat)) = true).
  { apply is_hex64_spec, hex_run_spec. by split. }
  assert (Htruthy : truthy (Some (to_hex (randomBytes 32%nat))) = true).
  { simpl. destruct (to_hex (randomBytes 32%nat)); [done|done]. }
  rewrite Htruthy, Hhex. by rewrite from_hex_to_hex.
Qed.

End KeyGenFacts.

Section BulkNothingFacts.
Import Store Http Timesheets Lifecycle BulkSpec.

(** The verification of the bulk route on the server store: the rows it
    returns are rows of the table that carry an id. *)
Lemma server_verified_rows c org ids db rows db1 :
  conn_backend c = ServerStore ->
  query c (select_time_logs_in (length ids)) (JStr org :: (JStr <$> ids)) db = Ok rows db1 ->
  db1 = db /\ forall r, r ∈ rows -> r ∈ time_logs db /\ exists i, tl_id r = Some i.
Proof.
  intros Hb Hq. unfold query in Hq.
  destruct (conn_online c); [|done]. cbn [holes select_time_logs_in] in Hq.
  rewrite Hb, <- (length_fmap JStr ids), bind_server_select_in in Hq.
  cbn [run select_time_logs_in] in Hq.
  rewrite reverse_snoc, reverse_involutive in Hq.
  destruct (_ && _); [done|]. injection Hq as Hrows Hdb. split; [done|].
  intros r Hr. subst rows.
  apply list_elem_of_In, filter_In in Hr as [Hr Hsel]. apply list_elem_of_In in Hr.
  split; [done|].
  apply andb_prop in Hsel as [Hsel _]. apply andb_prop in Hsel as [Hin _].
  apply col_in_JStr in Hin as (i & Hi & _). eauto.
Qed.

(** On the embedded store the verification looks for the organization
    among the time logs: it finds fewer rows than identifiers, or none
    when there is no identifier. *)
Lemma embedded_verified_rows c org ids db rows db1 :
  conn_backend c = EmbeddedStore ->
  NoDup (omap tl_id (time_logs db)) ->
  (forall r, r ∈ time_logs db -> tl_id r <> Some org) ->
  query c (select_time_logs_in (length ids)) (JStr org :: (JStr <$> ids)) db = Ok rows db1 ->
  db1 = db /\ (ids = [] -> rows = []) /\ (ids <> [] -> length rows < length ids).
Proof.
  intros Hb Hnd Hns Hq. unfold query in Hq.
  destruct (conn_online c); [|done]. cbn [holes select_time_logs_in] in Hq.
  rewrite Hb, bind_embedded_positional in Hq.
  2:{ rewrite length_app, length_seq. simpl. rewrite length_fmap. lia. }
  cbn [run select_time_logs_in] in Hq.
  destruct (decide (ids = [])) as [->|Hne].
  - simpl in Hq. rewrite Hb in Hq. simpl in Hq.
    injection Hq as Hrows Hdb. split; [done|]. split; [|done]. intros _.
    subst rows. by apply filter_none.
  - destruct (exists_last Hne) as (ids' & z & ->).
    rewrite fmap_app in Hq. cbn [fmap list_fmap] in Hq.
    rewrite app_comm_cons, reverse_snoc, reverse_involutive in Hq. rewrite Hb in Hq.
    rewrite (bool_decide_false (EmbeddedStore = ServerStore)) in Hq by done.
    cbn [andb] in Hq. injection Hq as Hrows Hdb. split; [done|]. split; [done|].
    intros _. subst rows. rewrite length_app. cbn [length].
    match goal with |- length (List.filter ?P _) < _ => set (sel := P) end.
    assert (Hle : length (List.filter sel (time_logs db)) <= length ids'); [|lia].
    apply (selected_at_most tl_id); [done|].
    intros r Hr Hsel. unfold sel in Hsel.
    apply andb_prop in Hsel as [Hsel Hlive]. apply andb_prop in Hsel as [Hin _].
    change (col_in (tl_id r) (JStr <$> (org :: ids')) = true) in Hin.
    apply col_in_JStr in Hin as (i & Hi & Hic). exists i. split; [done|].
    apply elem_of_cons in Hic as [->|Hic]; [|done].
    by destruct (Hns r Hr).
Qed.

(** The update of the bulk route on the server store hands the last
    pending id to [approved_by]: when that id names no user, the update
    changes nothing. *)
Lemma server_bulk_update_changes_nothing c st who pending db :
  conn_backend c = ServerStore ->
  pending <> [] ->
  (forall r, r ∈ pending -> exists i, tl_id r = Some i
                                      /\ forall u, u ∈ users db -> u_id u <> i) ->
  match query c (update_time_logs_in (length ((fun log => js_of_id (tl_id log)) <$> pending)))
          ([JStr st; who] ++ ((fun log => js_of_id (tl_id log)) <$> pending)) db with
  | Ok updated db2 => updated = [] /\ db2 = db
  | Raise _ db2 => db2 = db
  end.
Proof.
  intros Hb Hne Hids.
  destruct (exists_last Hne) as (pending' & z & ->).
  destruct (Hids z) as (i & Hi & Hnouser); [apply elem_of_app; right; by left|].
  rewrite fmap_app. cbn [fmap list_fmap]. rewrite Hi. cbn [js_of_id].
  unfold query. destruct (conn_online c); [|done].
  cbn [holes update_time_logs_in app]. rewrite Hb.
  pose proof (bind_server_update_in (JStr st) who (JStr i)
                ((fun log => js_of_id (tl_id log)) <$> pending')) as Hbind.
  cbn [app] in Hbind. rewrite Hbind. cbn [run update_time_logs_in].
  unfold update_approval.
  assert (Hfk : approved_by_ok c (Some i) db = false).
  { unfold approved_by_ok. rewrite Hb. apply existsb_false_forall.
    intros u Hu. apply String.eqb_neq. by apply Hnouser. }
  rewrite Hfk, orb_false_r.
  match goal with |- context [List.filter ?P (time_logs db)] => set (sel := P) end.
  destruct (bool_decide_reflect (List.filter sel (time_logs db) = [])) as [Hnone|Hsome];
    [|done].
  rewrite Hnone. split; [done|]. by apply approval_update_none.
Qed.

(** X8. The bulk route changes no time log, on either store.  On the
    embedded store its verification looks for the organization among the
    time logs and rejects the call; on the server store its update gives
    the last pending id to [approved_by], which the reference to [users]
    refuses, or selects by the caller's id and finds no row.  A call that
    is answered as a success reports that nothing was approved. *)
Theorem bulk_approval_changes_nothing c req db :
  NoDup (omap tl_id (time_logs db)) ->
  (forall r u, r ∈ time_logs db -> u ∈ users db -> tl_id r <> Some (u_id u)) ->
  (forall r, r ∈ time_logs db -> tl_id r <> Some (organizationId (b_user req))) ->
  snd (bulk_approve c req db) = db
  /\ (success (fst (bulk_approve c req db)) = true ->
      exists total skipped,
        data (fst (bulk_approve c req db)) = BulkSummary 0 total skipped).
Proof.
  intros Hnd Husers Horg.
  destruct (timeLogIds req) as [ids|] eqn:Hids.
  2:{ unfold bulk_approve. rewrite Hids. by split. }
  destruct (b_action req) as [act|] eqn:Hact.
  2:{ unfold bulk_approve. rewrite Hids, Hact. by split. }
  destruct (forallb isUUID ids) eqn:Hu.
  2:{ unfold bulk_approve. rewrite Hids, Hact, Hu. by split. }
  destruct (is_action act) eqn:Ha.
  2:{ unfold bulk_approve. rewrite Hids, Hact, Hu, Ha. by split. }
  destruct (query c (select_time_logs_in (length ids))
              (JStr (organizationId (b_user req)) :: (JStr <$> ids)) db)
    as [rows db1|e db1] eqn:Hq.
  2:{ unfold bulk_approve. rewrite Hids, Hact, Hu, Ha. cbn [andb].
      unfold try_catch, mbind, M_bind. rewrite Hq. cbn [snd fst success].
      split; [|done].
      destruct (query_run_or_raise c (select_time_logs_in (length ids))
                  (JStr (organizationId (b_user req)) :: (JStr <$> ids)) db)
        as [[vs Hrun]|[e' Hrun]]; rewrite Hrun in Hq.
      - cbn [run select_time_logs_in] in Hq.
        destruct (reverse vs); [by inversion Hq|].
        destruct (_ && _); by inversion Hq.
      - by inversion Hq. }
  destruct (length rows =? length ids)%nat eqn:Hlen.
  2:{ assert (db1 = db) as ->.
      { destruct (conn_backend c) eqn:Hb.
        - by destruct (server_verified_rows c _ ids db rows db1 Hb Hq).
        - by destruct (embedded_verified_rows c _ ids db rows db1 Hb Hnd Horg Hq). }
      unfold bulk_approve. rewrite Hids, Hact, Hu, Ha. cbn [andb].
      unfold try_catch, mbind, M_bind, mret, M_ret. rewrite Hq, Hlen. by split. }
  apply Nat.eqb_eq in Hlen.
  assert (db1 = db /\
          (List.filter is_pending rows <> [] ->
           conn_backend c = ServerStore
           /\ forall r, r ∈ List.filter is_pending rows ->
                exists i, tl_id r = Some i /\ forall u, u ∈ users db -> u_id u <> i))
    as [-> Hpending].
  { destruct (conn_backend c) eqn:Hb.
    - destruct (server_verified_rows c _ ids db rows db1 Hb Hq) as [-> Hrows].
      split; [done|]. intros _. split; [done|]. intros r Hr.
      apply list_elem_of_In, filter_In in Hr as [Hr _]. apply list_elem_of_In in Hr.
      destruct (Hrows r Hr) as (Hin & i & Hi). exists i. split; [done|].
      intros u Hu' Heq. apply (Husers r u Hin Hu'). by rewrite Hi, Heq.
    - destruct (embedded_verified_rows c _ ids db rows db1 Hb Hnd Horg Hq)
        as (-> & Hnil & Hlt).
      split; [done|]. intros Hne. exfalso.
      destruct (decide (ids = [])) as [E|E]; [by rewrite (Hnil E) in Hne|].
      specialize (Hlt E). lia. }
  rewrite (bulk_after_verification c req ids act db rows Hids Hact Hu Ha (conj Hq Hlen)).
  cbv zeta.
  destruct (List.filter is_pending rows) as [|r0 pending] eqn:Hp; [by split|].
  destruct (Hpending ltac:(done)) as [Hb Hrows].
  pose proof (server_bulk_update_changes_nothing c (newStatus act)
                (JStr (id (b_user req))) (r0 :: pending) db Hb ltac:(done) Hrows) as Hupd.
  cbn [length Nat.eqb].
  destruct (query c (update_time_logs_in _) _ db) as [updated db2|e db2].
  - destruct Hupd as [-> ->]. split; [done|]. intros _. by eexists _, _.
  - subst db2. by split.
Qed.

End BulkNothingFacts.

Section ScreenshotFacts.
Import Store Http Screenshots.

(** X9. [GET /screenshot/:id] looks the screenshot up by id and
    organization only: a live screenshot of the caller's organization is
    answered with a signed address for its own object, whichever member
    of the organization captured it. *)
Theorem screenshot_is_open_to_its_organization c actor s db :
  conn_online c = true ->
  NoDup (s_id <$> screenshots db) -> s ∈ screenshots db ->
  s_deleted_at s = None -> s_organization_id s = organizationId actor ->
  get_screenshot c actor (s_id s) db
  = ({| code := 200; success := true; message := None;
        data := ScreenshotData (s_id s) (s_s3_key s) (s_s3_url s)
                  (getSignedUrl c (s_s3_key s)) (s_file_size s) (s_mime_type s)
                  (s_captured_at s) (s_created_at s);
        error := None |}, db).
Proof.
  intros Hon Hnd Hs Hlive Horg. unfold get_screenshot, try_catch, mbind, M_bind.
  rewrite query_holes2 by done. simpl.
  rewrite (filter_unique_row (fun y => Some (s_id y)) _
             (fun y => col_eq (Some (s_organization_id y)) (JStr (organizationId actor))
                       && is_null (s_deleted_at y)) (screenshots db) s (s_id s));
    [| intros y; by rewrite andb_assoc | by rewrite omap_total | done | done].
  rewrite (proj2 (col_eq_JStr (Some (s_organization_id s)) (organizationId actor)))
    by (by rewrite Horg).
  rewrite Hlive. reflexivity.
Qed.

End ScreenshotFacts.

Section SyncLimitFacts.
Import EmbeddedSync.
Variable decrypt : string -> option fval.

Lemma limit_offset_length {A} (limit offset : Z) (l : list A) :
  (0 <= limit)%Z -> length (limit_offset limit offset l) <= Z.to_nat limit.
Proof.
  intros Hl. unfold limit_offset.
  rewrite (proj2 (Z.ltb_ge limit 0) Hl). rewrite length_take. lia.
Qed.

(** X16. [getPendingSyncLogs] returns at most [limit] records, 100 when no
    limit is given. *)
Theorem pending_sync_respects_limit (o : options) (table : list row) (recs : list row) :
  (0 <= default 100 (limit o))%Z ->
  getPendingSyncLogs decrypt o table = Done recs ->
  length recs <= Z.to_nat (default 100%Z (limit o)).
Proof.
  intros Hl. unfold getPendingSyncLogs.
  destruct (mapM _ (visited o table)) as [rows|] eqn:Hm; [|done].
  intros [= <-]. apply length_mapM in Hm. rewrite <- Hm.
  unfold visited. by apply limit_offset_length.
Qed.

End SyncLimitFacts.

Section RewriteFacts.
Import Adapter.

(** Inside a placeholder the scan first gives out a placeholder. *)
Lemma lex_inside (k : nat) (s : string) :
  exists k' r, lex (Some k) s = Ph k' :: r.
Proof.
  revert k. induction s as [|c tl IH]; intros k; [by exists k, []|].
  cbn [lex]. destruct (digit_of c); [apply IH|]. by eexists _, _.
Qed.

(** The rewritten form of a text that starts with no digit starts with no
    digit. *)
Lemma rewritten_starts_without_digit (s : string) :
  starts_with_digit s = false ->
  starts_with_digit (string_of_chars (char_of <$> lex None s)) = false.
Proof.
  destruct s as [|c tl]; [done|]. intros Hc. apply not_digit in Hc.
  cbn [lex flush app].
  destruct (Ascii.eqb c "$" && starts_with_digit tl).
  - by destruct (lex_inside 0 tl) as (k' & r & ->).
  - cbn [fmap list_fmap char_of string_of_chars starts_with_digit]. by rewrite Hc.
Qed.

(** The scan of a rewritten text finds plain characters only. *)
Lemma lex_rewritten (cur : option nat) (s : string) :
  lex None (string_of_chars (char_of <$> lex cur s)) = Chr <$> (char_of <$> lex cur s).
Proof.
  revert cur. induction s as [|c tl IH]; intros cur; [by destruct cur|].
  cbn [lex].
  assert (Hrest : lex None (string_of_chars
                    (char_of <$> (if Ascii.eqb c "$" && starts_with_digit tl
                                  then lex (Some 0%nat) tl else Chr c :: lex None tl)))
                  = Chr <$> (char_of <$> (if Ascii.eqb c "$" && starts_with_digit tl
                                          then lex (Some 0%nat) tl
                                          else Chr c :: lex None tl))).
  { destruct (Ascii.eqb c "$" && starts_with_digit tl) eqn:Hcond; [apply IH|].
    cbn [fmap list_fmap char_of string_of_chars lex flush app].
    assert (Hc : Ascii.eqb c "$"
                 && starts_with_digit (string_of_chars (char_of <$> lex None tl)) = false).
    { apply andb_false_iff in Hcond as [Hc|Hd]; [by rewrite Hc|].
      rewrite (rewritten_starts_without_digit tl Hd). apply andb_false_r. }
    change (list_fmap tok ascii char_of (lex None tl)) with (char_of <$> lex None tl).
    rewrite Hc. f_equal. apply IH. }
  destruct cur as [k|]; [|exact Hrest].
  destruct (digit_of c); [apply IH|].
  cbn [flush app fmap list_fmap char_of string_of_chars lex].
  change (list_fmap tok ascii char_of ?l) with (char_of <$> l).
  cbn [Ascii.eqb Bool.eqb andb]. f_equal. exact Hrest.
Qed.

Lemma string_of_chars_plain (l : list ascii) :
  string_of_chars (char_of <$> (Chr <$> l)) = string_of_chars l.
Proof. induction l as [|a l IH]; [done|]. csimpl. by rewrite IH. Qed.

Lemma omap_ph_plain (l : list ascii) : omap ph (Chr <$> l) = [].
Proof. by induction l. Qed.

(** X18. The rewriting of the embedded adapter leaves no placeholder behind:
    the rewritten text holds no [$k], and rewriting it once more changes
    nothing. *)
Theorem rewritten_text_holds_no_placeholder (text : string) :
  holes_of (sqliteQuery text) = []
  /\ sqliteQuery (sqliteQuery text) = sqliteQuery text.
Proof.
  unfold holes_of, sqliteQuery, tokens. rewrite !lex_rewritten. split.
  - apply omap_ph_plain.
  - apply string_of_chars_plain.
Qed.

End RewriteFacts.

Section ListingFacts.
Import Adapter Store Timesheets Listing.

Lemma plain_tokens (s : string) :
  plain s = true ->
  starts_with_digit s = false /\ holes_of s = []
  /\ forall c, Chr c ∈ tokens s -> c <> "?"%char.
Proof.
  unfold plain, holes_of. intros H. apply andb_true_iff in H as [Hd Hf].
  split; [by apply negb_true_iff|].
  rewrite forallb_forall in Hf. split.
  - induction (tokens s) as [|t ts IH]; [done|].
    assert (Ht := Hf t (or_introl eq_refl)). destruct t; [|done]. simpl.
    apply IH. intros x Hx. apply Hf. by right.
  - intros c Hc Heq. apply list_elem_of_In in Hc. apply Hf in Hc. subst c. done.
Qed.

Lemma no_qmark_tokens (s : string) :
  no_qmark s = true -> forall c, Chr c ∈ tokens s -> c <> "?"%char.
Proof.
  unfold no_qmark. rewrite forallb_forall. intros Hf c Hc Heq.
  apply list_elem_of_In in Hc. apply Hf in Hc. subst c. done.
Qed.

Lemma string_app_empty (s : string) : (s ++ "")%string = s.
Proof.
  induction s as [|c s IH]; [done|].
  change (String c (s ++ "")%string = String c s). by rewrite IH.
Qed.

Lemma tokens_dollar (k : nat) : lex None (dollar k) = [Ph k].
Proof.
  unfold dollar. rewrite <- (string_app_empty (pretty k)).
  by rewrite lex_placeholder.
Qed.

Lemma dollar_no_digit (k : nat) (t : string) :
  starts_with_digit (dollar k ++ t)%string = false.
Proof. reflexivity. Qed.

(** The scan of a text, a plain piece and a placeholder put together. *)
Lemma tokens_clause (text clause : string) (k : nat) :
  starts_with_digit clause = false ->
  tokens (text ++ clause ++ dollar k)%string = tokens text ++ tokens clause ++ [Ph k].
Proof.
  intros Hd. unfold tokens.
  rewrite lex_app.
  - rewrite lex_app; [|apply (dollar_no_digit k "")].
    by rewrite tokens_dollar.
  - rewrite starts_with_digit_app; [done|]. apply (dollar_no_digit k "").
Qed.

Lemma add_filter_in_order (clause : string) (value : option string) (b : builder) :
  plain clause = true -> in_order b -> in_order (add_filter clause value b).
Proof.
  intros Hp (Hh & Hi & Hq). apply plain_tokens in Hp as (Hd & Hc & Hcq).
  unfold add_filter. destruct value as [v|]; [|done].
  destruct (truthy (Some v)); [|done].
  unfold in_order. cbn [queryText queryParams paramIndex].
  unfold holes_of in *. rewrite (tokens_clause _ _ _ Hd).
  rewrite !omap_app, Hh, Hc, length_app. simpl. rewrite Hi.
  split; [|split].
  - rewrite Nat.add_1_r. by rewrite seq_S.
  - lia.
  - intros c Hin. rewrite !elem_of_app in Hin. destruct Hin as [Hin|[Hin|Hin]].
    + by apply Hq.
    + by apply Hcq.
    + apply list_elem_of_singleton in Hin. done.
Qed.

Lemma add_page_in_order (order : string) (limit offset : jsval) (b : builder) :
  plain order = true ->
  in_order b ->
  holes_of (queryText (add_page order limit offset b))
    = seq 1 (length (queryParams (add_page order limit offset b)))
  /\ forall c, Chr c ∈ tokens (queryText (add_page order limit offset b)) -> c <> "?"%char.
Proof.
  intros Hp (Hh & Hi & Hq). apply plain_tokens in Hp as (Hd & Hc & Hcq).
  unfold add_page. cbn [queryText queryParams paramIndex].
  assert (Ht : tokens (queryText b ++ order ++ dollar (paramIndex b) ++ " OFFSET "
                       ++ dollar (paramIndex b + 1))%string
               = tokens (queryText b) ++ tokens order ++ [Ph (paramIndex b)]
                 ++ tokens " OFFSET " ++ [Ph (paramIndex b + 1)]).
  { unfold tokens. rewrite lex_app.
    2:{ rewrite starts_with_digit_app; [done|]. apply dollar_no_digit. }
    rewrite (lex_app None order); [|apply dollar_no_digit].
    unfold dollar at 1. rewrite (string_app_assoc "$").
    rewrite lex_placeholder; [|reflexivity].
    rewrite (lex_app None " OFFSET "); [|apply (dollar_no_digit (paramIndex b + 1) "")].
    by rewrite tokens_dollar. }
  unfold holes_of in *. rewrite Ht. split.
  - rewrite !omap_app, Hh, Hc, length_app. simpl. rewrite Hi.
    replace (length (queryParams b) + 2)%nat with (S (S (length (queryParams b)))) by lia.
    rewrite !seq_S. rewrite <- app_assoc. simpl. do 3 f_equal. lia.
  - intros c Hin. rewrite !elem_of_app in Hin.
    destruct Hin as [Hin|[Hin|[Hin|[Hin|Hin]]]].
    + by apply Hq.
    + by apply Hcq.
    + apply list_elem_of_singleton in Hin. done.
    + revert Hin. by apply (no_qmark_tokens " OFFSET ").
    + apply list_elem_of_singleton in Hin. done.
Qed.

Lemma base_in_order (text : string) (params : list jsval) :
  holes_of text = seq 1 (length params) -> no_qmark text = true ->
  in_order {| queryText := text; queryParams := params; paramIndex := S (length params) |}.
Proof.
  intros Hh Hq. split; [exact Hh|]. split; [done|]. by apply no_qmark_tokens.
Qed.

Lemma in_order_binds_alike (text : string) (params : list jsval) :
  holes_of text = seq 1 (length params) ->
  (forall c, Chr c ∈ tokens text -> c <> "?"%char) ->
  embedded_view text params = server_view text params.
Proof.
  intros Hh Hq. unfold embedded_view, server_view, sqliteQuery.
  apply (qmark_view_tokens params (tokens text) 0); [|exact Hq].
  unfold holes_of in Hh. fold ph in Hh. rewrite Hh. by rewrite length_seq.
Qed.

Ltac listing :=
  match goal with
  | |- holes_of (queryText ?b) = _ /\ _ =>
      assert (H : holes_of (queryText b) = seq 1 (length (queryParams b))
                  /\ forall c, Chr c ∈ tokens (queryText b) -> c <> "?"%char);
      [ apply add_page_in_order; [reflexivity|];
        repeat (apply add_filter_in_order; [reflexivity|]);
        apply (base_in_order _ [_; _]) || apply (base_in_order _ [_]);
        vm_compute; reflexivity
      | destruct H as [Hh Hq]; split; [exact Hh|by apply in_order_binds_alike] ]
  end.

(** X19. The texts of the listing routes carry their placeholders in order
    of appearance, one for each parameter pushed, whichever filters the
    request gives: the two stores bind them alike. *)
Theorem listing_texts_bind_in_order (organizationId user_id : string) (q : Filters)
    (limit offset : jsval) :
  Forall (fun b => holes_of (queryText b) = seq 1 (length (queryParams b))
                   /\ embedded_view (queryText b) (queryParams b)
                      = server_view (queryText b) (queryParams b))
    [ time_logs_query organizationId user_id q limit offset;
      screenshots_query organizationId user_id q limit offset;
      pending_query organizationId q limit offset;
      wellness_query organizationId user_id q limit offset ].
Proof.
  apply Forall_cons_2; [unfold time_logs_query; listing|].
  apply Forall_cons_2; [unfold screenshots_query; listing|].
  apply Forall_cons_2; [unfold pending_query; listing|].
  apply Forall_cons_2; [unfold wellness_query; listing|].
  apply Forall_nil_2.
Qed.

End ListingFacts.

(** * Part V: these properties on the sample data *)

Section ActivityExamples.
Import Store Http Reply Activity Sample Cases.

(** The video site is matched whatever its case and the blanks around
    it, and its [www] host is not. *)
Lemma unproductive_is_exact_match_witness :
  classifyActivity " YouTube.com " = "Unproductive"
  /\ classifyActivity "www.youtube.com" <> "Unproductive".
Proof.
  split.
  - apply (proj2 (unproductive_is_exact_match " YouTube.com "
                    ltac:(apply (bool_decide_unpack _); vm_compute; reflexivity))).
    apply (bool_decide_unpack _). vm_compute. reflexivity.
  - intros H.
    apply (proj1 (unproductive_is_exact_match "www.youtube.com"
                    ltac:(apply (bool_decide_unpack _); vm_compute; reflexivity))) in H.
    apply (bool_decide_pack _) in H. vm_compute in H. destruct H.
Defined.

(** A host under the conferencing domain is a meeting. *)
Lemma meeting_is_substring_match_witness :
  classifyActivity "app.Zoom.us" = "Meeting".
Proof.
  apply (proj2 (meeting_is_substring_match "app.Zoom.us"
                  ltac:(apply (bool_decide_unpack _); vm_compute; reflexivity))).
  exists "zoom.us", "app.", "". split; [|reflexivity].
  apply (bool_decide_unpack _). vm_compute. reflexivity.
Defined.


(** A report of the code host is stored as one Productive row. *)
Lemma url_report_writes_one_classified_row_witness :
  exists w,
    web_logs (snd (post_url (conn EmbeddedStore) 1700 1701 (report " GitHub.com " 300)
                     db_today))
    = web_logs db_today ++ [w]
    /\ w_domain w = "GitHub.com" /\ w_activity_type w = "Productive"
    /\ w_timestamp w = 300%Z.
Proof.
  assert (Hascii : forall d, domain (report " GitHub.com " 300) = Some d -> ascii_only d).
  { intros d Hd. injection Hd as <-. apply (bool_decide_unpack _). vm_compute. reflexivity. }
  destruct (url_report_writes_one_classified_row (conn EmbeddedStore) 1700 1701
              (report " GitHub.com " 300) db_today _ _ Hascii (surjective_pairing _))
    as (added & Hdb & [[Hfail _]|(_ & w & -> & Hd & Ha & Ht)]).
  - vm_compute in Hfail. discriminate.
  - exists w. rewrite Hdb. cbn [web_logs set_web_logs].
    split; [reflexivity|].
    assert (Hdom : w_domain w = "GitHub.com").
    { cbn in Hd. by injection Hd as ->. }
    split; [exact Hdom|]. split.
    + rewrite Ha, Hdom. reflexivity.
    + cbn in Ht. by injection Ht as ->.
Defined.


(** Two reports of the embedded store that read the same clock: the first
    is stored, the second is answered with a failure. *)
Lemma embedded_report_in_same_millisecond_is_lost_witness :
  let first := post_url (conn EmbeddedStore) 1700 1701 (report "github.com" 300) db_today in
  a_success (fst first) = true
  /\ exists resp2,
       post_url (conn EmbeddedStore) 1700 1702 (report "zoom.us" 301) (snd first)
       = (resp2, snd first)
       /\ a_success resp2 = false.
Proof.
  split; [reflexivity|].
  exact (embedded_report_in_same_millisecond_is_lost (conn EmbeddedStore) 1700 1701 1702
           (report "github.com" 300) (report "zoom.us" 301) db_today _ _
           eq_refl eq_refl eq_refl).
Defined.

End ActivityExamples.

Section AuthnExamples.
Import Store Http Auth Authn Sample Cases.

Lemma staff_ids_distinct : NoDup (u_id <$> users db_staff).
Proof. apply (bool_decide_unpack _). vm_compute. reflexivity. Qed.

(** Mia's token lets her in as the manager the table says she is. *)
Lemma authenticated_actor_is_stored_user_witness :
  authenticate verify (conn ServerStore) (Some "Bearer token-of-mia") db_staff
  = Next manager
  /\ exists u, u ∈ users db_staff /\ u_id u = mia /\ u_role u = "manager"
               /\ u_is_active u = true.
Proof.
  split; [reflexivity|].
  destruct (authenticated_actor_is_stored_user verify (conn ServerStore)
              (Some "Bearer token-of-mia") db_staff manager eq_refl)
    as (token & u & _ & _ & Hu & _ & Hact & Hactor).
  exists u. unfold manager in Hactor. injection Hactor as Hid _ _ _ _ Hrole.
  split; [exact Hu|]. split; [by rewrite <- Hid|]. split; [by rewrite <- Hrole|exact Hact].
Defined.

(** The tokens of the deleted and of the switched-off account verify and
    are refused. *)
Lemma deleted_or_inactive_user_is_refused_witness :
  authenticate verify (conn EmbeddedStore) (Some "Bearer token-of-old") db_staff
  = Answer (fail_with 401 "User not found or has been deleted")
  /\ authenticate verify (conn ServerStore) (Some "Bearer token-of-ned") db_staff
     = Answer (fail_with 401 "User account is inactive").
Proof.
  split.
  - apply (proj1 (deleted_or_inactive_user_is_refused verify (conn EmbeddedStore)
                    "token-of-old" old_row db_staff eq_refl staff_ids_distinct
                    ltac:(apply list_elem_of_lookup; exists 3%nat; reflexivity) eq_refl)).
    discriminate.
  - apply (proj2 (deleted_or_inactive_user_is_refused verify (conn ServerStore)
                    "token-of-ned" ned_row db_staff eq_refl staff_ids_distinct
                    ltac:(apply list_elem_of_lookup; exists 2%nat; reflexivity) eq_refl));
      reflexivity.
Defined.

(** Mia's hour of design work is written as hers and as Acme's. *)
Lemma created_time_log_is_tied_to_its_tenant_witness :
  exists row u,
    snd (post_time_route verify (conn ServerStore) (Some "Bearer token-of-mia")
           hour_of_design db_staff)
    = set_time_logs db_staff (time_logs db_staff ++ [row])
    /\ u ∈ users db_staff /\ u_is_active u = true
    /\ tl_user_id row = u_id u /\ tl_organization_id row = u_organization_id u
    /\ tl_status row = "pending".
Proof.
  destruct (created_time_log_is_tied_to_its_tenant verify (conn ServerStore)
              (Some "Bearer token-of-mia") hour_of_design db_staff _ _
              (surjective_pairing _))
    as [Hsame|(row & u & p & t & Hdb & Hu & _ & Hact & Hwho & Horg & _ & _ & _ & _ & _
               & _ & _ & _ & Hst & _)].
  - apply (f_equal (fun d => length (time_logs d))) in Hsame.
    vm_compute in Hsame. discriminate.
  - exists row, u. split; [exact Hdb|].
    split; [exact Hu|]. split; [exact Hact|]. split; [exact Hwho|].
    split; [exact Horg|exact Hst].
Defined.

End AuthnExamples.

Section MoreExamples.
Import Store Http Timesheets Screenshots CryptoConfig KeyGen EmbeddedSync Adapter Sample Cases.

(** The key made from the bytes 0 to 31 is returned as those bytes. *)
Lemma generated_key_is_returned_as_generated_witness :
  getEncryptionKey
    (Some "000102030405060708090a0b0c0d0e0f101112131415161718191a1b1c1d1e1f")
    (Some "production")
  = Returns (counting_bytes 32) [].
Proof.
  apply (generated_key_is_returned_as_generated counting_bytes (Some "production") eq_refl).
  apply Forall_forall. intros b Hb. unfold counting_bytes in Hb.
  apply list_elem_of_fmap in Hb as (k & -> & Hk). apply elem_of_seq in Hk.
  unfold is_byte. lia.
Defined.

Lemma sample_log_ids_are_no_user_ids (r : TimeLog) (u : User) :
  r ∈ time_logs db0 -> u ∈ users db0 -> tl_id r <> Some (u_id u).
Proof.
  intros Hr Hu. revert u Hu. apply Forall_forall. revert r Hr. apply Forall_forall.
  apply (bool_decide_unpack _). vm_compute. reflexivity.
Qed.

Lemma sample_log_ids_are_no_organization_id (r : TimeLog) :
  r ∈ time_logs db0 -> tl_id r <> Some acme.
Proof.
  revert r. apply Forall_forall. apply (bool_decide_unpack _). vm_compute. reflexivity.
Qed.

(** The manager's bulk approval of the two pending logs of her
    organization changes nothing, on either store. *)
Lemma bulk_approval_changes_nothing_witness :
  snd (bulk_approve (conn ServerStore) (bulk [log_a; log_c] "approve") db0) = db0
  /\ snd (bulk_approve (conn EmbeddedStore) (bulk [log_a; log_c] "approve") db0) = db0.
Proof.
  split.
  - exact (proj1 (bulk_approval_changes_nothing (conn ServerStore)
                    (bulk [log_a; log_c] "approve") db0 sample_ids_distinct
                    sample_log_ids_are_no_user_ids sample_log_ids_are_no_organization_id)).
  - exact (proj1 (bulk_approval_changes_nothing (conn EmbeddedStore)
                    (bulk [log_a; log_c] "approve") db0 sample_ids_distinct
                    sample_log_ids_are_no_user_ids sample_log_ids_are_no_organization_id)).
Defined.

(** Mia is handed a signed address for the screenshot Ned captured. *)
Lemma screenshot_is_open_to_its_organization_witness :
  s_user_id ned_shot <> id manager
  /\ exists resp,
       get_screenshot (conn ServerStore) manager shot_n db_staff = (resp, db_staff)
       /\ code resp = 200%nat.
Proof.
  split; [vm_compute; discriminate|].
  eexists. split.
  - apply (screenshot_is_open_to_its_organization (conn ServerStore) manager ned_shot
             db_staff eq_refl).
    + apply (bool_decide_unpack _). vm_compute. reflexivity.
    + apply list_elem_of_lookup. exists 1%nat. reflexivity.
    + reflexivity.
    + reflexivity.
  - reflexivity.
Defined.

(** With a limit of zero the reader returns no record of a table that
    holds one. *)
Lemma pending_sync_respects_limit_witness :
  getPendingSyncLogs toy_decrypt (at_most 0) [stored_entry] = Done []
  /\ forall recs,
       getPendingSyncLogs toy_decrypt (at_most 0) [stored_entry] = Done recs ->
       length recs <= 0.
Proof.
  split; [reflexivity|]. intros recs Hrecs.
  apply (pending_sync_respects_limit toy_decrypt (at_most 0) [stored_entry] recs);
    [simpl; lia|exact Hrecs].
Defined.

(** The project check of the creation route reaches both engines with
    the same values at the same places. *)
Lemma adapters_agree_in_order_witness :
  embedded_view project_check [JStr website; JStr acme]
  = server_view project_check [JStr website; JStr acme].
Proof.
  apply (adapters_agree_in_order project_check [JStr website; JStr acme] 2).
  - vm_compute. reflexivity.
  - apply Forall_forall. apply (bool_decide_unpack _). vm_compute. reflexivity.
Defined.

(** A creation request of no duration is refused, the store left as it
    was. *)
Lemma bad_duration_rejected_witness :
  exists resp,
    TimeLogs.post_time (conn EmbeddedStore) (creation website design 1000 2000 0) db0
    = (resp, db0)
    /\ success resp = false.
Proof.
  apply (bad_duration_rejected (conn EmbeddedStore) (creation website design 1000 2000 0) db0).
  exists 0%Z. split; [reflexivity|lia].
Defined.

(** The server store refuses the range that ends before it starts. *)
Lemma bad_range_rejected_by_server_witness :
  exists resp,
    TimeLogs.post_time (conn ServerStore) (creation website design 2000 1000 1) db0
    = (resp, db0)
    /\ success resp = false.
Proof.
  apply (bad_range_rejected_by_server (conn ServerStore)
           (creation website design 2000 1000 1) db0 eq_refl).
  exists 2000%Z, 1000%Z. split; [reflexivity|]. split; [reflexivity|lia].
Defined.

End MoreExamples.

(** * Part VI: the approval routes and the encrypting insert at work *)

Section ApprovalRouteCases.
Import Store Http Timesheets Authn Sample Cases.

(** C4. Mia, a stored and active manager of Acme, approves the pending
    log A of Acme with a token that verifies.  The route answers 403 on
    either store and leaves the log pending, with no approver and no
    approval time: it is registered with [authorize(['admin',
    'manager'])], which hands the two names over as one array, so no role
    is among the allowed ones.  The handler behind the guard, given the
    same request, answers 200 and writes the status, Mia as approver and
    the clock reading as approval time into that one row. *)
Theorem manager_approval_is_refused_by_the_route :
  (time_logs db0 !! 0%nat = Some row_a
   /\ tl_id row_a = Some log_a /\ tl_organization_id row_a = acme
   /\ tl_status row_a = "pending" /\ tl_approved_by row_a = None
   /\ tl_approved_at row_a = None)
  /\ authenticate verify (conn ServerStore) (Some "Bearer token-of-mia") db0
     = Next {| id := mia; organizationId := acme; email := "mia@acme.test";
               firstName := "Mia"; lastName := "Moss"; role := "manager" |}
  /\ put_approve verify (conn ServerStore) (Some "Bearer token-of-mia")
       (approval_of log_a "approve") db0
     = ({| code := 403; success := false;
           message := Some "Insufficient permissions. Required role: admin,manager";
           data := NoData; error := None |}, db0)
  /\ put_approve verify (conn EmbeddedStore) (Some "Bearer token-of-mia")
       (approval_of log_a "approve") db0
     = ({| code := 403; success := false;
           message := Some "Insufficient permissions. Required role: admin,manager";
           data := NoData; error := None |}, db0)
  /\ exists resp db' row,
       approve (conn ServerStore) (single log_a "approve") db0 = (resp, db')
       /\ code resp = 200%nat /\ success resp = true
       /\ time_logs db' !! 0%nat = Some row
       /\ tl_id row = Some log_a /\ tl_status row = "approved"
       /\ tl_approved_by row = Some mia /\ tl_approved_at row = Some 5000%Z
       /\ time_logs db' !! 1%nat = Some row_b /\ time_logs db' !! 2%nat = Some row_c.
Proof.
  split.
  { split; [reflexivity|]. split; [reflexivity|]. split; [reflexivity|].
    split; [reflexivity|]. split; reflexivity. }
  split; [reflexivity|].
  split; [vm_compute; reflexivity|].
  split; [vm_compute; reflexivity|].
  destruct (approve (conn ServerStore) (single log_a "approve") db0) as [resp db'] eqn:Hrun.
  vm_compute in Hrun. injection Hrun as <- <-.
  eexists _, _, _. split; [reflexivity|].
  split; [reflexivity|]. split; [reflexivity|]. split; [reflexivity|].
  repeat split.
Qed.

(** C3. Mia sends a batch that holds the log G of Globex next to two
    logs of her own organization.  The route answers 403 "Insufficient
    permissions" on either store, the answer it gives to a batch of her
    own logs alone, and changes nothing: the role guard refuses her before
    the verification of the identifiers runs.  The handler behind the
    guard, given the same batch, answers 400 "Some time logs were not
    found or do not belong to your organization" and changes nothing. *)
Theorem foreign_batch_is_refused_for_the_role :
  put_bulk_approve verify (conn ServerStore) (Some "Bearer token-of-mia")
    (batch_of [log_a; log_c; log_g] "approve") db0
  = ({| code := 403; success := false;
        message := Some "Insufficient permissions. Required role: admin,manager";
        data := NoData; error := None |}, db0)
  /\ put_bulk_approve verify (conn EmbeddedStore) (Some "Bearer token-of-mia")
       (batch_of [log_a; log_c; log_g] "approve") db0
     = ({| code := 403; success := false;
           message := Some "Insufficient permissions. Required role: admin,manager";
           data := NoData; error := None |}, db0)
  /\ put_bulk_approve verify (conn ServerStore) (Some "Bearer token-of-mia")
       (batch_of [log_a; log_c] "approve") db0
     = ({| code := 403; success := false;
           message := Some "Insufficient permissions. Required role: admin,manager";
           data := NoData; error := None |}, db0)
  /\ bulk_approve (conn ServerStore) (bulk [log_a; log_c; log_g] "approve") db0
     = ({| code := 400; success := false;
           message := Some "Some time logs were not found or do not belong to your organization";
           data := NoData; error := None |}, db0).
Proof.
  split; [|split; [|split]].
  - (* the route, server store *) vm_compute. reflexivity.
  - (* the route, embedded store *) vm_compute. reflexivity.
  - (* the route, a batch of her own logs *) vm_compute. reflexivity.
  - (* the handler *)
    unfold bulk_approve, bulk. cbn [timeLogIds b_action].
    vm_compute. reflexivity.
Qed.

(** C2. The batch [A, B, C] of the caller's organization, with A and C
    pending and B approved, is approved by Mia.  The handler answers 500
    on the server store, where the UPDATE numbers [approved_by] as
    [$(n+2)] and is given [[newStatus, req.user.id, ...pendingIds]], so
    that [approved_by] receives the identifier of C, which names no user;
    it answers 400 on the embedded store, where the rewritten verification
    binds the organization into the list of identifiers; and the route in
    front of it answers 403 on either store.  In every case A and C stay
    pending and no summary is returned. *)
Theorem example_batch_is_not_approved :
  (tl_status row_a = "pending" /\ tl_status row_b = "approved"
   /\ tl_status row_c = "pending"
   /\ time_logs db0 = [row_a; row_b; row_c; row_g])
  /\ bulk_approve (conn ServerStore) (bulk [log_a; log_b; log_c] "approve") db0
     = ({| code := 500; success := false;
           message := Some "Failed to bulk approve/reject time logs";
           data := NoData; error := None |}, db0)
  /\ bulk_approve (conn EmbeddedStore) (bulk [log_a; log_b; log_c] "approve") db0
     = ({| code := 400; success := false;
           message := Some "Some time logs were not found or do not belong to your organization";
           data := NoData; error := None |}, db0)
  /\ put_bulk_approve verify (conn ServerStore) (Some "Bearer token-of-mia")
       (batch_of [log_a; log_b; log_c] "approve") db0
     = ({| code := 403; success := false;
           message := Some "Insufficient permissions. Required role: admin,manager";
           data := NoData; error := None |}, db0)
  /\ put_bulk_approve verify (conn EmbeddedStore) (Some "Bearer token-of-mia")
       (batch_of [log_a; log_b; log_c] "approve") db0
     = ({| code := 403; success := false;
           message := Some "Insufficient permissions. Required role: admin,manager";
           data := NoData; error := None |}, db0).
Proof.
  split.
  { split; [reflexivity|]. split; [reflexivity|]. split; reflexivity. }
  split; [|split; [|split]].
  - (* the handler, server store *) vm_compute. reflexivity.
  - (* the handler, embedded store *) vm_compute. reflexivity.
  - (* the route, server store *) vm_compute. reflexivity.
  - (* the route, embedded store *) vm_compute. reflexivity.
Qed.

End ApprovalRouteCases.

Section ReferenceFacts.
Import EmbeddedSync.
Variable encrypt : fval -> string.

(** The ciphertext [insertTimeLog] puts into [project_id] is the key the
    engine looks up in [projects]: when it is the id of no project the
    insert is refused. *)
Lemma insertTimeLog_needs_a_project_named_by_the_ciphertext
    (now : string) (p : parents) (data : row) (table : list row) (v : fval) :
  data !! "project_id" = Some v ->
  encrypt v ∉ project_ids p ->
  insertTimeLog encrypt now p data table = Failed "SQLITE_CONSTRAINT".
Proof.
  intros Hv Hnone. unfold insertTimeLog, execute_insert.
  assert (Hcol : column (encryptFields encrypt data fieldsToEncrypt) "project_id"
                 = FText (encrypt v)).
  { unfold column. rewrite encryptFields_lookup.
    - rewrite bool_decide_true; [by rewrite Hv|]. by left.
    - apply (bool_decide_unpack _). by vm_compute. }
  assert (Hfk : foreign_keys_hold p (encryptFields encrypt data fieldsToEncrypt) = false).
  { unfold foreign_keys_hold, foreign_keys. cbn [forallb fst snd]. rewrite Hcol.
    cbn [is_fnull orb].
    assert (Hex : existsb (fun i => sql_eqb (FText (encrypt v)) (FText i)) (project_ids p)
                  = false).
    { apply not_true_is_false. intros Hex. apply existsb_exists in Hex as (i & Hi & Heq).
      apply String.eqb_eq in Heq. subst i. by apply Hnone, list_elem_of_In. }
    rewrite Hex. by rewrite !andb_false_r. }
  by rewrite Hfk, andb_false_r.
Qed.

End ReferenceFacts.

Section ReferenceCases.
Import EmbeddedSync Sample Cases.

(** C6. The working day of project ["P1"] is handed to [insertTimeLog]
    on an embedded store that holds the organization, the user, the
    project and the task it names.  The entry as it is would be stored:
    every reference holds.  [insertTimeLog] puts the ciphertext of ["P1"]
    into [project_id], a column that refers to [projects(id)], and the
    engine, which enforces the references, refuses the row: nothing is
    written and the reader returns no record. *)
Theorem encrypting_insert_is_refused_by_the_project_reference :
  entry !! "project_id" = Some (FText "P1")
  /\ execute_insert written_at shelf entry []
     = Some ([entry ∪ column_defaults written_at], 1%nat)
  /\ encryptFields toy_encrypt entry fieldsToEncrypt !! "project_id" = Some (FText "t:P1")
  /\ insertTimeLog toy_encrypt written_at shelf entry [] = Failed "SQLITE_CONSTRAINT"
  /\ getPendingSyncLogs toy_decrypt all_pending [] = Done [].
Proof.
  assert (Hp : entry !! "project_id" = Some (FText "P1")) by (vm_compute; reflexivity).
  split; [exact Hp|]. split; [|split; [|split]].
  - unfold execute_insert.
    replace (bool_decide _ && _ && _ && _) with true by (vm_compute; reflexivity).
    reflexivity.
  - rewrite encryptFields_lookup by (apply (bool_decide_unpack _); by vm_compute).
    rewrite bool_decide_true by (by left). by rewrite Hp.
  - apply (insertTimeLog_needs_a_project_named_by_the_ciphertext toy_encrypt written_at
             shelf entry [] (FText "P1") Hp).
    intros Hin. apply list_elem_of_singleton in Hin. discriminate Hin.
  - reflexivity.
Qed.

End ReferenceCases.
